(** * opencode-ptc: programmatic tool calling

    A shallow embedding of the plugin's TypeScript sources

      - [src/types.ts]       the data model ([Types]),
      - [src/generators.ts]  catalog normalisation, binding generation and
                             the signature listing ([Generators]),
      - [src/runtime.ts]     the execution engine ([Runtime]),
      - [src/ptc-tool.ts]    the command surface ([PtcTool]),

    together with the part of the JavaScript run time these files call into
    ([JS], [Obj], [Namespace]); the errors the run time raises itself carry
    the messages of V8.  Promises are modelled over a virtual clock, in
    milliseconds, which [Date.now()] and the timers both read: an [await]
    on the host suspends the script for the latency the host takes to
    answer, and synchronous computation takes the time the script says it
    takes. *)

From Stdlib Require Import ZArith NArith Ascii String List Lia.
From stdpp Require Import base option list strings pretty gmap.

Local Open Scope Z_scope.
Local Open Scope string_scope.

(* ===================================================================== *)
(** * The JavaScript run time *)
(* ===================================================================== *)

Module JS.

(** Run-time values.  A [string] stands for a JavaScript string, one
    character per code unit.  [VNumber] carries the integral numbers whose
    decimal rendering JavaScript prints in full (magnitude below 10^21);
    [VBare] is an object without a prototype, [Object.create(null)].  The
    fields of an object are its own enumerable properties, in the order
    JavaScript enumerates them, each key once. *)
#[local] Unset Elimination Schemes.
Inductive value : Type :=
| VUndefined
| VNull
| VBool (b : bool)
| VNumber (n : Z)
| VBigInt (n : Z)
| VString (s : string)
| VArray (items : list value)
| VObject (fields : list (string * value))
| VBare (fields : list (string * value)).
#[local] Set Elimination Schemes.

(** What a [throw] carries: an instance of [Error] with its [message], or
    any other value. *)
Inductive thrown : Type :=
| ErrorObject (message : string)
| Raw (v : value).

(** Completion of a synchronous computation. *)
Inductive completion (A : Type) : Type :=
| Normal (a : A)
| Abrupt (e : thrown).
Arguments Normal {A} a.
Arguments Abrupt {A} e.

Definition bind {A B : Type} (c : completion A) (k : A -> completion B) : completion B :=
  match c with
  | Normal a => k a
  | Abrupt e => Abrupt e
  end.

Notation "'do' x <- c ; k" := (bind c (fun x => k))
  (at level 10, x name, c at level 100, k at level 200).

Definition TypeError (message : string) : thrown := ErrorObject message.
Definition SyntaxError (message : string) : thrown := ErrorObject message.

(** [ToBoolean]. *)
Definition truthy (v : value) : bool :=
  match v with
  | VUndefined | VNull => false
  | VBool b => b
  | VNumber n | VBigInt n => negb (n =? 0)%Z
  | VString s => negb (String.eqb s "")
  | VArray _ | VObject _ | VBare _ => true
  end.

(** [v ?? d]. *)
Definition nullish (v : value) : bool :=
  match v with
  | VUndefined | VNull => true
  | _ => false
  end.

Definition coalesce (v d : value) : value := if nullish v then d else v.

(** [typeof v === "object"]. *)
Definition typeof_object (v : value) : bool :=
  match v with
  | VNull | VArray _ | VObject _ | VBare _ => true
  | _ => false
  end.

Definition isArray (v : value) : bool :=
  match v with
  | VArray _ => true
  | _ => false
  end.

Fixpoint assoc {A : Type} (k : string) (l : list (string * A)) : option A :=
  match l with
  | [] => None
  | (k', a) :: r => if String.eqb k' k then Some a else assoc k r
  end.

(** [v.k] for a property name [k] that no built-in prototype defines (the
    sources read [properties], [required], [type], [description], [enum],
    [items] only): own fields of an object, [undefined] on any other
    value, and a [TypeError] on [undefined] and [null]. *)
Definition get (v : value) (k : string) : completion value :=
  match v with
  | VUndefined =>
      Abrupt (TypeError ("Cannot read properties of undefined (reading '" ++ k ++ "')"))
  | VNull =>
      Abrupt (TypeError ("Cannot read properties of null (reading '" ++ k ++ "')"))
  | VObject fields | VBare fields => Normal (default VUndefined (assoc k fields))
  | _ => Normal VUndefined
  end.

(** [v?.k]. *)
Definition get_opt (v : value) (k : string) : value :=
  match v with
  | VObject fields | VBare fields => default VUndefined (assoc k fields)
  | _ => VUndefined
  end.

(** [Object.entries(v)] for [v] with [typeof v === "object"] and [v] truthy. *)
Definition entries (v : value) : list (string * value) :=
  match v with
  | VObject fields | VBare fields => fields
  | VArray items => imap (fun i x => (pretty (Z.of_nat i), x)) items
  | _ => []
  end.

(** [arr.includes(s)] for a string [s]: strict comparison, so only string
    elements can match. *)
Definition includes (items : list value) (s : string) : bool :=
  existsb (fun v => match v with VString s' => String.eqb s' s | _ => false end) items.

(** [Array.prototype.join] on an array of strings and [undefined]s. *)
Definition join (sep : string) (l : list (option string)) : string :=
  String.concat sep (map (default "") l).

(** [String(v)].  An object is converted by its [toString] method and
    then its [valueOf] method.  A plain object inherits both from
    [Object.prototype], and the first gives [[object Object]]; but an own
    property [toString] hides the inherited method, and as no property of
    a [value] is a function, the conversion is then left with [valueOf],
    which gives no primitive value either way (the inherited one returns
    the object, an own one is no function).  An object without a prototype
    has neither method. *)
Fixpoint ToString (v : value) : completion string :=
  match v with
  | VUndefined => Normal "undefined"
  | VNull => Normal "null"
  | VBool b => Normal (if b then "true" else "false")
  | VNumber n | VBigInt n => Normal (pretty n)
  | VString s => Normal s
  | VArray items =>
      do parts <- (fix each (l : list value) : completion (list string) :=
                     match l with
                     | [] => Normal []
                     | x :: r =>
                         do s <- (if nullish x then Normal "" else ToString x);
                         do ss <- each r;
                         Normal (s :: ss)
                     end) items;
      Normal (String.concat "," parts)
  | VObject fields =>
      match assoc "toString" fields with
      | Some _ => Abrupt (TypeError "Cannot convert object to primitive value")
      | None => Normal "[object Object]"
      end
  | VBare _ => Abrupt (TypeError "Cannot convert object to primitive value")
  end.

Definition dquote : string := String "034"%char EmptyString.
Definition backslash : string := String "092"%char EmptyString.

Definition hexdigit (n : N) : string :=
  String (ascii_of_N (if (n <? 10)%N then 48 + n else 87 + n)%N) EmptyString.

(** One character of [QuoteJSONString]. *)
Definition quote_char (c : ascii) : string :=
  let n := N_of_ascii c in
  if (n =? 34)%N then backslash ++ dquote
  else if (n =? 92)%N then backslash ++ backslash
  else if (n =? 8)%N then backslash ++ "b"
  else if (n =? 9)%N then backslash ++ "t"
  else if (n =? 10)%N then backslash ++ "n"
  else if (n =? 12)%N then backslash ++ "f"
  else if (n =? 13)%N then backslash ++ "r"
  else if (n <? 32)%N then backslash ++ "u00" ++ hexdigit (n / 16) ++ hexdigit (n mod 16)
  else String c EmptyString.

Fixpoint quote_chars (s : string) : string :=
  match s with
  | EmptyString => EmptyString
  | String c r => quote_char c ++ quote_chars r
  end.

Definition quote (s : string) : string := dquote ++ quote_chars s ++ dquote.

(** [JSON.stringify(v)]: a string, [undefined] (here [None]), or a
    [TypeError] when a [BigInt] is reached. *)
Fixpoint stringify (v : value) : completion (option string) :=
  match v with
  | VUndefined => Normal None
  | VNull => Normal (Some "null")
  | VBool b => Normal (Some (if b then "true" else "false"))
  | VNumber n => Normal (Some (pretty n))
  | VBigInt _ => Abrupt (TypeError "Do not know how to serialize a BigInt")
  | VString s => Normal (Some (quote s))
  | VArray items =>
      do parts <- (fix each (l : list value) : completion (list string) :=
                     match l with
                     | [] => Normal []
                     | x :: r =>
                         do s <- stringify x;
                         do ss <- each r;
                         Normal (default "null" s :: ss)
                     end) items;
      Normal (Some ("[" ++ String.concat "," parts ++ "]"))
  | VObject fields | VBare fields =>
      do parts <- (fix each (l : list (string * value)) : completion (list string) :=
                     match l with
                     | [] => Normal []
                     | (k, x) :: r =>
                         do s <- stringify x;
                         do ss <- each r;
                         Normal (match s with
                                 | Some s => (quote k ++ ":" ++ s) :: ss
                                 | None => ss
                                 end)
                     end) fields;
      Normal (Some ("{" ++ String.concat "," parts ++ "}"))
  end.

(** A template literal's rendering of [JSON.stringify(v)]. *)
Definition template (s : option string) : string := default "undefined" s.

(** [err instanceof Error ? err.message : String(err)]. *)
Definition describe (err : thrown) : completion string :=
  match err with
  | ErrorObject message => Normal message
  | Raw v => ToString v
  end.

(** [s.split(sep)] for a separator of one character. *)
Fixpoint split (sep : ascii) (s : string) : list string :=
  match s with
  | EmptyString => [EmptyString]
  | String c rest =>
      if Ascii.eqb c sep then EmptyString :: split sep rest
      else match split sep rest with
           | seg :: segs => String c seg :: segs
           | [] => [String c EmptyString]
           end
  end.

(** Truth of a string: it is not empty. *)
Definition nonempty (s : string) : bool := negb (String.eqb s EmptyString).

Definition newline : string := String "010"%char EmptyString.

(** The closing step of [SerializeJSONArray] and [SerializeJSONObject]:
    [parts] between [opening] and [closing], on lines of their own when
    there is a gap. *)
Definition enclose (opening closing gap indent : string) (parts : list string) : string :=
  match parts with
  | [] => opening ++ closing
  | _ =>
      if String.eqb gap EmptyString
      then opening ++ String.concat "," parts ++ closing
      else
        let inner := indent ++ gap in
        opening ++ newline ++ inner
          ++ String.concat ("," ++ newline ++ inner) parts
          ++ newline ++ indent ++ closing
  end.

(** [JSON.stringify(v, null, gap)] at the indentation [indent]; the engine
    calls it with a gap of two spaces. *)
Fixpoint stringify_gap (gap indent : string) (v : value) : completion (option string) :=
  match v with
  | VUndefined => Normal None
  | VNull => Normal (Some "null")
  | VBool b => Normal (Some (if b then "true" else "false"))
  | VNumber n => Normal (Some (pretty n))
  | VBigInt _ => Abrupt (TypeError "Do not know how to serialize a BigInt")
  | VString s => Normal (Some (quote s))
  | VArray items =>
      do parts <- (fix each (l : list value) : completion (list string) :=
                     match l with
                     | [] => Normal []
                     | x :: r =>
                         do s <- stringify_gap gap (indent ++ gap) x;
                         do ss <- each r;
                         Normal (default "null" s :: ss)
                     end) items;
      Normal (Some (enclose "[" "]" gap indent parts))
  | VObject fields | VBare fields =>
      do parts <- (fix each (l : list (string * value)) : completion (list string) :=
                     match l with
                     | [] => Normal []
                     | (k, x) :: r =>
                         do s <- stringify_gap gap (indent ++ gap) x;
                         do ss <- each r;
                         Normal (match s with
                                 | Some s =>
                                     (quote k ++ ":"
                                      ++ (if String.eqb gap EmptyString then "" else " ")
                                      ++ s) :: ss
                                 | None => ss
                                 end)
                     end) fields;
      Normal (Some (enclose "{" "}" gap indent parts))
  end.

End JS.

(** [o[k] = a] on a plain object [o]: an own property keeps its place, a
    new one goes last; [__proto__] is the accessor of [Object.prototype],
    so assigning an object to it creates no own property. *)
Module Obj.

Fixpoint put {A : Type} (k : string) (a : A) (o : list (string * A)) : list (string * A) :=
  match o with
  | [] => [(k, a)]
  | (k', a') :: r => if String.eqb k' k then (k', a) :: r else (k', a') :: put k a r
  end.

Definition set {A : Type} (k : string) (a : A) (o : list (string * A)) : list (string * A) :=
  if String.eqb k "__proto__" then o else put k a o.

End Obj.

(** A plain object [{}] that is only ever assigned async functions, as
    the three namespaces of the engine are, in the strict mode of a
    module.  Its prototype is [Object.prototype] until a function is
    assigned to [__proto__]: the accessor inherited from
    [Object.prototype] then makes that function the prototype, and creates
    no own property.  Behind an async function as prototype stand
    [AsyncFunction.prototype], [Function.prototype] and
    [Object.prototype]. *)
Module Namespace.
Import JS.

Record t (F : Type) : Type := {
  own : gmap string F;
  proto : option F;
}.
Arguments own {F} _.
Arguments proto {F} _.

Definition empty {F : Type} : t F := {| own := ∅; proto := None |}.

Definition among (key : string) (names : list string) : bool :=
  existsb (String.eqb key) names.

(** What an object inherits without leave to write it, under an async
    function as prototype: the own properties [length] and [name] of the
    function, and the [constructor] of [AsyncFunction.prototype]. *)
Definition read_only : list string := ["constructor"; "length"; "name"].

(** The accessors of [Function.prototype] that throw on every access. *)
Definition restricted : list string := ["arguments"; "caller"].

(** The methods of [Function.prototype] and of [Object.prototype]. *)
Definition function_methods : list string :=
  ["apply"; "bind"; "call"; "constructor"; "toString"].

Definition object_methods : list string :=
  ["constructor"; "__defineGetter__"; "__defineSetter__"; "hasOwnProperty";
   "__lookupGetter__"; "__lookupSetter__"; "isPrototypeOf";
   "propertyIsEnumerable"; "toString"; "valueOf"; "toLocaleString"].

Definition frozen (key : string) : thrown :=
  TypeError ("Cannot assign to read only property '" ++ key
             ++ "' of object '[object AsyncFunction]'").

Definition poisoned : thrown :=
  TypeError "'caller', 'callee', and 'arguments' properties may not be accessed on strict mode functions or the arguments objects for calls to them".

(** [o[key] = f].  An own property is overwritten.  Otherwise the
    prototypes decide: [__proto__] finds the accessor; under a function
    as prototype, [constructor], [length] and [name] find properties that
    cannot be written, and [arguments] and [caller] find accessors that
    throw; every other inherited property is writable, and a new own
    property is created. *)
Definition assign {F : Type} (key : string) (f : F) (o : t F) : completion (t F) :=
  let defined := {| own := <[key := f]> (own o); proto := proto o |} in
  match own o !! key with
  | Some _ => Normal defined
  | None =>
      if String.eqb key "__proto__"
      then Normal {| own := own o; proto := Some f |}
      else
        match proto o with
        | Some _ =>
            if among key read_only then Abrupt (frozen key)
            else if among key restricted then Abrupt poisoned
            else Normal defined
        | None => Normal defined
        end
  end.

(** The loop [for (const a of l) { o[key(a)] = bound(a) }]. *)
Fixpoint assign_each {A F : Type} (key : A -> string) (bound : A -> F) (l : list A)
    (o : t F) : completion (t F) :=
  match l with
  | [] => Normal o
  | a :: rest =>
      do o <- assign (key a) (bound a) o;
      assign_each key bound rest o
  end.

(** [o[key]], when it is one of the functions assigned to [o]: an own
    property, or under [__proto__] the prototype. *)
Definition binding {F : Type} (o : t F) (key : string) : option F :=
  match own o !! key with
  | Some f => Some f
  | None => if String.eqb key "__proto__" then proto o else None
  end.

#[global] Instance lookup {F : Type} : Lookup string F (t F) :=
  fun key o => binding o key.

(** What a call [o[key](...)] finds to call. *)
Inductive slot (F : Type) : Type :=
| Bound (f : F)
| Inherited
| Broken (e : thrown).
Arguments Bound {F} f.
Arguments Inherited {F}.
Arguments Broken {F} e.

Definition not_a_function (namespace key : string) : thrown :=
  TypeError (namespace ++ "." ++ key ++ " is not a function").

(** [o[key]] as the callee of a call, for the object the script knows as
    [namespace]: a function assigned to [o]; a method [o] inherits from
    [Object.prototype] or, under a function as prototype, from
    [Function.prototype]; or nothing that can be called, because the
    property is not there or holds no function ([__proto__] under
    [Object.prototype], [length] and [name] under a function), or because
    reading it throws. *)
Definition resolve {F : Type} (namespace : string) (o : t F) (key : string) : slot F :=
  match binding o key with
  | Some f => Bound f
  | None =>
      match proto o with
      | Some _ =>
          if among key restricted then Broken poisoned
          else if among key function_methods || among key object_methods then Inherited
          else Broken (not_a_function namespace key)
      | None =>
          if among key object_methods then Inherited
          else Broken (not_a_function namespace key)
      end
  end.

End Namespace.

(* ===================================================================== *)
(** * The host: [@opencode-ai/sdk] at its interface *)
(* ===================================================================== *)

Module Host.
Import JS.

(** Body and query of [client.tool.execute]. *)
Module Body.
Record t : Type := {
  sessionID : string;
  messageID : string;
  providerID : string;
  modelID : option string;
  toolID : string;
  args : value;
  agent : string;
}.
End Body.

Module Request.
Record t : Type := {
  query_directory : option string;
  body : Body.t;
}.
End Request.

(** What the scripts see of an answer: [response.error] and
    [response.data?.output]. *)
Module Response.
Record t : Type := {
  error : value;
  output : option string;
}.
End Response.

(** The promise [client.tool.execute] returns: it fulfils or rejects after
    some milliseconds, or stays pending for ever. *)
Inductive answer : Type :=
| Fulfils (latency : N) (response : Response.t)
| Rejects (latency : N) (e : thrown)
| Silent.

Module ToolListItem.
Record t : Type := {
  id : string;
  description : option string;
  parameters : value;
}.
End ToolListItem.

Inductive AgentMode : Type := subagent | primary | all.

(** An agent of the host's registry; the listing reads three of its
    fields, [builtIn] and [prompt] stand for the others. *)
Module Agent.
Record t : Type := {
  name : string;
  description : option string;
  mode : AgentMode;
  builtIn : bool;
  prompt : option string;
}.
End Agent.

Module Listing.
Record t (A : Type) : Type := {
  error : value;
  data : option (list A);
}.
Arguments error {A} _.
Arguments data {A} _.
End Listing.

Module ToolQuery.
Record t : Type := {
  provider : string;
  model : string;
  directory : option string;
}.
End ToolQuery.

(** The client.  [tool_execute] answers a request knowing the requests
    sent before it. *)
Record Client : Type := {
  tool_list : ToolQuery.t -> completion (Listing.t ToolListItem.t);
  app_agents : completion (Listing.t Agent.t);
  tool_execute : list Request.t -> Request.t -> answer;
}.

(** The [config] part of the client: what is read of the answers of
    [client.config.get] ([response.error], [response.data?.model]) and of
    [client.config.providers] ([response.error],
    [response.data?.default], an object from provider to model). *)
Module ConfigResponse.
Record t : Type := {
  error : value;
  model : option string;
}.
End ConfigResponse.

Module ProvidersResponse.
Record t : Type := {
  error : value;
  defaults : option (list (string * value));
}.
End ProvidersResponse.

Record ConfigClient : Type := {
  config_get : option string -> completion ConfigResponse.t;
  config_providers : option string -> completion ProvidersResponse.t;
}.

End Host.

(* ===================================================================== *)
(** * [src/types.ts] *)
(* ===================================================================== *)

Module Types.
Import JS.

(** The fields the catalog builder copies from a schema by an unchecked
    cast hold whatever value the schema has at that place. *)
Module PTCParameter.
Record t : Type := {
  type : value;
  description : value;
  required : option bool;
  enum : value;
  items : value;
  properties : value;
}.
End PTCParameter.

Module PTCTool.
Record t : Type := {
  name : string;
  description : string;
  parameters : list (string * PTCParameter.t);
}.
End PTCTool.

Module PTCAgent.
Record t : Type := {
  name : string;
  description : option string;
  mode : Host.AgentMode;
}.
End PTCAgent.

Module PTCSkill.
Record t : Type := {
  name : string;
  description : string;
}.
End PTCSkill.

(** [modelID] is declared a [string]; it is an option here because the
    object [src/ptc-tool.ts] builds has no such property. *)
Module PTCContext.
Record t : Type := {
  sessionID : string;
  messageID : string;
  providerID : string;
  modelID : option string;
  agent : string;
  directory : option string;
  client : Host.Client;
}.
End PTCContext.

Module PTCToolCallRecord.
Record t : Type := {
  tool : string;
  args : value;
  result : option string;
  error : option string;
  duration : Z;
}.

Definition set_result (v : string) (r : t) : t :=
  {| tool := tool r; args := args r; result := Some v; error := error r;
     duration := duration r |}.

Definition set_error (v : string) (r : t) : t :=
  {| tool := tool r; args := args r; result := result r; error := Some v;
     duration := duration r |}.

Definition set_duration (v : Z) (r : t) : t :=
  {| tool := tool r; args := args r; result := result r; error := error r;
     duration := v |}.
End PTCToolCallRecord.

Module PTCExecutionResult.
Record t : Type := {
  success : bool;
  result : option value;
  error : option string;
  logs : list string;
  toolCalls : list PTCToolCallRecord.t;
}.
End PTCExecutionResult.

Module PTCExecutorOptions.
Record t : Type := {
  timeout : option Z;
  maxToolCalls : option Z;
}.
End PTCExecutorOptions.

End Types.

(* ===================================================================== *)
(** * The store of one execution and its promises *)
(* ===================================================================== *)

Module Loop.
Import JS Types.

(** What one [execute] shares with the bindings it generates and with the
    script: the clock [Date.now()] reads, the two arrays [logs] and
    [callRecords], and the requests the host has received. *)
Record world : Type := {
  now : Z;
  logs : list string;
  callRecords : list PTCToolCallRecord.t;
  wire : list Host.Request.t;
}.

Definition boot (clock : Z) : world :=
  {| now := clock; logs := []; callRecords := []; wire := [] |}.

Definition tick (ms : N) (w : world) : world :=
  {| now := now w + Z.of_N ms; logs := logs w; callRecords := callRecords w;
     wire := wire w |}.

Definition at_time (t : Z) (w : world) : world :=
  {| now := t; logs := logs w; callRecords := callRecords w; wire := wire w |}.

Definition send (q : Host.Request.t) (w : world) : world :=
  {| now := now w; logs := logs w; callRecords := callRecords w;
     wire := (wire w ++ [q])%list |}.

(** [callRecords.push(record)] *)
Definition push_record (r : PTCToolCallRecord.t) (w : world) : world :=
  {| now := now w; logs := logs w; callRecords := (callRecords w ++ [r])%list;
     wire := wire w |}.

(** [logs.push(line)] *)
Definition push_log (line : string) (w : world) : world :=
  {| now := now w; logs := (logs w ++ [line])%list; callRecords := callRecords w;
     wire := wire w |}.

Inductive settlement (A : Type) : Type :=
| Fulfilled (a : A)
| Rejected (e : thrown).
Arguments Fulfilled {A} a.
Arguments Rejected {A} e.

(** The promise an async function returns, seen from the store [w] it was
    called in.
    - [Immediate s w']: the body ran to its end without suspending;
    - [Suspends asleep ms s awake]: it suspended in store [asleep] on an
      answer that arrives [ms] later, and then ran to its end, leaving
      [awake];
    - [Stalls asleep]: it suspended on an answer that never arrives. *)
Inductive promise (A : Type) : Type :=
| Immediate (s : settlement A) (w' : world)
| Suspends (asleep : world) (ms : N) (s : settlement A) (awake : world)
| Stalls (asleep : world).
Arguments Immediate {A} s w'.
Arguments Suspends {A} asleep ms s awake.
Arguments Stalls {A} asleep.

(** The delay [setTimeout(f, ms)] arms its timer with, for an integral
    [ms]: [ms] itself from 1 to 2^31 - 1, and 1 otherwise. *)
Definition setTimeout_delay (ms : Z) : N :=
  if (1 <=? ms)%Z && (ms <=? 2147483647)%Z then Z.to_N ms else 1%N.

Definition PTCToolFunction : Type := value -> world -> promise string.
Definition PTCAgentFunction : Type := value -> world -> promise string.
Definition PTCSkillFunction : Type := world -> promise string.

End Loop.

(* ===================================================================== *)
(** * [src/generators.ts] *)
(* ===================================================================== *)

Module Generators.
Import JS Types Loop.

(** ** Catalog *)

(** The object literal of lines 73-80, for one entry of
    [schema.properties]. *)
Definition parameter (schema : value) (paramName : string) (paramDef : value)
  : completion PTCParameter.t :=
  let param := paramDef in
  do type <- get param "type";
  do description <- get param "description";
  let required :=
    match get_opt schema "required" with
    | VArray names => includes names paramName
    | _ => false
    end in
  do enum <- get param "enum";
  do items <- get param "items";
  do properties <- get param "properties";
  Normal {| PTCParameter.type := coalesce type (VString "string");
            PTCParameter.description := description;
            PTCParameter.required := Some required;
            PTCParameter.enum := if isArray enum then enum else VUndefined;
            PTCParameter.items := items;
            PTCParameter.properties := properties |}.

(** The inner loop, lines 71-81. *)
Fixpoint eachProperty (schema : value) (props : list (string * value))
    (parameters : list (string * PTCParameter.t))
  : completion (list (string * PTCParameter.t)) :=
  match props with
  | [] => Normal parameters
  | (paramName, paramDef) :: rest =>
      do p <- parameter schema paramName paramDef;
      eachProperty schema rest (Obj.set paramName p parameters)
  end.

(** Lines 68-82: the parameter mapping of one raw tool. *)
Definition toolParameters (schema : value) : completion (list (string * PTCParameter.t)) :=
  let parameters := [] in
  let properties := get_opt schema "properties" in
  if truthy properties && typeof_object properties
  then eachProperty schema (entries properties) parameters
  else Normal parameters.

(** The outer loop, lines 67-89. *)
Fixpoint eachTool (toolList : list Host.ToolListItem.t) (tools : list PTCTool.t)
  : completion (list PTCTool.t) :=
  match toolList with
  | [] => Normal tools
  | toolDef :: rest =>
      let schema := Host.ToolListItem.parameters toolDef in
      do parameters <- toolParameters schema;
      eachTool rest
        (tools ++ [ {| PTCTool.name := Host.ToolListItem.id toolDef;
                       PTCTool.description :=
                         default "" (Host.ToolListItem.description toolDef);
                       PTCTool.parameters := parameters |} ])
  end.

Definition fetchAvailableTools (client : Host.Client) (provider model : string)
    (directory : option string) : completion (list PTCTool.t) :=
  do response <- Host.tool_list client
                   {| Host.ToolQuery.provider := provider;
                      Host.ToolQuery.model := model;
                      Host.ToolQuery.directory := directory |};
  if truthy (Host.Listing.error response)
  then do s <- stringify (Host.Listing.error response);
       Abrupt (ErrorObject ("Failed to fetch tools: " ++ template s))
  else
    let toolList := default [] (Host.Listing.data response) in
    eachTool toolList [].

Definition is_primary (m : Host.AgentMode) : bool :=
  match m with
  | Host.primary => true
  | _ => false
  end.

Definition fetchAvailableAgents (client : Host.Client) : completion (list PTCAgent.t) :=
  do response <- Host.app_agents client;
  if truthy (Host.Listing.error response)
  then do s <- stringify (Host.Listing.error response);
       Abrupt (ErrorObject ("Failed to fetch agents: " ++ template s))
  else
    Normal
      (map (fun agent => {| PTCAgent.name := Host.Agent.name agent;
                            PTCAgent.description := Host.Agent.description agent;
                            PTCAgent.mode := Host.Agent.mode agent |})
         (List.filter (fun agent => negb (is_primary (Host.Agent.mode agent)))
            (default [] (Host.Listing.data response)))).

Definition fetchAvailableSkills (_client : Host.Client) : completion (list PTCSkill.t) :=
  Normal [].

(** ** Bindings *)

Definition createToolFunction (client : Host.Client) (tool : PTCTool.t)
    (context : PTCContext.t) : PTCToolFunction :=
  fun args w =>
    let startTime := now w in
    let record :=
      {| PTCToolCallRecord.tool := PTCTool.name tool;
         PTCToolCallRecord.args := args;
         PTCToolCallRecord.result := None;
         PTCToolCallRecord.error := None;
         PTCToolCallRecord.duration := 0 |} in
    let request :=
      {| Host.Request.query_directory := PTCContext.directory context;
         Host.Request.body :=
           {| Host.Body.sessionID := PTCContext.sessionID context;
              Host.Body.messageID := PTCContext.messageID context;
              Host.Body.providerID := PTCContext.providerID context;
              Host.Body.modelID := PTCContext.modelID context;
              Host.Body.toolID := PTCTool.name tool;
              Host.Body.args := args;
              Host.Body.agent := PTCContext.agent context |} |} in
    let asleep := send request w in
    let settle (ms : N) (awaited : completion Host.Response.t) : promise string :=
      let awake := tick ms asleep in
      (* try *)
      let tried : completion string * PTCToolCallRecord.t :=
        match awaited with
        | Abrupt e => (Abrupt e, record)
        | Normal response =>
            if truthy (Host.Response.error response)
            then (do s <- stringify (Host.Response.error response);
                  Abrupt (ErrorObject ("Tool execute failed: " ++ template s)),
                  record)
            else
              let output := default "" (Host.Response.output response) in
              (Normal output, PTCToolCallRecord.set_result output record)
        end in
      (* catch *)
      let caught : settlement string * PTCToolCallRecord.t :=
        match tried with
        | (Normal output, record) => (Fulfilled output, record)
        | (Abrupt err, record) =>
            match describe err with
            | Normal message => (Rejected err, PTCToolCallRecord.set_error message record)
            | Abrupt err' => (Rejected err', record)
            end
        end in
      (* finally *)
      let record := PTCToolCallRecord.set_duration (now awake - startTime) (snd caught) in
      Suspends asleep ms (fst caught) (push_record record awake) in
    match Host.tool_execute client (wire w) request with
    | Host.Fulfils ms response => settle ms (Normal response)
    | Host.Rejects ms e => settle ms (Abrupt e)
    | Host.Silent => Stalls asleep
    end.

Definition createAgentFunction (_client : Host.Client) (agent : PTCAgent.t)
    (_context : PTCContext.t) : PTCAgentFunction :=
  fun prompt w =>
    let startTime := now w in
    let record :=
      {| PTCToolCallRecord.tool := "agent:" ++ PTCAgent.name agent;
         PTCToolCallRecord.args := VObject [("prompt", prompt)];
         PTCToolCallRecord.result := None;
         PTCToolCallRecord.error := None;
         PTCToolCallRecord.duration := 0 |} in
    (* try *)
    let record :=
      PTCToolCallRecord.set_error
        "Agent calls are not yet supported in direct execution mode" record in
    let err :=
      ErrorObject
        "Agent calls are not yet supported. Use the 'task' tool directly for agent invocation." in
    (* finally *)
    let record := PTCToolCallRecord.set_duration (now w - startTime) record in
    Immediate (Rejected err) (push_record record w).

Definition createSkillFunction (_client : Host.Client) (skill : PTCSkill.t)
    (_context : PTCContext.t) : PTCSkillFunction :=
  fun w =>
    let startTime := now w in
    let record :=
      {| PTCToolCallRecord.tool := "skill:" ++ PTCSkill.name skill;
         PTCToolCallRecord.args := VObject [];
         PTCToolCallRecord.result := None;
         PTCToolCallRecord.error := None;
         PTCToolCallRecord.duration := 0 |} in
    (* try *)
    let record :=
      PTCToolCallRecord.set_error
        "Skill calls are not yet supported in direct execution mode" record in
    let err :=
      ErrorObject "Skill calls are not yet supported. Use the 'skill' tool directly." in
    (* finally *)
    let record := PTCToolCallRecord.set_duration (now w - startTime) record in
    Immediate (Rejected err) (push_record record w).

(** ** Signatures *)

(** [/[^a-zA-Z0-9_]/] *)
Definition word_char (c : ascii) : bool :=
  let n := N_of_ascii c in
  ((97 <=? n) && (n <=? 122) || (65 <=? n) && (n <=? 90)
   || (48 <=? n) && (n <=? 57) || (n =? 95))%N.

Fixpoint sanitizeName (name : string) : string :=
  match name with
  | EmptyString => EmptyString
  | String c rest => String (if word_char c then c else "_"%char) (sanitizeName rest)
  end.

Definition mapTypeToTS (type : value) : string :=
  match type with
  | VString s =>
      if String.eqb s "string" then "string"
      else if String.eqb s "number" || String.eqb s "integer" then "number"
      else if String.eqb s "boolean" then "boolean"
      else if String.eqb s "array" then "unknown[]"
      else if String.eqb s "object" then "Record<string, unknown>"
      else "unknown"
  | _ => "unknown"
  end.

(** One element of [params], line 216. *)
Definition param_signature (entry : string * PTCParameter.t) : string :=
  let '(name, param) := entry in
  name ++ (if default false (PTCParameter.required param) then "" else "?")
       ++ ": " ++ mapTypeToTS (PTCParameter.type param).

Definition tool_lines (tool : PTCTool.t) : list string :=
  let params := String.concat ", " (map param_signature (PTCTool.parameters tool)) in
  [ "// " ++ PTCTool.description tool;
    "async function " ++ sanitizeName (PTCTool.name tool)
      ++ "(args: { " ++ params ++ " }): Promise<string>";
    "" ].

Definition agent_lines (agent : PTCAgent.t) : list string :=
  [ "// " ++ default "No description" (PTCAgent.description agent);
    "// agents." ++ sanitizeName (PTCAgent.name agent) ++ " - not directly callable";
    "" ].

Definition skill_lines (skill : PTCSkill.t) : list string :=
  [ "// " ++ PTCSkill.description skill;
    "// skills." ++ sanitizeName (PTCSkill.name skill) ++ " - not directly callable";
    "" ].

(** The array [lines] just before it is joined. *)
Definition signature_lines (tools : list PTCTool.t) (agents : list PTCAgent.t)
    (skills : list PTCSkill.t) : list string :=
  (let lines := [ "// Available Tools"; "" ] in
   let lines := lines ++ concat (map tool_lines tools) in
   let lines := lines ++
     [ "// Available Agents (listing only - use 'task' tool for invocation)"; "" ] in
   let lines := lines ++ concat (map agent_lines agents) in
   let lines :=
     if (0 <? length skills)%nat
     then lines ++
          [ "// Available Skills (listing only - use 'skill' tool for invocation)"; "" ]
          ++ concat (map skill_lines skills)
     else lines in
   lines)%list.

Definition LF : string := String "010"%char EmptyString.

Definition generateFunctionSignatures (tools : list PTCTool.t) (agents : list PTCAgent.t)
    (skills : list PTCSkill.t) : string :=
  String.concat LF (signature_lines tools agents skills).

(** ** Default model *)

Module Model.
Record t : Type := {
  providerID : string;
  modelID : string;
}.
End Model.

Definition no_default_model : thrown :=
  ErrorObject "No default model configured. Set config.model in opencode.json.".

(** Lines 27-32: [config.model], when it is there, split at the slashes. *)
Definition model_of_config (model : option string) : option Model.t :=
  match model with
  | Some model =>
      if nonempty model
      then match split "/"%char model with
           | providerID :: modelID :: _ =>
               if nonempty providerID && nonempty modelID
               then Some {| Model.providerID := providerID; Model.modelID := modelID |}
               else None
           | _ => None
           end
      else None
  | None => None
  end.

Definition resolveDefaultModel (config : Host.ConfigClient) (directory : option string)
  : completion Model.t :=
  do configResponse <- Host.config_get config directory;
  if truthy (Host.ConfigResponse.error configResponse)
  then do s <- stringify (Host.ConfigResponse.error configResponse);
       Abrupt (ErrorObject ("Failed to fetch config: " ++ template s))
  else
    match model_of_config (Host.ConfigResponse.model configResponse) with
    | Some resolved => Normal resolved
    | None =>
        do providersResponse <- Host.config_providers config directory;
        if truthy (Host.ProvidersResponse.error providersResponse)
        then do s <- stringify (Host.ProvidersResponse.error providersResponse);
             Abrupt (ErrorObject ("Failed to fetch providers: " ++ template s))
        else
          let entries := default [] (Host.ProvidersResponse.defaults providersResponse) in
          match entries with
          | (providerID, VString modelID) :: _ =>
              if nonempty providerID
              then Normal {| Model.providerID := providerID; Model.modelID := modelID |}
              else Abrupt no_default_model
          | _ => Abrupt no_default_model
          end
    end.

End Generators.

(* ===================================================================== *)
(** * [src/runtime.ts] *)
(* ===================================================================== *)

Module Runtime.
Import JS Types Loop.

Definition DEFAULT_TIMEOUT : Z := 300000.
Definition DEFAULT_MAX_TOOL_CALLS : Z := 100.

(** [Required<PTCExecutorOptions>] *)
Module Options.
Record t : Type := {
  timeout : Z;
  maxToolCalls : Z;
}.
End Options.

Record PTCExecutor : Type := {
  client : Host.Client;
  tools : list PTCTool.t;
  agents : list PTCAgent.t;
  skills : list PTCSkill.t;
  options : Options.t;
}.

Definition constructor (client : Host.Client) (tools : list PTCTool.t)
    (agents : list PTCAgent.t) (skills : list PTCSkill.t)
    (options : option PTCExecutorOptions.t) : PTCExecutor :=
  let options :=
    default {| PTCExecutorOptions.timeout := None;
               PTCExecutorOptions.maxToolCalls := None |} options in
  {| client := client;
     tools := tools;
     agents := agents;
     skills := skills;
     options :=
       {| Options.timeout :=
            default DEFAULT_TIMEOUT (PTCExecutorOptions.timeout options);
          Options.maxToolCalls :=
            default DEFAULT_MAX_TOOL_CALLS (PTCExecutorOptions.maxToolCalls options) |} |}.

Definition createExecutor := constructor.

(** [/[^a-zA-Z0-9_]/] *)
Definition word_char (c : ascii) : bool :=
  let n := N_of_ascii c in
  ((97 <=? n) && (n <=? 122) || (65 <=? n) && (n <=? 90)
   || (48 <=? n) && (n <=? 57) || (n =? 95))%N.

Fixpoint sanitizeName (name : string) : string :=
  match name with
  | EmptyString => EmptyString
  | String c rest => String (if word_char c then c else "_"%char) (sanitizeName rest)
  end.

(** [args.map(arg => typeof arg === "string" ? arg : JSON.stringify(arg))] *)
Fixpoint log_parts (args : list value) : completion (list (option string)) :=
  match args with
  | [] => Normal []
  | arg :: rest =>
      do part <- match arg with
                 | VString s => Normal (Some s)
                 | _ => stringify arg
                 end;
      do parts <- log_parts rest;
      Normal (part :: parts)
  end.

(** The closure [runtime.log], lines 94-98. *)
Definition log (args : list value) (w : world) : completion world :=
  do parts <- log_parts args;
  Normal (push_log (join " " parts) w).

Record PTCRuntime : Type := {
  rt_tools : Namespace.t PTCToolFunction;
  rt_agents : Namespace.t PTCAgentFunction;
  rt_skills : Namespace.t PTCSkillFunction;
  rt_log : list value -> world -> completion world;
  rt_context : PTCContext.t;
}.

(** ** Submitted code

    The body of the async function the engine compiles, by what it does
    with its five parameters: a script calls the logging function and the
    bindings, one call at a time, and awaits each call before it goes on.
    Continuations receive what the script's own [try]/[catch] would see.
    - [Return v], [Throw e]: the body ends;
    - [CallLog args k]: [log(...args)];
    - [AwaitTool key args k]: [await tools[key](args)], and likewise for
      agents and skills;
    - [Sleep ms k]: [await new Promise(r => setTimeout(r, ms))];
    - [Work ms k]: a synchronous computation that takes [ms] milliseconds;
    - [Never]: [await new Promise(() => {})];
    - [Spin]: [while (true) {}], which never gives the thread back. *)
Inductive script : Type :=
| Return (v : value)
| Throw (e : thrown)
| CallLog (args : list value) (k : option thrown -> script)
| AwaitTool (key : string) (args : value) (k : settlement string -> script)
| AwaitAgent (key : string) (prompt : value) (k : settlement string -> script)
| AwaitSkill (key : string) (k : settlement string -> script)
| Sleep (ms : Z) (k : script)
| Work (ms : N) (k : script)
| Never
| Spin.

(** A code string, by what [new AsyncFunction(..., wrappedCode)] makes of
    it: a [SyntaxError], or a function with the body it denotes. *)
Inductive code : Type :=
| Malformed (message : string)
| Program (body : script).

(** Where a run of a script stands when nothing more can happen to it:
    - [Settled s w]: its promise settled with [s], in store [w];
    - [TimerFires w]: the deadline timer ran first (the script is still
      suspended and is not resumed here);
    - [Dormant w]: no timer, and the script waits for ever;
    - [Blocked w]: the script holds the thread for ever;
    - [Foreign w]: the script has called a method its namespace inherits
      from [Object.prototype] or [Function.prototype]; what such a method
      does lies outside this embedding, and the run is followed no
      further. *)
Inductive outcome : Type :=
| Settled (s : settlement value) (w : world)
| TimerFires (w : world)
| Dormant (w : world)
| Blocked (w : world)
| Foreign (w : world).

(** An [await] under an armed timer.  A promise that is settled already
    resumes the script in a microtask, before any timer.  Otherwise the
    thread is free until the answer is there: the continuation runs when
    the answer comes before the deadline, and the timer's callback when it
    does not (the timer, armed before the script started, goes first on a
    tie); the callback runs at the deadline, or at once when the deadline
    passed while the script held the thread. *)
Definition await {A : Type} (deadline : option Z) (p : promise A)
    (k : settlement A -> world -> outcome) : outcome :=
  match p with
  | Immediate s w' => k s w'
  | Suspends asleep ms s awake =>
      match deadline with
      | Some d =>
          if (d <=? now asleep + Z.of_N ms)%Z
          then TimerFires (at_time (Z.max d (now asleep)) asleep)
          else k s awake
      | None => k s awake
      end
  | Stalls asleep =>
      match deadline with
      | Some d => TimerFires (at_time (Z.max d (now asleep)) asleep)
      | None => Dormant asleep
      end
  end.

(** [await o[key](...)] *)
Definition call {F A : Type} (namespace : string) (o : Namespace.t F) (key : string)
    (deadline : option Z) (w : world) (apply : F -> promise A)
    (k : settlement A -> world -> outcome) : outcome :=
  match Namespace.resolve namespace o key with
  | Namespace.Bound f => await deadline (apply f) k
  | Namespace.Inherited => Foreign w
  | Namespace.Broken e => k (Rejected e) w
  end.

Fixpoint run (runtime : PTCRuntime) (deadline : option Z) (fn : script) (w : world)
  : outcome :=
  match fn with
  | Return v => Settled (Fulfilled v) w
  | Throw e => Settled (Rejected e) w
  | CallLog args k =>
      match rt_log runtime args w with
      | Normal w' => run runtime deadline (k None) w'
      | Abrupt e => run runtime deadline (k (Some e)) w
      end
  | AwaitTool key args k =>
      call "tools" (rt_tools runtime) key deadline w (fun f => f args w)
        (fun s w' => run runtime deadline (k s) w')
  | AwaitAgent key prompt k =>
      call "agents" (rt_agents runtime) key deadline w (fun f => f prompt w)
        (fun s w' => run runtime deadline (k s) w')
  | AwaitSkill key k =>
      call "skills" (rt_skills runtime) key deadline w (fun f => f w)
        (fun s w' => run runtime deadline (k s) w')
  | Sleep ms k =>
      let ms := setTimeout_delay ms in
      await deadline (Suspends w ms (Fulfilled tt) (tick ms w))
        (fun _ w' => run runtime deadline k w')
  | Work ms k => run runtime deadline k (tick ms w)
  | Never => await deadline (@Stalls unit w) (fun _ w' => Settled (Fulfilled VUndefined) w')
  | Spin => Blocked w
  end.

Definition timed_out (timeout : Z) : thrown :=
  ErrorObject ("Execution timed out after " ++ pretty timeout ++ "ms").

(** The promise of [executeWithTimeout]: the race of the script against a
    timer armed just before the script starts. *)
Definition executeWithTimeout (self : PTCExecutor) (code : code) (runtime : PTCRuntime)
    (w : world) : outcome :=
  match code with
  | Malformed message => Settled (Rejected (SyntaxError message)) w
  | Program fn =>
      let timeout := Options.timeout (options self) in
      let deadline := (now w + Z.of_N (setTimeout_delay timeout))%Z in
      match run runtime (Some deadline) fn w with
      | TimerFires w' => Settled (Rejected (timed_out timeout)) w'
      | raced => raced
      end
  end.

(** What the caller of [execute] gets: a result, an exception, or nothing
    at all; [Unfollowed] when the run was followed no further. *)
Inductive returned : Type :=
| Returns (r : PTCExecutionResult.t)
| Raises (e : thrown)
| NeverReturns
| Unfollowed.

(** The three loops of lines 57-88. *)
Definition toolFunctions (self : PTCExecutor) (context : PTCContext.t)
  : completion (Namespace.t PTCToolFunction) :=
  Namespace.assign_each
    (fun tool => sanitizeName (PTCTool.name tool))
    (fun tool => Generators.createToolFunction (client self) tool context)
    (tools self) Namespace.empty.

Definition agentFunctions (self : PTCExecutor) (context : PTCContext.t)
  : completion (Namespace.t PTCAgentFunction) :=
  Namespace.assign_each
    (fun agent => sanitizeName (PTCAgent.name agent))
    (fun agent => Generators.createAgentFunction (client self) agent context)
    (agents self) Namespace.empty.

Definition skillFunctions (self : PTCExecutor) (context : PTCContext.t)
  : completion (Namespace.t PTCSkillFunction) :=
  Namespace.assign_each
    (fun skill => sanitizeName (PTCSkill.name skill))
    (fun skill => Generators.createSkillFunction (client self) skill context)
    (skills self) Namespace.empty.

(** Lines 57-100: the namespaces, then the object [runtime]. *)
Definition runtime_of (self : PTCExecutor) (context : PTCContext.t)
  : completion PTCRuntime :=
  do toolFunctions <- toolFunctions self context;
  do agentFunctions <- agentFunctions self context;
  do skillFunctions <- skillFunctions self context;
  Normal {| rt_tools := toolFunctions;
            rt_agents := agentFunctions;
            rt_skills := skillFunctions;
            rt_log := log;
            rt_context := context |}.

(** [execute], called when the clock reads [clock].  The namespaces are
    built outside the [try] block: what building them throws, [execute]
    throws. *)
Definition execute (self : PTCExecutor) (code : code) (context : PTCContext.t)
    (clock : Z) : returned :=
  let w := boot clock in
  match runtime_of self context with
  | Abrupt e => Raises e
  | Normal runtime =>
      match executeWithTimeout self code runtime w with
      | Settled (Fulfilled result) w' =>
          Returns {| PTCExecutionResult.success := true;
                     PTCExecutionResult.result := Some result;
                     PTCExecutionResult.error := None;
                     PTCExecutionResult.logs := logs w';
                     PTCExecutionResult.toolCalls := callRecords w' |}
      | Settled (Rejected err) w' =>
          match describe err with
          | Normal message =>
              Returns {| PTCExecutionResult.success := false;
                         PTCExecutionResult.result := None;
                         PTCExecutionResult.error := Some message;
                         PTCExecutionResult.logs := logs w';
                         PTCExecutionResult.toolCalls := callRecords w' |}
          | Abrupt e => Raises e
          end
      | TimerFires _ | Dormant _ | Blocked _ => NeverReturns
      | Foreign _ => Unfollowed
      end
  end.

End Runtime.

(* ===================================================================== *)
(** * [src/ptc-tool.ts] *)
(* ===================================================================== *)

Module PtcTool.
Import JS Types Loop.

(** What the plugin host hands to a tool's [execute]. *)
Module ToolContext.
Record t : Type := {
  sessionID : string;
  messageID : string;
  agent : string;
}.
End ToolContext.

(** Lines 67-73, with [providerID] and [modelID] as
    [resolveDefaultModel] gave them. *)
Definition ptcContext (client : Host.Client) (ctx : ToolContext.t)
    (providerID modelID : string) : PTCContext.t :=
  {| PTCContext.sessionID := ToolContext.sessionID ctx;
     PTCContext.messageID := ToolContext.messageID ctx;
     PTCContext.providerID := providerID;
     PTCContext.modelID := None;
     PTCContext.agent := ToolContext.agent ctx;
     PTCContext.directory := None;
     PTCContext.client := client |}.

(** Lines 61-76 of [ptc_execute]: catalog, context, engine. *)
Definition execute_code (client : Host.Client) (code : Runtime.code) (ctx : ToolContext.t)
    (providerID modelID : string) (clock : Z) : completion Runtime.returned :=
  do tools <- Generators.fetchAvailableTools client providerID modelID None;
  do agents <- Generators.fetchAvailableAgents client;
  do skills <- Generators.fetchAvailableSkills client;
  let ptcContext := ptcContext client ctx providerID modelID in
  let executor := Runtime.createExecutor client tools agents skills None in
  Normal (Runtime.execute executor code ptcContext clock).

(** ** The report, lines 78-103 *)

(** One line of the call trace, line 89-90. *)
Definition call_line (call : PTCToolCallRecord.t) : completion string :=
  let status :=
    match PTCToolCallRecord.error call with
    | Some error => if nonempty error then "ERROR: " ++ error else "OK"
    | None => "OK"
    end in
  do args <- stringify (PTCToolCallRecord.args call);
  Normal ("- " ++ PTCToolCallRecord.tool call ++ "(" ++ template args ++ ") ["
          ++ pretty (PTCToolCallRecord.duration call) ++ "ms] " ++ status).

(** The loop of lines 88-91. *)
Fixpoint call_lines (calls : list PTCToolCallRecord.t) (output : list (option string))
  : completion (list (option string)) :=
  match calls with
  | [] => Normal output
  | call :: rest =>
      do line <- call_line call;
      call_lines rest (output ++ [Some line])%list
  end.

(** The array [output] just before it is joined. *)
Definition report_lines (result : PTCExecutionResult.t) : completion (list (option string)) :=
  let output : list (option string) := [] in
  let output :=
    if (0 <? length (PTCExecutionResult.logs result))%nat
    then (output ++ [Some "=== Logs ==="] ++ map Some (PTCExecutionResult.logs result)
          ++ [Some ""])%list
    else output in
  do output <-
    (if (0 <? length (PTCExecutionResult.toolCalls result))%nat
     then do output <- call_lines (PTCExecutionResult.toolCalls result)
                         (output ++ [Some "=== Tool Calls ==="])%list;
          Normal (output ++ [Some ""])%list
     else Normal output);
  if PTCExecutionResult.success result
  then
    do shown <- match PTCExecutionResult.result result with
                | None | Some VUndefined => Normal (Some "(no return value)")
                | Some v => stringify_gap "  " "" v
                end;
    Normal (output ++ [Some "=== Result ==="; shown])%list
  else
    Normal (output ++ [Some "=== Error ===";
                       Some (default "Unknown error" (PTCExecutionResult.error result))])%list.

Definition report (result : PTCExecutionResult.t) : completion string :=
  do output <- report_lines result;
  Normal (join newline output).

End PtcTool.

(* ===================================================================== *)
(** * Inputs used in examples *)
(* ===================================================================== *)

Module Fixtures.
Import JS Types Loop.

Definition fileSlash : PTCTool.t :=
  {| PTCTool.name := "file/read"; PTCTool.description := "first"; PTCTool.parameters := [] |}.

Definition fileColon : PTCTool.t :=
  {| PTCTool.name := "file:read"; PTCTool.description := "second"; PTCTool.parameters := [] |}.

Definition reviewDash : PTCAgent.t :=
  {| PTCAgent.name := "code-review"; PTCAgent.description := None;
     PTCAgent.mode := Host.subagent |}.

Definition reviewDot : PTCAgent.t :=
  {| PTCAgent.name := "code.review"; PTCAgent.description := Some "reviews";
     PTCAgent.mode := Host.all |}.

Definition pdfA : PTCSkill.t :=
  {| PTCSkill.name := "pdf tools"; PTCSkill.description := "a" |}.

Definition pdfB : PTCSkill.t :=
  {| PTCSkill.name := "pdf+tools"; PTCSkill.description := "b" |}.

(** A host that answers every call after 5 ms with the output [ok]. *)
Definition steady : Host.Client :=
  {| Host.tool_list := fun _ =>
       Normal {| Host.Listing.error := VUndefined; Host.Listing.data := Some [] |};
     Host.app_agents :=
       Normal {| Host.Listing.error := VUndefined; Host.Listing.data := Some [] |};
     Host.tool_execute := fun _ _ =>
       Host.Fulfils 5 {| Host.Response.error := VUndefined;
                         Host.Response.output := Some "ok" |} |}.

Definition session : PTCContext.t :=
  {| PTCContext.sessionID := "ses_1";
     PTCContext.messageID := "msg_1";
     PTCContext.providerID := "anthropic";
     PTCContext.modelID := Some "sonnet";
     PTCContext.agent := "build";
     PTCContext.directory := None;
     PTCContext.client := steady |}.

(** [{ properties: { filePath: { type: "string" }, limit: {} },
       required: ["filePath"] }] *)
Definition read_schema : value :=
  VObject [("properties",
            VObject [("filePath", VObject [("type", VString "string")]);
                     ("limit", VObject [])]);
           ("required", VArray [VString "filePath"])].

Definition registry : Host.Client :=
  {| Host.tool_list := fun _ =>
       Normal {| Host.Listing.error := VUndefined;
                 Host.Listing.data :=
                   Some [ {| Host.ToolListItem.id := "read";
                             Host.ToolListItem.description := Some "Read a file";
                             Host.ToolListItem.parameters := read_schema |} ] |};
     Host.app_agents :=
       Normal {| Host.Listing.error := VNull;
                 Host.Listing.data :=
                   Some [ {| Host.Agent.name := "build";
                             Host.Agent.description := None;
                             Host.Agent.mode := Host.primary;
                             Host.Agent.builtIn := true;
                             Host.Agent.prompt := None |};
                          {| Host.Agent.name := "explore";
                             Host.Agent.description := Some "Explores the code";
                             Host.Agent.mode := Host.subagent;
                             Host.Agent.builtIn := true;
                             Host.Agent.prompt := Some "You explore." |} ] |};
     Host.tool_execute := Host.tool_execute steady |}.

Definition plain : Runtime.PTCExecutor :=
  Runtime.createExecutor steady [] [] [] None.

(** A host whose every answer, after 5 ms, is the error [404]. *)
Definition failing : Host.Client :=
  {| Host.tool_list := Host.tool_list steady;
     Host.app_agents := Host.app_agents steady;
     Host.tool_execute := fun _ _ =>
       Host.Fulfils 5 {| Host.Response.error := VNumber 404;
                         Host.Response.output := None |} |}.

Definition read : PTCTool.t :=
  {| PTCTool.name := "read"; PTCTool.description := "Read a file";
     PTCTool.parameters := [] |}.

Definition path : value := VObject [("filePath", VString "a.ts")].

Definition rethrow (k : string -> Runtime.script) (s : settlement string)
  : Runtime.script :=
  match s with
  | Fulfilled output => k output
  | Rejected e => Runtime.Throw e
  end.

Definition proceed (k : Runtime.script) (threw : option thrown) : Runtime.script :=
  match threw with
  | None => k
  | Some e => Runtime.Throw e
  end.

(** [log("start"); return await tools.read({ filePath: "a.ts" })] *)
Definition log_then_read : Runtime.script :=
  Runtime.CallLog [VString "start"]
    (proceed (Runtime.AwaitTool "read" path
                (rethrow (fun output => Runtime.Return (VString output))))).

(** [throw Object.create(null)] *)
Definition throw_bare : Runtime.script := Runtime.Throw (Raw (VBare [])).

(** [log("n =", 10n)] *)
Definition log_bigint : Runtime.script :=
  Runtime.CallLog [VString "n ="; VBigInt 10] (proceed (Runtime.Return VUndefined)).

(** [return 1 + 1] *)
Definition return_two : Runtime.script := Runtime.Return (VNumber 2).

Definition reader (client : Host.Client) (timeout : option Z) : Runtime.PTCExecutor :=
  Runtime.createExecutor client [read] [] []
    (Some {| PTCExecutorOptions.timeout := timeout;
             PTCExecutorOptions.maxToolCalls := None |}).

Definition colliding : Runtime.PTCExecutor :=
  Runtime.createExecutor steady [fileSlash; fileColon] [reviewDash; reviewDot]
    [pdfA; pdfB] None.

(** [{ type: "string", required: true }] *)
Definition required_string : PTCParameter.t :=
  {| PTCParameter.type := VString "string";
     PTCParameter.description := VUndefined;
     PTCParameter.required := Some true;
     PTCParameter.enum := VUndefined;
     PTCParameter.items := VUndefined;
     PTCParameter.properties := VUndefined |}.

(** What the plugin host passes to [ptc_execute]. *)
Definition turn : PtcTool.ToolContext.t :=
  {| PtcTool.ToolContext.sessionID := "ses_1";
     PtcTool.ToolContext.messageID := "msg_1";
     PtcTool.ToolContext.agent := "build" |}.

End Fixtures.

(* ===================================================================== *)
(** * Vocabulary of the properties *)
(* ===================================================================== *)

Module Spec.
Import JS Types Loop.
Local Open Scope list_scope.

(** The characters of the class [[A-Za-z0-9_]]. *)
Definition word_chars : string :=
  "abcdefghijklmnopqrstuvwxyzABCDEFGHIJKLMNOPQRSTUVWXYZ0123456789_".

(** The request a tool binding owes the host for a call with [args]:
    the identifiers of the execution context, the tool's own name, and
    the arguments. *)
Definition owed_request (context : PTCContext.t) (tool : PTCTool.t) (args : value)
  : Host.Request.t :=
  {| Host.Request.query_directory := PTCContext.directory context;
     Host.Request.body :=
       {| Host.Body.sessionID := PTCContext.sessionID context;
          Host.Body.messageID := PTCContext.messageID context;
          Host.Body.providerID := PTCContext.providerID context;
          Host.Body.modelID := PTCContext.modelID context;
          Host.Body.toolID := PTCTool.name tool;
          Host.Body.args := args;
          Host.Body.agent := PTCContext.agent context |} |}.

(** [w'] is [w] with the one record [r] pushed on [callRecords]. *)
Definition one_more_record (w w' : world) (r : PTCToolCallRecord.t) : Prop :=
  callRecords w' = callRecords w ++ [r] /\ logs w' = logs w.

(** The thread is held for ever: nothing runs any more, the timer's
    callback included. *)
Definition holds_thread (o : Runtime.outcome) : bool :=
  match o with
  | Runtime.Blocked _ => true
  | _ => false
  end.

(** The run was followed to its end. *)
Definition followed (o : Runtime.outcome) : bool :=
  match o with
  | Runtime.Foreign _ => false
  | _ => true
  end.

(** A script without an endless synchronous loop on any of its paths. *)
Inductive gives_way : Runtime.script -> Prop :=
| gives_way_Return v : gives_way (Runtime.Return v)
| gives_way_Throw e : gives_way (Runtime.Throw e)
| gives_way_CallLog args k :
    (forall threw, gives_way (k threw)) -> gives_way (Runtime.CallLog args k)
| gives_way_AwaitTool key args k :
    (forall s, gives_way (k s)) -> gives_way (Runtime.AwaitTool key args k)
| gives_way_AwaitAgent key prompt k :
    (forall s, gives_way (k s)) -> gives_way (Runtime.AwaitAgent key prompt k)
| gives_way_AwaitSkill key k :
    (forall s, gives_way (k s)) -> gives_way (Runtime.AwaitSkill key k)
| gives_way_Sleep ms k : gives_way k -> gives_way (Runtime.Sleep ms k)
| gives_way_Work ms k : gives_way k -> gives_way (Runtime.Work ms k)
| gives_way_Never : gives_way Runtime.Never.

(** [err] is an [Error], or a value [String] converts. *)
Definition describable (err : thrown) : bool :=
  match describe err with
  | Normal _ => true
  | Abrupt _ => false
  end.

Definition plain_rejection (o : Runtime.outcome) : bool :=
  match o with
  | Runtime.Settled (Rejected err) _ => describable err
  | _ => true
  end.

(** A run left to itself is over before [deadline]: by then it has
    settled, or taken the thread for good, or left the embedding. *)
Definition over_before (deadline : Z) (o : Runtime.outcome) : bool :=
  match o with
  | Runtime.Settled _ w | Runtime.Blocked w | Runtime.Foreign w => (now w <? deadline)%Z
  | Runtime.Dormant _ | Runtime.TimerFires _ => false
  end.

(** A script that spends no time computing: its clock moves only while it
    awaits. *)
Inductive waits_only : Runtime.script -> Prop :=
| waits_only_Return v : waits_only (Runtime.Return v)
| waits_only_Throw e : waits_only (Runtime.Throw e)
| waits_only_CallLog args k :
    (forall threw, waits_only (k threw)) -> waits_only (Runtime.CallLog args k)
| waits_only_AwaitTool key args k :
    (forall s, waits_only (k s)) -> waits_only (Runtime.AwaitTool key args k)
| waits_only_AwaitAgent key prompt k :
    (forall s, waits_only (k s)) -> waits_only (Runtime.AwaitAgent key prompt k)
| waits_only_AwaitSkill key k :
    (forall s, waits_only (k s)) -> waits_only (Runtime.AwaitSkill key k)
| waits_only_Sleep ms k : waits_only k -> waits_only (Runtime.Sleep ms k)
| waits_only_Never : waits_only Runtime.Never
| waits_only_Spin : waits_only Runtime.Spin.

Definition last_store (o : Runtime.outcome) : world :=
  match o with
  | Runtime.Settled _ w | Runtime.TimerFires w | Runtime.Dormant w
  | Runtime.Blocked w | Runtime.Foreign w => w
  end.

Definition timer_fired (o : Runtime.outcome) : bool :=
  match o with
  | Runtime.TimerFires _ => true
  | _ => false
  end.

Definition contains (part whole : string) : Prop :=
  exists before after, whole = (before ++ part ++ after)%string.

(** The clock laws of a run time's bindings: only waiting takes time. *)
Definition on_time {A : Type} (w : world) (p : promise A) : Prop :=
  match p with
  | Immediate _ w' => now w' = now w
  | Suspends asleep ms _ awake => now asleep = now w /\ now awake = now w + Z.of_N ms
  | Stalls asleep => now asleep = now w
  end.

Record punctual (rt : Runtime.PTCRuntime) : Prop := {
  tools_on_time : forall key f args w,
    Runtime.rt_tools rt !! key = Some f -> on_time w (f args w);
  agents_on_time : forall key f prompt w,
    Runtime.rt_agents rt !! key = Some f -> on_time w (f prompt w);
  skills_on_time : forall key f w,
    Runtime.rt_skills rt !! key = Some f -> on_time w (f w);
  log_on_time : forall args w w',
    Runtime.rt_log rt args w = Normal w' -> now w' = now w;
}.

(** What one argument of [log] contributes to the line. *)
Definition loggable (arg : value) : bool :=
  match arg with
  | VString _ => true
  | _ => match stringify arg with Normal _ => true | Abrupt _ => false end
  end.

Definition shown (arg : value) : string :=
  match arg with
  | VString s => s
  | _ => match stringify arg with Normal (Some text) => text | _ => "" end
  end.

Definition line (args : list value) : string := String.concat " " (map shown args).

(** [log(...)] once for each element of [calls], in order, then [k]. *)
Fixpoint logging (calls : list (list value)) (k : Runtime.script) : Runtime.script :=
  match calls with
  | [] => k
  | args :: rest =>
      Runtime.CallLog args
        (fun threw => match threw with
                      | None => logging rest k
                      | Some e => Runtime.Throw e
                      end)
  end.

(** The names a schema lists as required. *)
Definition required_names (schema : value) : list string :=
  match get_opt schema "required" with
  | VArray names =>
      omap (fun v => match v with VString s => Some s | _ => None end) names
  | _ => []
  end.

(** What the listing keeps of a raw agent. *)
Definition descriptor (raw : Host.Agent.t) : PTCAgent.t :=
  {| PTCAgent.name := Host.Agent.name raw;
     PTCAgent.description := Host.Agent.description raw;
     PTCAgent.mode := Host.Agent.mode raw |}.

(** The tool of the listing scenario: [read-file], with the one parameter
    [filePath]. *)
Definition read_file (description : string) (filePath : PTCParameter.t) : PTCTool.t :=
  {| PTCTool.name := "read-file";
     PTCTool.description := description;
     PTCTool.parameters := [("filePath"%string, filePath)] |}.

(** Nothing is taken from the arrays of the store between [w] and [w']. *)
Definition grows (w w' : world) : Prop :=
  logs w `prefix_of` logs w'
  /\ callRecords w `prefix_of` callRecords w'
  /\ wire w `prefix_of` wire w'.

(** [P] holds of every store a promise made in a store passes through. *)
Definition throughout {A : Type} (P : world -> Prop) (p : promise A) : Prop :=
  match p with
  | Immediate _ w' => P w'
  | Suspends asleep _ _ awake => P asleep /\ P awake
  | Stalls asleep => P asleep
  end.

(** The arrays only grow while a promise made in [w] is under way. *)
Definition grows_through {A : Type} (w : world) (p : promise A) : Prop :=
  match p with
  | Immediate _ w' => grows w w'
  | Suspends asleep _ _ awake => grows w asleep /\ grows asleep awake
  | Stalls asleep => grows w asleep
  end.

(** A record as a binding of the executor [self] writes it. *)
Definition recorded_by (self : Runtime.PTCExecutor) (r : PTCToolCallRecord.t) : Prop :=
  (PTCToolCallRecord.result r = None \/ PTCToolCallRecord.error r = None)
  /\ 0 <= PTCToolCallRecord.duration r
  /\ ((exists tool,
         In tool (Runtime.tools self)
         /\ PTCToolCallRecord.tool r = PTCTool.name tool)
      \/ (exists agent,
            In agent (Runtime.agents self)
            /\ PTCToolCallRecord.tool r = ("agent:" ++ PTCAgent.name agent)%string
            /\ is_Some (PTCToolCallRecord.error r))
      \/ (exists skill,
            In skill (Runtime.skills self)
            /\ PTCToolCallRecord.tool r = ("skill:" ++ PTCSkill.name skill)%string
            /\ is_Some (PTCToolCallRecord.error r))).

(** [await tools[key](args)], [n] times in a row. *)
Fixpoint call_times (n : nat) (key : string) (args : value) : Runtime.script :=
  match n with
  | O => Runtime.Return VUndefined
  | S n =>
      Runtime.AwaitTool key args
        (fun s => match s with
                  | Fulfilled _ => call_times n key args
                  | Rejected e => Runtime.Throw e
                  end)
  end.

(** A script that never awaits the host: it logs, calls agents and skills,
    and may end in an endless loop. *)
Inductive host_free : Runtime.script -> Prop :=
| host_free_Return v : host_free (Runtime.Return v)
| host_free_Throw e : host_free (Runtime.Throw e)
| host_free_CallLog args k :
    (forall threw, host_free (k threw)) -> host_free (Runtime.CallLog args k)
| host_free_AwaitAgent key prompt k :
    (forall s, host_free (k s)) -> host_free (Runtime.AwaitAgent key prompt k)
| host_free_AwaitSkill key k :
    (forall s, host_free (k s)) -> host_free (Runtime.AwaitSkill key k)
| host_free_Spin : host_free Runtime.Spin.

(** [sep] does not occur in [s]. *)
Definition free_of (sep : ascii) (s : string) : Prop :=
  Forall (fun c => c <> sep) (list_ascii_of_string s).

Definition slash : string := "/".

(** The functions assigned to a namespace, each under the key that
    reaches it. *)
Definition flat {F : Type} (o : Namespace.t F) : gmap string F :=
  match Namespace.proto o with
  | Some g => <["__proto__" := g]> (Namespace.own o)
  | None => Namespace.own o
  end.

(** A namespace as assignments leave it: without an own property
    [__proto__]. *)
Definition regular {F : Type} (o : Namespace.t F) : Prop :=
  Namespace.own o !! "__proto__" = None.

(** A key that is not the name of a method of [Function.prototype] or
    [Object.prototype]. *)
Definition apart (key : string) : bool :=
  negb (Namespace.among key (Namespace.function_methods ++ Namespace.object_methods)).

(** A script that calls its namespaces under such keys only. *)
Inductive calls_apart : Runtime.script -> Prop :=
| calls_apart_Return v : calls_apart (Runtime.Return v)
| calls_apart_Throw e : calls_apart (Runtime.Throw e)
| calls_apart_CallLog args k :
    (forall threw, calls_apart (k threw)) -> calls_apart (Runtime.CallLog args k)
| calls_apart_AwaitTool key args k :
    apart key = true ->
    (forall s, calls_apart (k s)) -> calls_apart (Runtime.AwaitTool key args k)
| calls_apart_AwaitAgent key prompt k :
    apart key = true ->
    (forall s, calls_apart (k s)) -> calls_apart (Runtime.AwaitAgent key prompt k)
| calls_apart_AwaitSkill key k :
    apart key = true ->
    (forall s, calls_apart (k s)) -> calls_apart (Runtime.AwaitSkill key k)
| calls_apart_Sleep ms k : calls_apart k -> calls_apart (Runtime.Sleep ms k)
| calls_apart_Work ms k : calls_apart k -> calls_apart (Runtime.Work ms k)
| calls_apart_Never : calls_apart Runtime.Never
| calls_apart_Spin : calls_apart Runtime.Spin.

End Spec.

(* ===================================================================== *)
(** * More inputs used in examples *)
(* ===================================================================== *)

Module Samples.
Import JS Types Loop.

(** [{ properties: { path: null } }] *)
Definition null_property : value :=
  VObject [("properties", VObject [("path", VNull)])].

(** A registry with a sound tool and one whose schema has a [null]
    property. *)
Definition spoiled : Host.Client :=
  {| Host.tool_list := fun _ =>
       Normal {| Host.Listing.error := VUndefined;
                 Host.Listing.data :=
                   Some [ {| Host.ToolListItem.id := "read";
                             Host.ToolListItem.description := Some "Read a file";
                             Host.ToolListItem.parameters := Fixtures.read_schema |};
                          {| Host.ToolListItem.id := "odd";
                             Host.ToolListItem.description := None;
                             Host.ToolListItem.parameters := null_property |} ] |};
     Host.app_agents := Host.app_agents Fixtures.steady;
     Host.tool_execute := Host.tool_execute Fixtures.steady |}.

(** [opencode.json] names the model [openrouter/anthropic/claude]; the
    providers' table is never needed. *)
Definition nested_model : Host.ConfigClient :=
  {| Host.config_get := fun _ =>
       Normal {| Host.ConfigResponse.error := VUndefined;
                 Host.ConfigResponse.model := Some "openrouter/anthropic/claude" |};
     Host.config_providers := fun _ => Abrupt (ErrorObject "offline") |}.

(** No model configured, and no default in the providers' table. *)
Definition unconfigured : Host.ConfigClient :=
  {| Host.config_get := fun _ =>
       Normal {| Host.ConfigResponse.error := VUndefined;
                 Host.ConfigResponse.model := None |};
     Host.config_providers := fun _ =>
       Normal {| Host.ProvidersResponse.error := VUndefined;
                 Host.ProvidersResponse.defaults := Some [] |} |}.

(** A host that never answers a call. *)
Definition mute : Host.Client :=
  {| Host.tool_list := Host.tool_list Fixtures.steady;
     Host.app_agents := Host.app_agents Fixtures.steady;
     Host.tool_execute := fun _ _ => Host.Silent |}.

(** [throw { toString: "x" }] *)
Definition throw_clad : Runtime.script :=
  Runtime.Throw (Raw (VObject [("toString", VString "x")])).

(** A computation of 200 ms, then [return 2]. *)
Definition busy : Runtime.script := Runtime.Work 200 (Runtime.Return (VNumber 2)).

(** [try { await agents[key]("look") } catch {} return null] *)
Definition ask (key : string) : Runtime.script :=
  Runtime.AwaitAgent key (VString "look") (fun _ => Runtime.Return VNull).

(** A catalog whose first tool is named [__proto__] and whose second is
    named [name]. *)
Definition proto_then_name : Runtime.PTCExecutor :=
  Runtime.createExecutor Fixtures.steady
    [ {| PTCTool.name := "__proto__"; PTCTool.description := "";
         PTCTool.parameters := [] |};
      {| PTCTool.name := "name"; PTCTool.description := "";
         PTCTool.parameters := [] |} ]
    [] [] None.

(** A catalog with the one tool [__proto__]. *)
Definition proto_only : Runtime.PTCExecutor :=
  Runtime.createExecutor Fixtures.steady
    [ {| PTCTool.name := "__proto__"; PTCTool.description := "";
         PTCTool.parameters := [] |} ]
    [] [] None.

(** No model configured; the providers' table has defaults. *)
Definition defaulted : Host.ConfigClient :=
  {| Host.config_get := fun _ =>
       Normal {| Host.ConfigResponse.error := VUndefined;
                 Host.ConfigResponse.model := Some "sonnet" |};
     Host.config_providers := fun _ =>
       Normal {| Host.ProvidersResponse.error := VNull;
                 Host.ProvidersResponse.defaults :=
                   Some [("anthropic", VString "sonnet"); ("openai", VString "gpt")] |} |}.

End Samples.

(* ===================================================================== *)
(** * Properties *)
(* ===================================================================== *)

Import JS Types Loop Spec.
Local Open Scope list_scope.

(** ** Names and namespaces *)

Lemma word_char_spec (c : ascii) :
  Runtime.word_char c = true <-> In c (list_ascii_of_string word_chars).
Proof.
  destruct c as [[] [] [] [] [] [] [] []]; vm_compute; split; intros H;
    try discriminate; try reflexivity; try tauto;
    repeat (destruct H as [H | H]; [discriminate H |]); contradiction.
Qed.

Lemma sanitizeName_agree (name : string) :
  Generators.sanitizeName name = Runtime.sanitizeName name.
Proof. induction name as [| c rest IH]; simpl; [reflexivity | now rewrite IH]. Qed.

Lemma sanitizeName_length (name : string) :
  String.length (Runtime.sanitizeName name) = String.length name.
Proof. induction name as [| c rest IH]; simpl; congruence. Qed.

Lemma sanitizeName_get (name : string) :
  forall (i : nat) (c : ascii),
    String.get i name = Some c ->
    String.get i (Runtime.sanitizeName name)
    = Some (if Runtime.word_char c then c else "_"%char).
Proof.
  induction name as [| c0 rest IH]; intros i c; simpl; [discriminate |].
  destruct i as [| i]; [intros [= ->]; reflexivity | apply IH].
Qed.

Lemma sanitizeName_idempotent (name : string) :
  Runtime.sanitizeName (Runtime.sanitizeName name) = Runtime.sanitizeName name.
Proof.
  induction name as [| c rest IH]; simpl; [reflexivity |].
  rewrite IH. f_equal.
  destruct (Runtime.word_char c) eqn:E; [now rewrite E | reflexivity].
Qed.

Section Namespace.
Context {A B : Type} (key : A -> string) (bound : A -> B).

Let fill (m : gmap string B) (l : list A) : gmap string B :=
  foldl (fun m a => <[key a := bound a]> m) m l.

Lemma fill_other (l : list A) :
  forall (m : gmap string B) (k : string),
    Forall (fun a => key a <> k) l -> fill m l !! k = m !! k.
Proof.
  induction l as [| a l IH]; intros m k H; simpl; [reflexivity |].
  inversion H as [| ? ? Ha Hl]; subst.
  unfold fill in *. simpl. rewrite IH by assumption. now apply lookup_insert_ne.
Qed.

Lemma fill_last (before after : list A) (a : A) (m : gmap string B) :
  Forall (fun x => key x <> key a) after ->
  fill m (before ++ a :: after) !! key a = Some (bound a).
Proof.
  intros H. unfold fill. rewrite foldl_app. simpl.
  fold (fill (<[key a := bound a]> (foldl (fun m a => <[key a := bound a]> m) m before)) after).
  rewrite fill_other by assumption. apply lookup_insert_eq.
Qed.

Lemma fill_origin (l : list A) :
  forall (k : string) (b : B),
    fill ∅ l !! k = Some b -> exists a, In a l /\ key a = k /\ b = bound a.
Proof.
  induction l as [| a l IH] using rev_ind; intros k b; unfold fill in *.
  - simpl. rewrite lookup_empty. discriminate.
  - rewrite foldl_app. simpl. destruct (decide (key a = k)) as [E | E].
    + subst k. rewrite lookup_insert_eq. intros [= <-].
      exists a. split; [apply in_or_app; right; now left | tauto].
    + rewrite lookup_insert_ne by assumption. intros H.
      destruct (IH _ _ H) as (a' & Hin & Hk & Hb).
      exists a'. split; [apply in_or_app; now left | tauto].
Qed.

Lemma fill_absent (l : list A) :
  forall k : string, fill ∅ l !! k = None -> Forall (fun a => key a <> k) l.
Proof.
  induction l as [| a l IH] using rev_ind; intros k; [constructor |].
  unfold fill in *. rewrite foldl_app. simpl.
  destruct (decide (key a = k)) as [E | E].
  - subst k. rewrite lookup_insert_eq. discriminate.
  - rewrite lookup_insert_ne by assumption. intros H.
    apply Forall_app. split; [now apply IH | now constructor].
Qed.

(** ** Assignments to a namespace *)

Lemma lookup_flat (o : Namespace.t B) (k : string) :
  regular o -> o !! k = flat o !! k.
Proof.
  unfold regular, flat. intros Hreg.
  change (o !! k) with (Namespace.binding o k). unfold Namespace.binding.
  destruct (Namespace.own o !! k) as [f |] eqn:E.
  - destruct (Namespace.proto o) as [g |]; [| now rewrite E].
    rewrite lookup_insert_ne; [now rewrite E | congruence].
  - destruct (String.eqb_spec k "__proto__") as [-> | Hne].
    + destruct (Namespace.proto o); [now rewrite lookup_insert_eq | now rewrite Hreg].
    + destruct (Namespace.proto o); [rewrite lookup_insert_ne by congruence |];
        now rewrite E.
Qed.

Lemma assign_flat (k : string) (f : B) (o o' : Namespace.t B) :
  regular o ->
  Namespace.assign k f o = Normal o' ->
  regular o' /\ flat o' = <[k := f]> (flat o).
Proof.
  unfold regular, flat, Namespace.assign. intros Hreg.
  assert (forall g : B,
             k <> "__proto__"%string ->
             <["__proto__" := g]> (<[k := f]> (Namespace.own o))
             = <[k := f]> (<["__proto__" := g]> (Namespace.own o))) as Hswap
    by (intros g Hne; now apply insert_insert_ne).
  destruct (Namespace.own o !! k) as [f0 |] eqn:E.
  - assert (k <> "__proto__"%string) as Hne by congruence.
    intros [= <-]. simpl. split; [now rewrite lookup_insert_ne |].
    destruct (Namespace.proto o); [now apply Hswap | reflexivity].
  - destruct (String.eqb_spec k "__proto__") as [-> | Hne].
    + intros [= <-]. simpl. split; [assumption |].
      destruct (Namespace.proto o); [now rewrite insert_insert_eq | reflexivity].
    + destruct (Namespace.proto o) as [g |].
      * destruct (Namespace.among k Namespace.read_only); [discriminate |].
        destruct (Namespace.among k Namespace.restricted); [discriminate |].
        intros [= <-]. simpl. split; [now rewrite lookup_insert_ne | now apply Hswap].
      * intros [= <-]. simpl. split; [now rewrite lookup_insert_ne | reflexivity].
Qed.

Lemma assign_each_flat (l : list A) :
  forall o o' : Namespace.t B,
    regular o ->
    Namespace.assign_each key bound l o = Normal o' ->
    regular o' /\ flat o' = fill (flat o) l.
Proof.
  induction l as [| a l IH]; intros o o' Hreg; simpl.
  - intros [= <-]. auto.
  - destruct (Namespace.assign (key a) (bound a) o) as [o1 |] eqn:E; simpl;
      [| discriminate].
    destruct (assign_flat _ _ _ _ Hreg E) as [Hreg1 Hflat1].
    intros H. destruct (IH _ _ Hreg1 H) as [Hreg' Hflat'].
    split; [assumption |]. rewrite Hflat', Hflat1. reflexivity.
Qed.

(** What a namespace built from the empty object finds under a key is what
    the successive assignments leave there. *)
Lemma built_lookup (l : list A) (o : Namespace.t B) (k : string) :
  Namespace.assign_each key bound l Namespace.empty = Normal o ->
  regular o /\ o !! k = fill ∅ l !! k.
Proof.
  intros H.
  destruct (assign_each_flat l Namespace.empty o (lookup_empty _) H) as [Hreg Hflat].
  split; [assumption |]. rewrite lookup_flat by assumption. now rewrite Hflat.
Qed.

Lemma built_last (before after : list A) (a : A) (o : Namespace.t B) :
  Namespace.assign_each key bound (before ++ a :: after) Namespace.empty = Normal o ->
  Forall (fun x => key x <> key a) after ->
  o !! key a = Some (bound a).
Proof.
  intros H Hafter. destruct (built_lookup _ _ (key a) H) as [_ ->].
  now apply fill_last.
Qed.

Lemma built_origin (l : list A) (o : Namespace.t B) (k : string) (b : B) :
  Namespace.assign_each key bound l Namespace.empty = Normal o ->
  o !! k = Some b ->
  exists a, In a l /\ key a = k /\ b = bound a.
Proof.
  intros H. destruct (built_lookup _ _ k H) as [_ ->]. apply fill_origin.
Qed.

Lemma built_absent (l : list A) (o : Namespace.t B) (k : string) :
  Namespace.assign_each key bound l Namespace.empty = Normal o ->
  o !! k = None ->
  Forall (fun a => key a <> k) l.
Proof.
  intros H. destruct (built_lookup _ _ k H) as [_ ->]. apply fill_absent.
Qed.

Lemma built_present (l : list A) (o : Namespace.t B) (a : A) :
  Namespace.assign_each key bound l Namespace.empty = Normal o ->
  In a l ->
  is_Some (o !! key a).
Proof.
  intros H Hin. destruct (o !! key a) as [b |] eqn:E; [eauto |].
  apply (built_absent _ _ _ H) in E.
  rewrite List.Forall_forall in E. now destruct (E a Hin).
Qed.

(** Under [Object.prototype] every assignment goes through. *)
Lemma assign_each_plain (l : list A) :
  forall o : Namespace.t B,
    Namespace.proto o = None ->
    Forall (fun a => key a <> "__proto__"%string) l ->
    exists o', Namespace.assign_each key bound l o = Normal o'
               /\ Namespace.proto o' = None.
Proof.
  induction l as [| a l IH]; intros o Hproto Hl; simpl; [eauto |].
  inversion Hl as [| ? ? Ha Hrest]; subst.
  unfold Namespace.assign. rewrite Hproto.
  destruct (String.eqb_spec (key a) "__proto__") as [E | _]; [contradiction |].
  destruct (Namespace.own o !! key a); simpl; apply IH; auto.
Qed.

End Namespace.

Lemma resolve_bound {F : Type} (namespace : string) (o : Namespace.t F) (k : string)
    (f : F) :
  o !! k = Some f -> Namespace.resolve namespace o k = Namespace.Bound f.
Proof.
  change (o !! k) with (Namespace.binding o k). unfold Namespace.resolve.
  now intros ->.
Qed.

Lemma resolve_Bound {F : Type} (namespace : string) (o : Namespace.t F) (k : string)
    (f : F) :
  Namespace.resolve namespace o k = Namespace.Bound f -> o !! k = Some f.
Proof.
  change (o !! k) with (Namespace.binding o k). unfold Namespace.resolve.
  destruct (Namespace.binding o k) as [g |]; [now intros [= ->] |].
  destruct (Namespace.proto o).
  - destruct (Namespace.among k Namespace.restricted); [discriminate |].
    destruct (_ || _); discriminate.
  - destruct (Namespace.among k Namespace.object_methods); discriminate.
Qed.

(** What [runtime_of] returns has the three namespaces as the loops built
    them, and the logging function. *)
Lemma runtime_of_built self context rt :
  Runtime.runtime_of self context = Normal rt ->
  Runtime.toolFunctions self context = Normal (Runtime.rt_tools rt)
  /\ Runtime.agentFunctions self context = Normal (Runtime.rt_agents rt)
  /\ Runtime.skillFunctions self context = Normal (Runtime.rt_skills rt)
  /\ Runtime.rt_log rt = Runtime.log.
Proof.
  unfold Runtime.runtime_of.
  destruct (Runtime.toolFunctions self context) as [ts |]; simpl; [| discriminate].
  destruct (Runtime.agentFunctions self context) as [ags |]; simpl; [| discriminate].
  destruct (Runtime.skillFunctions self context) as [sks |]; simpl; [| discriminate].
  intros [= <-]. simpl. auto.
Qed.

Lemma runtime_of_plain self context :
  Forall (fun t => Runtime.sanitizeName (PTCTool.name t) <> "__proto__"%string)
    (Runtime.tools self) ->
  Forall (fun a => Runtime.sanitizeName (PTCAgent.name a) <> "__proto__"%string)
    (Runtime.agents self) ->
  Forall (fun s => Runtime.sanitizeName (PTCSkill.name s) <> "__proto__"%string)
    (Runtime.skills self) ->
  exists rt, Runtime.runtime_of self context = Normal rt.
Proof.
  intros Ht Ha Hs. unfold Runtime.runtime_of, Runtime.toolFunctions,
    Runtime.agentFunctions, Runtime.skillFunctions.
  destruct (assign_each_plain
              (fun t => Runtime.sanitizeName (PTCTool.name t))
              (fun t => Generators.createToolFunction (Runtime.client self) t context)
              _ Namespace.empty eq_refl Ht) as (ts & -> & _).
  destruct (assign_each_plain
              (fun a => Runtime.sanitizeName (PTCAgent.name a))
              (fun a => Generators.createAgentFunction (Runtime.client self) a context)
              _ Namespace.empty eq_refl Ha) as (ags & -> & _).
  destruct (assign_each_plain
              (fun s => Runtime.sanitizeName (PTCSkill.name s))
              (fun s => Generators.createSkillFunction (Runtime.client self) s context)
              _ Namespace.empty eq_refl Hs) as (sks & -> & _).
  simpl. eauto.
Qed.

(** An assignment under a key assigned before goes through. *)
Lemma assign_again {F : Type} (k : string) (f g : F) (o o' : Namespace.t F) :
  Namespace.assign k f o = Normal o' -> exists o'', Namespace.assign k g o' = Normal o''.
Proof.
  unfold Namespace.assign at 1.
  destruct (Namespace.own o !! k) as [f0 |] eqn:E.
  - intros [= <-]. unfold Namespace.assign. simpl. rewrite lookup_insert_eq. eauto.
  - destruct (String.eqb_spec k "__proto__") as [-> | Hne].
    + intros [= <-]. unfold Namespace.assign. simpl. rewrite E. simpl. eauto.
    + assert (forall o1,
                 o1 = {| Namespace.own := <[k := f]> (Namespace.own o);
                         Namespace.proto := Namespace.proto o |} ->
                 exists o'', Namespace.assign k g o1 = Normal o'') as Hdefined.
      { intros o1 ->. unfold Namespace.assign. simpl. rewrite lookup_insert_eq. eauto. }
      destruct (Namespace.proto o) as [p |].
      * destruct (Namespace.among k Namespace.read_only); [discriminate |].
        destruct (Namespace.among k Namespace.restricted); [discriminate |].
        intros [= <-]. now apply Hdefined.
      * intros [= <-]. now apply Hdefined.
Qed.

(** C5. [sanitizeName] keeps the characters of [[A-Za-z0-9_]] and puts an
    underscore in the place of every other one; sanitizing twice is
    sanitizing once; and when two capabilities with distinct names get the
    same key, the namespace the engine builds holds the binding of the one
    processed later (for tools, agents and skills alike).  Such a
    collision is no error: an assignment under a key assigned before
    always goes through, and the namespaces are built whenever no key is
    [__proto__]. *)
Theorem sanitize_last_write_wins :
  (forall c, Runtime.word_char c = true <-> In c (list_ascii_of_string word_chars))
  /\ (forall name, String.length (Runtime.sanitizeName name) = String.length name)
  /\ (forall name i c,
        String.get i name = Some c ->
        String.get i (Runtime.sanitizeName name)
        = Some (if Runtime.word_char c then c else "_"%char))
  /\ (forall name,
        Runtime.sanitizeName (Runtime.sanitizeName name) = Runtime.sanitizeName name)
  /\ (forall self context toolFunctions before t1 between t2 after,
        Runtime.toolFunctions self context = Normal toolFunctions ->
        Runtime.tools self = before ++ t1 :: between ++ t2 :: after ->
        PTCTool.name t1 <> PTCTool.name t2 ->
        Runtime.sanitizeName (PTCTool.name t1) = Runtime.sanitizeName (PTCTool.name t2) ->
        Forall (fun t => Runtime.sanitizeName (PTCTool.name t)
                         <> Runtime.sanitizeName (PTCTool.name t2)) after ->
        toolFunctions !! Runtime.sanitizeName (PTCTool.name t1)
        = Some (Generators.createToolFunction (Runtime.client self) t2 context))
  /\ (forall self context agentFunctions before a1 between a2 after,
        Runtime.agentFunctions self context = Normal agentFunctions ->
        Runtime.agents self = before ++ a1 :: between ++ a2 :: after ->
        PTCAgent.name a1 <> PTCAgent.name a2 ->
        Runtime.sanitizeName (PTCAgent.name a1) = Runtime.sanitizeName (PTCAgent.name a2) ->
        Forall (fun a => Runtime.sanitizeName (PTCAgent.name a)
                         <> Runtime.sanitizeName (PTCAgent.name a2)) after ->
        agentFunctions !! Runtime.sanitizeName (PTCAgent.name a1)
        = Some (Generators.createAgentFunction (Runtime.client self) a2 context))
  /\ (forall self context skillFunctions before s1 between s2 after,
        Runtime.skillFunctions self context = Normal skillFunctions ->
        Runtime.skills self = before ++ s1 :: between ++ s2 :: after ->
        PTCSkill.name s1 <> PTCSkill.name s2 ->
        Runtime.sanitizeName (PTCSkill.name s1) = Runtime.sanitizeName (PTCSkill.name s2) ->
        Forall (fun s => Runtime.sanitizeName (PTCSkill.name s)
                         <> Runtime.sanitizeName (PTCSkill.name s2)) after ->
        skillFunctions !! Runtime.sanitizeName (PTCSkill.name s1)
        = Some (Generators.createSkillFunction (Runtime.client self) s2 context))
  /\ (forall (key : string) (f g : PTCToolFunction) (o o' : Namespace.t PTCToolFunction),
        Namespace.assign key f o = Normal o' ->
        exists o'', Namespace.assign key g o' = Normal o'')
  /\ (forall self context,
        Forall (fun t => Runtime.sanitizeName (PTCTool.name t) <> "__proto__"%string)
          (Runtime.tools self) ->
        Forall (fun a => Runtime.sanitizeName (PTCAgent.name a) <> "__proto__"%string)
          (Runtime.agents self) ->
        Forall (fun s => Runtime.sanitizeName (PTCSkill.name s) <> "__proto__"%string)
          (Runtime.skills self) ->
        exists rt, Runtime.runtime_of self context = Normal rt).
Proof.
  split; [exact word_char_spec |].
  split; [exact sanitizeName_length |].
  split; [exact sanitizeName_get |].
  split; [exact sanitizeName_idempotent |].
  split; [| split; [| split; [| split]]].
  - intros self context ns before t1 between t2 after Hns Hl _ Hk Hafter.
    unfold Runtime.toolFunctions in Hns. rewrite Hl in Hns. rewrite Hk.
    change (before ++ t1 :: between ++ t2 :: after)%list
      with (before ++ (t1 :: between) ++ t2 :: after)%list in Hns.
    rewrite app_assoc in Hns.
    exact (built_last (fun t => Runtime.sanitizeName (PTCTool.name t)) _ _ _ _ _
             Hns Hafter).
  - intros self context ns before a1 between a2 after Hns Hl _ Hk Hafter.
    unfold Runtime.agentFunctions in Hns. rewrite Hl in Hns. rewrite Hk.
    change (before ++ a1 :: between ++ a2 :: after)%list
      with (before ++ (a1 :: between) ++ a2 :: after)%list in Hns.
    rewrite app_assoc in Hns.
    exact (built_last (fun a => Runtime.sanitizeName (PTCAgent.name a)) _ _ _ _ _
             Hns Hafter).
  - intros self context ns before s1 between s2 after Hns Hl _ Hk Hafter.
    unfold Runtime.skillFunctions in Hns. rewrite Hl in Hns. rewrite Hk.
    change (before ++ s1 :: between ++ s2 :: after)%list
      with (before ++ (s1 :: between) ++ s2 :: after)%list in Hns.
    rewrite app_assoc in Hns.
    exact (built_last (fun s => Runtime.sanitizeName (PTCSkill.name s)) _ _ _ _ _
             Hns Hafter).
  - intros key f g o o'. apply assign_again.
  - exact runtime_of_plain.
Qed.

Lemma sanitize_last_write_wins_witness :
  String.get 4 "file/read" = Some "/"%char
  /\ String.get 4 (Runtime.sanitizeName "file/read") = Some "_"%char
  /\ PTCTool.name Fixtures.fileSlash <> PTCTool.name Fixtures.fileColon
  /\ exists toolFunctions,
       Runtime.toolFunctions Fixtures.colliding Fixtures.session = Normal toolFunctions
       /\ toolFunctions !! "file_read"
          = Some (Generators.createToolFunction Fixtures.steady Fixtures.fileColon
                    Fixtures.session).
Proof.
  split; [reflexivity |].
  split.
  - exact (proj1 (proj2 (proj2 sanitize_last_write_wins)) "file/read" 4%nat "/"%char
             eq_refl).
  - split; [discriminate |].
    eexists. split; [reflexivity |].
    apply (proj1 (proj2 (proj2 (proj2 (proj2 sanitize_last_write_wins))))
             Fixtures.colliding Fixtures.session _ [] Fixtures.fileSlash []
             Fixtures.fileColon []).
    + reflexivity.
    + reflexivity.
    + discriminate.
    + reflexivity.
    + constructor.
Defined.

(** ** Bindings and the call record *)

Lemma createToolFunction_shape client tool context args w :
  let asleep := send (owed_request context tool args) w in
  (exists ms s r,
     Generators.createToolFunction client tool context args w
     = Suspends asleep ms s (push_record r (tick ms asleep))
     /\ PTCToolCallRecord.tool r = PTCTool.name tool
     /\ PTCToolCallRecord.args r = args
     /\ PTCToolCallRecord.duration r = Z.of_N ms
     /\ match s with
        | Fulfilled output =>
            PTCToolCallRecord.result r = Some output /\ PTCToolCallRecord.error r = None
        | Rejected _ => PTCToolCallRecord.result r = None
        end)
  \/ Generators.createToolFunction client tool context args w = Stalls asleep.
Proof.
  intros asleep. unfold Generators.createToolFunction.
  fold (owed_request context tool args). fold asleep.
  destruct (Host.tool_execute client (wire w) (owed_request context tool args))
    as [ms response | ms e |]; [| | right; reflexivity]; left; exists ms.
  - destruct (truthy (Host.Response.error response)).
    + destruct (stringify (Host.Response.error response)) as [text | e]; simpl.
      * eexists _, _. split; [reflexivity |]. simpl. repeat split; lia.
      * destruct (describe e); eexists _, _; (split; [reflexivity |]);
          simpl; repeat split; lia.
    + eexists _, _. split; [reflexivity |]. simpl. repeat split; lia.
  - simpl. destruct (describe e); simpl;
      eexists _, _; (split; [reflexivity |]); simpl; repeat split; lia.
Qed.

Lemma createAgentFunction_shape client agent context prompt w :
  exists err r,
    Generators.createAgentFunction client agent context prompt w
    = Immediate (Rejected err) (push_record r w)
    /\ PTCToolCallRecord.tool r = ("agent:" ++ PTCAgent.name agent)%string
    /\ PTCToolCallRecord.args r = VObject [("prompt", prompt)]
    /\ is_Some (PTCToolCallRecord.error r)
    /\ PTCToolCallRecord.result r = None
    /\ PTCToolCallRecord.duration r = 0.
Proof.
  unfold Generators.createAgentFunction. eexists _, _.
  split; [reflexivity |]. simpl. repeat split; eauto; lia.
Qed.

Lemma createSkillFunction_shape client skill context w :
  exists err r,
    Generators.createSkillFunction client skill context w
    = Immediate (Rejected err) (push_record r w)
    /\ PTCToolCallRecord.tool r = ("skill:" ++ PTCSkill.name skill)%string
    /\ PTCToolCallRecord.args r = VObject []
    /\ is_Some (PTCToolCallRecord.error r)
    /\ PTCToolCallRecord.result r = None
    /\ PTCToolCallRecord.duration r = 0.
Proof.
  unfold Generators.createSkillFunction. eexists _, _.
  split; [reflexivity |]. simpl. repeat split; eauto; lia.
Qed.

Lemma push_record_one_more w r : one_more_record w (push_record r w) r.
Proof. split; reflexivity. Qed.

(** C2, as the code has it.  Each binding pushes its record when its
    invocation settles, and not before.  A tool binding sends its request
    and suspends: if the host answers, with a response or with an error,
    after [ms] milliseconds, the invocation settles then and has pushed
    exactly one record, whose duration is the time elapsed; if the host
    never answers, the invocation never settles and has pushed nothing.
    Agent and skill bindings settle at once, with exactly one record. *)
Theorem every_attempt_recorded_once :
  (forall client tool context args w,
     let request := owed_request context tool args in
     let asleep := send request w in
     match Host.tool_execute client (wire w) request with
     | Host.Fulfils ms _ | Host.Rejects ms _ =>
         exists s r awake,
           Generators.createToolFunction client tool context args w
           = Suspends asleep ms s awake
           /\ callRecords asleep = callRecords w
           /\ one_more_record w awake r
           /\ now awake = now w + Z.of_N ms
           /\ PTCToolCallRecord.duration r = now awake - now w
     | Host.Silent =>
         Generators.createToolFunction client tool context args w = Stalls asleep
         /\ callRecords asleep = callRecords w
     end)
  /\ (forall client agent context prompt w,
        exists s r w',
          Generators.createAgentFunction client agent context prompt w = Immediate s w'
          /\ one_more_record w w' r
          /\ PTCToolCallRecord.duration r = now w' - now w)
  /\ (forall client skill context w,
        exists s r w',
          Generators.createSkillFunction client skill context w = Immediate s w'
          /\ one_more_record w w' r
          /\ PTCToolCallRecord.duration r = now w' - now w).
Proof.
  repeat split.
  - intros client tool context args w request asleep.
    unfold Generators.createToolFunction.
    fold (owed_request context tool args). fold request. fold asleep.
    destruct (Host.tool_execute client (wire w) request) as [ms response | ms e |].
    + destruct (truthy (Host.Response.error response)).
      * destruct (stringify (Host.Response.error response)) as [text | e]; simpl;
          [| destruct (describe e)];
          eexists _, _, _; (split; [reflexivity |]); simpl;
          (split; [reflexivity |]); (split; [split; reflexivity |]); simpl; split; lia.
      * eexists _, _, _. split; [reflexivity |]. simpl.
        split; [reflexivity |]. split; [split; reflexivity |]. simpl. split; lia.
    + simpl. destruct (describe e);
        eexists _, _, _; (split; [reflexivity |]); simpl;
        (split; [reflexivity |]); (split; [split; reflexivity |]); simpl; split; lia.
    + split; reflexivity.
  - intros client agent context prompt w.
    destruct (createAgentFunction_shape client agent context prompt w)
      as (err & r & -> & _ & _ & _ & _ & Hd).
    exists (Rejected err), r, (push_record r w).
    split; [reflexivity |]. split; [apply push_record_one_more |].
    rewrite Hd. simpl. lia.
  - intros client skill context w.
    destruct (createSkillFunction_shape client skill context w)
      as (err & r & -> & _ & _ & _ & _ & Hd).
    exists (Rejected err), r, (push_record r w).
    split; [reflexivity |]. split; [apply push_record_one_more |].
    rewrite Hd. simpl. lia.
Qed.

(** C2, as stated, fails: an attempt on a host that never answers sends
    its request and leaves no record, and the result of the run, ended by
    the timeout, has none. *)
Lemma pending_attempt_leaves_no_record :
  (exists asleep,
     Generators.createToolFunction Samples.mute Fixtures.read Fixtures.session
       Fixtures.path (boot 0)
     = Stalls asleep
     /\ length (wire asleep) = 1%nat
     /\ callRecords asleep = [])
  /\ Runtime.execute (Fixtures.reader Samples.mute (Some 50))
       (Runtime.Program Fixtures.log_then_read) Fixtures.session 0
     = Runtime.Returns
         {| PTCExecutionResult.success := false;
            PTCExecutionResult.result := None;
            PTCExecutionResult.error := Some "Execution timed out after 50ms"%string;
            PTCExecutionResult.logs := ["start"%string];
            PTCExecutionResult.toolCalls := [] |}.
Proof.
  split; [eexists; split; [reflexivity | split; reflexivity] | reflexivity].
Qed.

(** C6, as the code has it.  The binding generated for an agent always
    rejects, and by then has pushed exactly one record, with [error] set
    and [tool] the agent's name after [agent:]; the same holds for skills
    with [skill:].  In the namespaces the binding stands under the
    sanitized name: a call under that key rejects and pushes that one
    record provided no agent (skill) processed later has the same key;
    and whatever [agents[key]] or [skills[key]] holds of the bindings is
    the binding of an available agent (skill) with that key. *)
Theorem placeholders_always_raise :
  (forall client agent context prompt w,
     exists err r w',
       Generators.createAgentFunction client agent context prompt w
       = Immediate (Rejected err) w'
       /\ one_more_record w w' r
       /\ is_Some (PTCToolCallRecord.error r)
       /\ PTCToolCallRecord.tool r = ("agent:" ++ PTCAgent.name agent)%string)
  /\ (forall client skill context w,
        exists err r w',
          Generators.createSkillFunction client skill context w
          = Immediate (Rejected err) w'
          /\ one_more_record w w' r
          /\ is_Some (PTCToolCallRecord.error r)
          /\ PTCToolCallRecord.tool r = ("skill:" ++ PTCSkill.name skill)%string)
  /\ (forall self context rt before agent after prompt k deadline w,
        Runtime.runtime_of self context = Normal rt ->
        Runtime.agents self = before ++ agent :: after ->
        Forall (fun a => Runtime.sanitizeName (PTCAgent.name a)
                         <> Runtime.sanitizeName (PTCAgent.name agent)) after ->
        exists err r,
          Runtime.run rt deadline
            (Runtime.AwaitAgent (Runtime.sanitizeName (PTCAgent.name agent)) prompt k) w
          = Runtime.run rt deadline (k (Rejected err)) (push_record r w)
          /\ PTCToolCallRecord.tool r = ("agent:" ++ PTCAgent.name agent)%string
          /\ is_Some (PTCToolCallRecord.error r)
          /\ PTCToolCallRecord.result r = None)
  /\ (forall self context rt before skill after k deadline w,
        Runtime.runtime_of self context = Normal rt ->
        Runtime.skills self = before ++ skill :: after ->
        Forall (fun s => Runtime.sanitizeName (PTCSkill.name s)
                         <> Runtime.sanitizeName (PTCSkill.name skill)) after ->
        exists err r,
          Runtime.run rt deadline
            (Runtime.AwaitSkill (Runtime.sanitizeName (PTCSkill.name skill)) k) w
          = Runtime.run rt deadline (k (Rejected err)) (push_record r w)
          /\ PTCToolCallRecord.tool r = ("skill:" ++ PTCSkill.name skill)%string
          /\ is_Some (PTCToolCallRecord.error r)
          /\ PTCToolCallRecord.result r = None)
  /\ (forall self context rt key f,
        Runtime.runtime_of self context = Normal rt ->
        Runtime.rt_agents rt !! key = Some f ->
        exists agent,
          In agent (Runtime.agents self)
          /\ Runtime.sanitizeName (PTCAgent.name agent) = key
          /\ f = Generators.createAgentFunction (Runtime.client self) agent context)
  /\ (forall self context rt key f,
        Runtime.runtime_of self context = Normal rt ->
        Runtime.rt_skills rt !! key = Some f ->
        exists skill,
          In skill (Runtime.skills self)
          /\ Runtime.sanitizeName (PTCSkill.name skill) = key
          /\ f = Generators.createSkillFunction (Runtime.client self) skill context).
Proof.
  split; [| split; [| split; [| split; [| split]]]].
  - intros client agent context prompt w.
    destruct (createAgentFunction_shape client agent context prompt w)
      as (err & r & -> & Ht & _ & He & _).
    exists err, r, (push_record r w). auto using push_record_one_more.
  - intros client skill context w.
    destruct (createSkillFunction_shape client skill context w)
      as (err & r & -> & Ht & _ & He & _).
    exists err, r, (push_record r w). auto using push_record_one_more.
  - intros self context rt before agent after prompt k deadline w Hrt Hl Hafter.
    destruct (runtime_of_built _ _ _ Hrt) as (_ & Hns & _ & _).
    unfold Runtime.agentFunctions in Hns. rewrite Hl in Hns.
    pose proof (built_last (fun a => Runtime.sanitizeName (PTCAgent.name a)) _ _ _ _ _
                  Hns Hafter) as Hfound.
    destruct (createAgentFunction_shape (Runtime.client self) agent context prompt w)
      as (err & r & Hcall & Ht & _ & He & Hr & _).
    exists err, r. cbn [Runtime.run]. unfold Runtime.call.
    rewrite (resolve_bound "agents" _ _ _ Hfound), Hcall. simpl. auto.
  - intros self context rt before skill after k deadline w Hrt Hl Hafter.
    destruct (runtime_of_built _ _ _ Hrt) as (_ & _ & Hns & _).
    unfold Runtime.skillFunctions in Hns. rewrite Hl in Hns.
    pose proof (built_last (fun s => Runtime.sanitizeName (PTCSkill.name s)) _ _ _ _ _
                  Hns Hafter) as Hfound.
    destruct (createSkillFunction_shape (Runtime.client self) skill context w)
      as (err & r & Hcall & Ht & _ & He & Hr & _).
    exists err, r. cbn [Runtime.run]. unfold Runtime.call.
    rewrite (resolve_bound "skills" _ _ _ Hfound), Hcall. simpl. auto.
  - intros self context rt key f Hrt Hf.
    destruct (runtime_of_built _ _ _ Hrt) as (_ & Hns & _ & _).
    exact (built_origin _ _ _ _ _ _ Hns Hf).
  - intros self context rt key f Hrt Hf.
    destruct (runtime_of_built _ _ _ Hrt) as (_ & _ & Hns & _).
    exact (built_origin _ _ _ _ _ _ Hns Hf).
Qed.

Lemma placeholders_always_raise_witness :
  exists rt r,
    Runtime.runtime_of Fixtures.colliding Fixtures.session = Normal rt
    /\ Runtime.run rt None (Samples.ask "code_review") (boot 0)
       = Runtime.run rt None (Runtime.Return VNull) (push_record r (boot 0))
    /\ PTCToolCallRecord.tool r = "agent:code.review"%string
    /\ is_Some (PTCToolCallRecord.error r).
Proof.
  destruct (proj1 (proj2 (proj2 placeholders_always_raise))
              Fixtures.colliding Fixtures.session _ [Fixtures.reviewDash]
              Fixtures.reviewDot [] (VString "look") (fun _ => Runtime.Return VNull)
              None (boot 0) eq_refl eq_refl ltac:(constructor))
    as (err & r & Hrun & Htool & Herror & _).
  eexists _, r. split; [reflexivity |]. split; [exact Hrun |].
  split; [exact Htool | exact Herror].
Defined.

(** C6, as stated, fails.  The agent [code-review] is available, but
    [agents["code-review"]] is not there: the call raises and pushes no
    record.  And under its key [code_review] stands the binding of
    [code.review], processed later: the record the call pushes names that
    agent. *)
Lemma placeholder_of_another_agent :
  In Fixtures.reviewDash (Runtime.agents Fixtures.colliding)
  /\ (exists r,
        Runtime.execute Fixtures.colliding
          (Runtime.Program
             (Runtime.AwaitAgent "code-review" (VString "look")
                (Fixtures.rethrow (fun output => Runtime.Return (VString output)))))
          Fixtures.session 0
        = Runtime.Returns r
        /\ PTCExecutionResult.success r = false
        /\ PTCExecutionResult.toolCalls r = [])
  /\ Runtime.execute Fixtures.colliding (Runtime.Program (Samples.ask "code_review"))
       Fixtures.session 0
     = Runtime.Returns
         {| PTCExecutionResult.success := true;
            PTCExecutionResult.result := Some VNull;
            PTCExecutionResult.error := None;
            PTCExecutionResult.logs := [];
            PTCExecutionResult.toolCalls :=
              [ {| PTCToolCallRecord.tool := "agent:code.review";
                   PTCToolCallRecord.args := VObject [("prompt", VString "look")];
                   PTCToolCallRecord.result := None;
                   PTCToolCallRecord.error :=
                     Some "Agent calls are not yet supported in direct execution mode"%string;
                   PTCToolCallRecord.duration := 0 |} ] |}.
Proof.
  split; [now left |].
  split; [eexists; split; [reflexivity | split; reflexivity] | reflexivity].
Qed.

(** C3.  A tool binding sends the host the identifiers of its execution
    context, the tool's own name and the arguments; but the context built
    for an execute-code request has no model identifier, whatever model
    was resolved, so none reaches the host. *)
Theorem ptcContext_omits_modelID :
  forall client ctx providerID modelID tool args w,
    let context := PtcTool.ptcContext client ctx providerID modelID in
    let q := owed_request context tool args in
    match Generators.createToolFunction client tool context args w with
    | Suspends asleep _ _ _ | Stalls asleep => wire asleep = wire w ++ [q]
    | Immediate _ _ => False
    end
    /\ Host.Body.sessionID (Host.Request.body q) = PtcTool.ToolContext.sessionID ctx
    /\ Host.Body.messageID (Host.Request.body q) = PtcTool.ToolContext.messageID ctx
    /\ Host.Body.providerID (Host.Request.body q) = providerID
    /\ Host.Body.agent (Host.Request.body q) = PtcTool.ToolContext.agent ctx
    /\ Host.Body.toolID (Host.Request.body q) = PTCTool.name tool
    /\ Host.Body.args (Host.Request.body q) = args
    /\ Host.Body.modelID (Host.Request.body q) = None
    /\ PTCContext.modelID context <> Some modelID.
Proof.
  intros client ctx providerID modelID tool args w context q.
  split; [| simpl; repeat split; discriminate].
  destruct (createToolFunction_shape client tool context args w)
    as [(ms & s & r & -> & _) | ->]; reflexivity.
Qed.

(** ** The race against the timer *)

Lemma await_armed {A : Type} (d : Z) (p : promise A) k :
  (forall s w, forall w', k s w <> Runtime.Dormant w') ->
  forall w', Runtime.await (Some d) p k <> Runtime.Dormant w'.
Proof.
  intros Hk w'. destruct p as [s w1 | asleep ms s awake | asleep]; simpl.
  - apply Hk.
  - destruct (d <=? now asleep + Z.of_N ms)%Z; [discriminate | apply Hk].
  - discriminate.
Qed.

Lemma call_armed {F A : Type} namespace (o : Namespace.t F) key (d : Z) (w : world)
    (apply : F -> promise A) k :
  (forall s w, forall w', k s w <> Runtime.Dormant w') ->
  forall w', Runtime.call namespace o key (Some d) w apply k <> Runtime.Dormant w'.
Proof.
  intros Hk w'. unfold Runtime.call.
  destruct (Namespace.resolve namespace o key);
    [now apply await_armed | discriminate | apply Hk].
Qed.

(** Under an armed timer no run waits for ever. *)
Lemma run_armed rt (d : Z) (fn : Runtime.script) :
  forall w w', Runtime.run rt (Some d) fn w <> Runtime.Dormant w'.
Proof.
  induction fn as [v | e | args k IH | key args k IH | key prompt k IH | key k IH
                   | ms k IH | ms k IH | |]; intros w w'; cbn [Runtime.run];
    try discriminate.
  - destruct (Runtime.rt_log rt args w); apply IH.
  - apply call_armed. intros; apply IH.
  - apply call_armed. intros; apply IH.
  - apply call_armed. intros; apply IH.
  - apply await_armed. intros; apply IH.
  - apply IH.
Qed.

Lemma log_shape (args : list value) (w : world) :
  match Runtime.log args w with
  | Normal w' => exists text, w' = push_log text w
  | Abrupt _ => True
  end.
Proof.
  unfold Runtime.log. destruct (Runtime.log_parts args); simpl; eauto.
Qed.

Lemma runtime_of_punctual self context rt :
  Runtime.runtime_of self context = Normal rt -> punctual rt.
Proof.
  intros Hrt. destruct (runtime_of_built _ _ _ Hrt) as (Hts & Has & Hss & Hlog).
  split.
  - intros key f args w H.
    apply (built_origin _ _ _ _ _ _ Hts) in H as (tool & _ & _ & ->).
    destruct (createToolFunction_shape (Runtime.client self) tool context args w)
      as [(ms & s & r & -> & _) | ->]; simpl; auto.
  - intros key f prompt w H.
    apply (built_origin _ _ _ _ _ _ Has) in H as (agent & _ & _ & ->).
    destruct (createAgentFunction_shape (Runtime.client self) agent context prompt w)
      as (err & r & -> & _). reflexivity.
  - intros key f w H.
    apply (built_origin _ _ _ _ _ _ Hss) in H as (skill & _ & _ & ->).
    destruct (createSkillFunction_shape (Runtime.client self) skill context w)
      as (err & r & -> & _). reflexivity.
  - intros args w w' H. rewrite Hlog in H. pose proof (log_shape args w) as L.
    rewrite H in L. destruct L as (text & ->). reflexivity.
Qed.

Lemma setTimeout_delay_positive (ms : Z) : 1 <= Z.of_N (setTimeout_delay ms).
Proof.
  unfold setTimeout_delay.
  destruct (1 <=? ms)%Z eqn:E1; [| simpl; lia].
  destruct (ms <=? 2147483647)%Z; simpl; [| lia].
  apply Z.leb_le in E1. lia.
Qed.

Lemma over_before_lt (d : Z) (o : Runtime.outcome) :
  over_before d o = true -> now (last_store o) < d.
Proof.
  destruct o; simpl; intros H; try discriminate; now apply Z.ltb_lt.
Qed.

Section Race.
Variable rt : Runtime.PTCRuntime.
Hypothesis rt_punctual : punctual rt.

Let free := Runtime.run rt None.

Lemma await_free_monotone {A : Type} (w : world) (p : promise A) k :
  on_time w p ->
  (forall s w1, now w <= now w1 ->
     timer_fired (k s w1) = false /\ now w1 <= now (last_store (k s w1))) ->
  timer_fired (Runtime.await None p k) = false
  /\ now w <= now (last_store (Runtime.await None p k)).
Proof.
  intros Hp Hk. destruct p as [s w1 | asleep ms s awake | asleep]; simpl in *.
  - destruct (Hk s w1) as [? ?]; [lia |]. split; [assumption | lia].
  - destruct Hp as [_ Hawake]. destruct (Hk s awake) as [? ?]; [lia |].
    split; [assumption | lia].
  - split; [reflexivity | lia].
Qed.

Lemma call_free_monotone {F A : Type} namespace (o : Namespace.t F) key (w : world)
    (apply : F -> promise A) k :
  (forall f, o !! key = Some f -> on_time w (apply f)) ->
  (forall s w1, now w <= now w1 ->
     timer_fired (k s w1) = false /\ now w1 <= now (last_store (k s w1))) ->
  timer_fired (Runtime.call namespace o key None w apply k) = false
  /\ now w <= now (last_store (Runtime.call namespace o key None w apply k)).
Proof.
  intros Hp Hk. unfold Runtime.call.
  destruct (Namespace.resolve namespace o key) as [f | | e] eqn:E.
  - apply await_free_monotone; [| exact Hk]. apply Hp. eapply resolve_Bound. exact E.
  - simpl. split; [reflexivity | lia].
  - apply Hk. lia.
Qed.

(** Left to itself, a run never ends in the timer, and the clock never
    goes back. *)
Lemma free_monotone (fn : Runtime.script) :
  forall w, timer_fired (free fn w) = false /\ now w <= now (last_store (free fn w)).
Proof.
  unfold free.
  induction fn as [v | e | args k IH | key args k IH | key prompt k IH | key k IH
                   | ms k IH | ms k IH | |]; intros w; cbn [Runtime.run];
    try (simpl; split; [reflexivity | lia]).
  - destruct (Runtime.rt_log rt args w) as [w' |] eqn:E; [| apply IH].
    apply (log_on_time rt rt_punctual) in E. rewrite <- E. apply IH.
  - apply call_free_monotone;
      [intros f Hf; eapply tools_on_time; eassumption | intros; apply IH].
  - apply call_free_monotone;
      [intros f Hf; eapply agents_on_time; eassumption | intros; apply IH].
  - apply call_free_monotone;
      [intros f Hf; eapply skills_on_time; eassumption | intros; apply IH].
  - apply await_free_monotone; [simpl; split; reflexivity | intros; apply IH].
  - destruct (IH (tick ms w)) as [? H]. split; [assumption |]. simpl in H. lia.
Qed.

Lemma await_undisturbed {A : Type} (d : Z) (w : world) (p : promise A) kf ka :
  on_time w p ->
  (forall s w1, now w1 <= now (last_store (kf s w1))) ->
  (forall s w1, over_before d (kf s w1) = true -> ka s w1 = kf s w1) ->
  over_before d (Runtime.await None p kf) = true ->
  Runtime.await (Some d) p ka = Runtime.await None p kf.
Proof.
  intros Hp Hmono Hk Hover.
  destruct p as [s w1 | asleep ms s awake | asleep]; simpl in *.
  - now apply Hk.
  - destruct Hp as [Hasleep Hawake].
    pose proof (over_before_lt _ _ Hover) as Hlt.
    pose proof (Hmono s awake) as Hle.
    replace (d <=? now asleep + Z.of_N ms)%Z with false
      by (symmetry; apply Z.leb_gt; lia).
    now apply Hk.
  - discriminate Hover.
Qed.

Lemma call_undisturbed {F A : Type} namespace (o : Namespace.t F) key (d : Z)
    (w : world) (apply : F -> promise A) kf ka :
  (forall f, o !! key = Some f -> on_time w (apply f)) ->
  (forall s w1, now w1 <= now (last_store (kf s w1))) ->
  (forall s w1, over_before d (kf s w1) = true -> ka s w1 = kf s w1) ->
  over_before d (Runtime.call namespace o key None w apply kf) = true ->
  Runtime.call namespace o key (Some d) w apply ka
  = Runtime.call namespace o key None w apply kf.
Proof.
  intros Hp Hmono Hk. unfold Runtime.call.
  destruct (Namespace.resolve namespace o key) as [f | | e] eqn:E.
  - apply (await_undisturbed d w); [| exact Hmono | exact Hk].
    apply Hp. eapply resolve_Bound. exact E.
  - reflexivity.
  - apply Hk.
Qed.

(** A run that, left to itself, is over before the deadline is the same
    run under the timer. *)
Lemma run_undisturbed (d : Z) (fn : Runtime.script) :
  forall w,
    over_before d (free fn w) = true -> Runtime.run rt (Some d) fn w = free fn w.
Proof.
  unfold free.
  induction fn as [v | e | args k IH | key args k IH | key prompt k IH | key k IH
                   | ms k IH | ms k IH | |]; intros w; cbn [Runtime.run];
    try reflexivity.
  - destruct (Runtime.rt_log rt args w) as [w' |]; apply IH.
  - apply call_undisturbed;
      [intros f Hf; eapply tools_on_time; eassumption
      | intros; apply free_monotone | intros; now apply IH].
  - apply call_undisturbed;
      [intros f Hf; eapply agents_on_time; eassumption
      | intros; apply free_monotone | intros; now apply IH].
  - apply call_undisturbed;
      [intros f Hf; eapply skills_on_time; eassumption
      | intros; apply free_monotone | intros; now apply IH].
  - apply (await_undisturbed d w);
      [simpl; split; reflexivity | intros; apply free_monotone | intros; now apply IH].
  - apply IH.
  - simpl. discriminate.
Qed.

Lemma await_overtaken {A : Type} (d : Z) (w : world) (p : promise A) kf ka :
  on_time w p ->
  now w < d ->
  (forall s w1, now w1 < d -> over_before d (kf s w1) = false ->
     timer_fired (ka s w1) = true) ->
  over_before d (Runtime.await None p kf) = false ->
  timer_fired (Runtime.await (Some d) p ka) = true.
Proof.
  intros Hp Hw Hk Hover.
  destruct p as [s w1 | asleep ms s awake | asleep]; simpl in *.
  - apply Hk; [lia | assumption].
  - destruct Hp as [Hasleep Hawake].
    destruct (d <=? now asleep + Z.of_N ms)%Z eqn:E; [reflexivity |].
    apply Z.leb_gt in E. apply Hk; [lia | assumption].
  - reflexivity.
Qed.

Lemma call_overtaken {F A : Type} namespace (o : Namespace.t F) key (d : Z)
    (w : world) (apply : F -> promise A) kf ka :
  (forall f, o !! key = Some f -> on_time w (apply f)) ->
  now w < d ->
  (forall s w1, now w1 < d -> over_before d (kf s w1) = false ->
     timer_fired (ka s w1) = true) ->
  over_before d (Runtime.call namespace o key None w apply kf) = false ->
  timer_fired (Runtime.call namespace o key (Some d) w apply ka) = true.
Proof.
  intros Hp Hw Hk. unfold Runtime.call.
  destruct (Namespace.resolve namespace o key) as [f | | e] eqn:E.
  - apply (await_overtaken d w); [| exact Hw | exact Hk].
    apply Hp. eapply resolve_Bound. exact E.
  - simpl. intros H. apply Z.ltb_ge in H. lia.
  - now apply Hk.
Qed.

(** A run that only waits and, left to itself, is not over before the
    deadline, ends in the timer. *)
Lemma run_overtaken (d : Z) (fn : Runtime.script) :
  waits_only fn ->
  forall w,
    now w < d ->
    over_before d (free fn w) = false ->
    timer_fired (Runtime.run rt (Some d) fn w) = true.
Proof.
  unfold free.
  induction 1 as [v | e | args k _ IH | key args k _ IH | key prompt k _ IH
                  | key k _ IH | ms k _ IH | |]; intros w Hw; cbn [Runtime.run].
  - simpl. intros H. apply Z.ltb_ge in H. lia.
  - simpl. intros H. apply Z.ltb_ge in H. lia.
  - destruct (Runtime.rt_log rt args w) as [w' |] eqn:E; [| now apply IH].
    apply (log_on_time rt rt_punctual) in E. apply IH. lia.
  - apply call_overtaken;
      [intros f Hf; eapply tools_on_time; eassumption | exact Hw
      | intros; now apply IH].
  - apply call_overtaken;
      [intros f Hf; eapply agents_on_time; eassumption | exact Hw
      | intros; now apply IH].
  - apply call_overtaken;
      [intros f Hf; eapply skills_on_time; eassumption | exact Hw
      | intros; now apply IH].
  - apply (await_overtaken d w);
      [simpl; split; reflexivity | exact Hw | intros; now apply IH].
  - reflexivity.
  - simpl. intros H. apply Z.ltb_ge in H. lia.
Qed.

End Race.

Lemma await_gives_way {A : Type} (deadline : option Z) (p : promise A) k :
  (forall s w, holds_thread (k s w) = false) ->
  holds_thread (Runtime.await deadline p k) = false.
Proof.
  intros Hk. destruct p as [s w1 | asleep ms s awake | asleep]; simpl.
  - apply Hk.
  - destruct deadline as [d |]; [| apply Hk].
    destruct (d <=? now asleep + Z.of_N ms)%Z; [reflexivity | apply Hk].
  - now destruct deadline.
Qed.

Lemma call_gives_way {F A : Type} namespace (o : Namespace.t F) key deadline
    (w : world) (apply : F -> promise A) k :
  (forall s w, holds_thread (k s w) = false) ->
  holds_thread (Runtime.call namespace o key deadline w apply k) = false.
Proof.
  intros Hk. unfold Runtime.call.
  destruct (Namespace.resolve namespace o key);
    [now apply await_gives_way | reflexivity | apply Hk].
Qed.

(** A script that has no endless loop never holds the thread for ever. *)
Lemma gives_way_never_blocks rt deadline (fn : Runtime.script) :
  gives_way fn -> forall w, holds_thread (Runtime.run rt deadline fn w) = false.
Proof.
  induction 1 as [v | e | args k _ IH | key args k _ IH | key prompt k _ IH
                  | key k _ IH | ms k _ IH | ms k _ IH |]; intros w; cbn [Runtime.run];
    try reflexivity.
  - destruct (Runtime.rt_log rt args w); apply IH.
  - apply call_gives_way. intros; apply IH.
  - apply call_gives_way. intros; apply IH.
  - apply call_gives_way. intros; apply IH.
  - apply await_gives_way. intros; apply IH.
  - apply IH.
  - now destruct deadline.
Qed.

Lemma await_followed {A : Type} (deadline : option Z) (p : promise A) k :
  (forall s w, followed (k s w) = true) ->
  followed (Runtime.await deadline p k) = true.
Proof.
  intros Hk. destruct p as [s w1 | asleep ms s awake | asleep]; simpl.
  - apply Hk.
  - destruct deadline as [d |]; [| apply Hk].
    destruct (d <=? now asleep + Z.of_N ms)%Z; [reflexivity | apply Hk].
  - now destruct deadline.
Qed.

Lemma call_followed {F A : Type} namespace (o : Namespace.t F) key deadline
    (w : world) (apply : F -> promise A) k :
  apart key = true ->
  (forall s w, followed (k s w) = true) ->
  followed (Runtime.call namespace o key deadline w apply k) = true.
Proof.
  unfold apart, Runtime.call, Namespace.resolve, Namespace.among.
  rewrite existsb_app. intros Hkey Hk.
  apply negb_true_iff, orb_false_iff in Hkey as [Hf Ho].
  destruct (Namespace.binding o key); [now apply await_followed |].
  unfold Namespace.among. rewrite Hf, Ho.
  destruct (Namespace.proto o); [destruct (existsb _ Namespace.restricted) |];
    simpl; apply Hk.
Qed.

(** A script that calls its namespaces under no name of an inherited
    method is followed to its end. *)
Lemma calls_apart_followed rt deadline (fn : Runtime.script) :
  calls_apart fn -> forall w, followed (Runtime.run rt deadline fn w) = true.
Proof.
  induction 1 as [v | e | args k _ IH | key args k Hkey _ IH | key prompt k Hkey _ IH
                  | key k Hkey _ IH | ms k _ IH | ms k _ IH | |]; intros w;
    cbn [Runtime.run]; try reflexivity.
  - destruct (Runtime.rt_log rt args w); apply IH.
  - apply call_followed; [exact Hkey | intros; apply IH].
  - apply call_followed; [exact Hkey | intros; apply IH].
  - apply call_followed; [exact Hkey | intros; apply IH].
  - apply await_followed. intros; apply IH.
  - apply IH.
  - now destruct deadline.
Qed.

Lemma executeWithTimeout_followed self fn rt w :
  calls_apart fn ->
  followed (Runtime.executeWithTimeout self (Runtime.Program fn) rt w) = true.
Proof.
  intros Hfn. unfold Runtime.executeWithTimeout.
  pose proof (calls_apart_followed rt
                (Some (now w + Z.of_N (setTimeout_delay
                                         (Runtime.Options.timeout (Runtime.options self)))))
                fn Hfn w) as H.
  destruct (Runtime.run rt _ fn w); simpl in *; auto.
Qed.

Lemma executeWithTimeout_ends self code rt w :
  timer_fired (Runtime.executeWithTimeout self code rt w) = false
  /\ forall w', Runtime.executeWithTimeout self code rt w <> Runtime.Dormant w'.
Proof.
  unfold Runtime.executeWithTimeout. destruct code as [message | fn]; simpl.
  - split; [reflexivity | discriminate].
  - pose proof (run_armed rt
                  (now w + Z.of_N (setTimeout_delay
                                     (Runtime.Options.timeout (Runtime.options self))))
                  fn w) as H.
    destruct (Runtime.run rt _ fn w); simpl; split; try reflexivity; try discriminate.
    exact H.
Qed.

Lemma executeWithTimeout_gives_way self fn rt w :
  gives_way fn ->
  holds_thread (Runtime.executeWithTimeout self (Runtime.Program fn) rt w) = false.
Proof.
  intros Hfn. unfold Runtime.executeWithTimeout.
  pose proof (gives_way_never_blocks rt
                (Some (now w + Z.of_N (setTimeout_delay
                                         (Runtime.Options.timeout (Runtime.options self)))))
                fn Hfn w) as H.
  destruct (Runtime.run rt _ fn w); simpl in *; auto.
Qed.





Lemma waits_only_log_then_read : waits_only Fixtures.log_then_read.
Proof.
  constructor. intros [e |]; simpl; [constructor |].
  constructor. intros [output | e]; constructor.
Qed.



(** ** The logging function *)

Lemma log_part_shown (arg : value) :
  loggable arg = true ->
  exists part,
    match arg with
    | VString s => Normal (Some s)
    | _ => stringify arg
    end = Normal part
    /\ default EmptyString part = shown arg.
Proof.
  unfold loggable, shown.
  destruct arg;
    try (destruct (stringify _) as [[text |] |]; intros H;
         [eexists; split; reflexivity | eexists; split; reflexivity | discriminate H]).
  intros _. eexists; split; reflexivity.
Qed.

Lemma log_parts_shown (args : list value) :
  forallb loggable args = true ->
  exists parts,
    Runtime.log_parts args = Normal parts
    /\ map (default EmptyString) parts = map shown args.
Proof.
  induction args as [| arg rest IH]; intros H; [exists []; auto |].
  cbn [forallb] in H. apply andb_prop in H as [Harg Hrest].
  destruct (IH Hrest) as (parts & E & Hparts).
  destruct (log_part_shown arg Harg) as (part & Epart & Hpart).
  exists (part :: parts). cbn [Runtime.log_parts]. rewrite Epart, E.
  split; [reflexivity |]. cbn [map]. now rewrite Hpart, Hparts.
Qed.

Lemma log_line (args : list value) (w : world) :
  forallb loggable args = true -> Runtime.log args w = Normal (push_log (line args) w).
Proof.
  intros H. destruct (log_parts_shown args H) as (parts & E & Hparts).
  unfold Runtime.log, join, line. rewrite E. simpl. now rewrite Hparts.
Qed.

(** C10, as the code has it.  A call of the logging function whose
    arguments other than strings [JSON.stringify] accepts pushes exactly
    one line on [logs] and touches nothing else: the arguments joined by
    one space, strings as they are, the others by their JSON text, or
    nothing where [JSON.stringify] gives [undefined].  Lines of successive
    calls follow one another in the order of the calls. *)
Theorem log_pushes_one_line :
  (forall args w,
     forallb loggable args = true ->
     Runtime.log args w = Normal (push_log (line args) w))
  /\ (forall self context runtime deadline calls v w,
        Runtime.runtime_of self context = Normal runtime ->
        Forall (fun args => forallb loggable args = true) calls ->
        exists w',
          Runtime.run runtime deadline (logging calls (Runtime.Return v)) w
          = Runtime.Settled (Fulfilled v) w'
          /\ logs w' = logs w ++ map line calls
          /\ callRecords w' = callRecords w
          /\ now w' = now w).
Proof.
  split; [exact log_line |].
  intros self context runtime deadline calls v w Hruntime.
  destruct (runtime_of_built _ _ _ Hruntime) as (_ & _ & _ & Hlog).
  revert w.
  induction calls as [| args rest IH]; intros w H; simpl.
  - exists w. rewrite app_nil_r. auto.
  - inversion H as [| ? ? Hargs Hrest]; subst.
    rewrite Hlog, (log_line args w Hargs).
    destruct (IH (push_log (line args) w) Hrest) as (w' & -> & Hlogs & Hcalls & Hnow).
    exists w'. split; [reflexivity |]. rewrite Hlogs, Hcalls, Hnow. simpl.
    rewrite <- app_assoc. auto.
Qed.

Lemma log_pushes_one_line_witness :
  forallb loggable [VString "count:"; VNumber 3; VUndefined; VArray [VBool true; VNull]]
  = true
  /\ Runtime.log [VString "count:"; VNumber 3; VUndefined; VArray [VBool true; VNull]]
       (boot 0)
     = Normal (push_log "count: 3  [true,null]" (boot 0)).
Proof.
  split; [reflexivity |].
  exact (proj1 log_pushes_one_line
           [VString "count:"; VNumber 3; VUndefined; VArray [VBool true; VNull]]
           (boot 0) eq_refl).
Defined.

(** C10, as stated, fails: [log("n =", 10n)] raises and pushes nothing. *)
Lemma log_bigint_pushes_nothing :
  Runtime.log [VString "n ="; VBigInt 10] (boot 0)
  = Abrupt (TypeError "Do not know how to serialize a BigInt")
  /\ Runtime.execute Fixtures.plain (Runtime.Program Fixtures.log_bigint)
       Fixtures.session 0
     = Runtime.Returns
         {| PTCExecutionResult.success := false;
            PTCExecutionResult.result := None;
            PTCExecutionResult.error := Some "Do not know how to serialize a BigInt"%string;
            PTCExecutionResult.logs := [];
            PTCExecutionResult.toolCalls := [] |}.
Proof. split; reflexivity. Qed.

(** ** The catalog *)

Lemma get_get_opt (v : value) (k : string) (x : value) :
  get v k = Normal x -> x = get_opt v k.
Proof. destruct v; simpl; intros [= <-]; reflexivity. Qed.

Lemma includes_required_names (names : list value) (name : string) :
  includes names name = true
  <-> In name (omap (fun v => match v with VString s => Some s | _ => None end) names).
Proof.
  unfold includes. induction names as [| v names IH]; simpl; [easy |].
  destruct v; simpl; try exact IH.
  rewrite orb_true_iff, IH, String.eqb_eq. reflexivity.
Qed.

Lemma parameter_shape (schema : value) (name : string) (def : value) (p : PTCParameter.t) :
  Generators.parameter schema name def = Normal p ->
  (PTCParameter.required p = Some true <-> In name (required_names schema))
  /\ (PTCParameter.required p = Some false <-> ~ In name (required_names schema))
  /\ PTCParameter.type p = coalesce (get_opt def "type") (VString "string").
Proof.
  unfold Generators.parameter.
  destruct (get def "type") as [type |] eqn:Etype; simpl; [| discriminate].
  destruct (get def "description") as [description |]; simpl; [| discriminate].
  destruct (get def "enum") as [enum |]; simpl; [| discriminate].
  destruct (get def "items") as [items |]; simpl; [| discriminate].
  destruct (get def "properties") as [properties |]; simpl; [| discriminate].
  intros [= <-]. simpl. apply get_get_opt in Etype as ->.
  split; [| split; [| reflexivity]]; unfold required_names;
    destruct (get_opt schema "required") as [| | | | | | names | |]; simpl;
    try (split; [discriminate | tauto]); try (split; [intros _; tauto | reflexivity]).
  - rewrite <- includes_required_names. split; congruence.
  - rewrite <- includes_required_names.
    destruct (includes names name); split; congruence.
Qed.

Lemma Obj_put_In {A : Type} (k : string) (a : A) (o : list (string * A)) :
  forall k' a', In (k', a') (Obj.put k a o) -> In (k', a') o \/ (k', a') = (k, a).
Proof.
  induction o as [| [k0 a0] o IH]; simpl; intros k' a' H.
  - destruct H as [H | []]. right. congruence.
  - destruct (String.eqb_spec k0 k) as [-> | Hne]; simpl in H.
    + destruct H as [H | H]; [right; congruence | left; now right].
    + destruct H as [H | H]; [left; now left |].
      destruct (IH _ _ H) as [? | ?]; [left; now right | now right].
Qed.

Lemma Obj_put_key {A : Type} (k : string) (a : A) (o : list (string * A)) :
  (exists a', In (k, a') (Obj.put k a o))
  /\ forall k' a', In (k', a') o -> exists a'', In (k', a'') (Obj.put k a o).
Proof.
  induction o as [| [k0 a0] o [IHk IHo]]; simpl.
  - split; [exists a; now left | intros ? ? []].
  - destruct (String.eqb_spec k0 k) as [-> | Hne]; simpl.
    + split; [exists a; now left |].
      intros k' a' [[= <- <-] | H]; [exists a; now left | exists a'; now right].
    + split; [destruct IHk as [a' ?]; exists a'; now right |].
      intros k' a' [[= <- <-] | H]; [exists a0; now left |].
      destruct (IHo _ _ H) as [a'' ?]. exists a''. now right.
Qed.

Lemma eachProperty_sound (schema : value) (props : list (string * value)) :
  forall acc parameters,
    Generators.eachProperty schema props acc = Normal parameters ->
    forall name p,
      In (name, p) parameters ->
      In (name, p) acc
      \/ exists def, In (name, def) props /\ Generators.parameter schema name def = Normal p.
Proof.
  induction props as [| [k def] props IH]; simpl; intros acc parameters H name p Hin.
  - injection H as <-. now left.
  - destruct (Generators.parameter schema k def) as [q |] eqn:E; simpl in H;
      [| discriminate].
    destruct (IH _ _ H _ _ Hin) as [Hacc | (def' & Hdef & Hp)].
    + unfold Obj.set in Hacc. destruct (String.eqb k "__proto__"); [now left |].
      apply Obj_put_In in Hacc as [? | [= -> ->]]; [now left |].
      right. exists def. split; [now left | assumption].
    + right. exists def'. split; [now right | assumption].
Qed.

Lemma eachProperty_complete (schema : value) (props : list (string * value)) :
  forall acc parameters,
    Generators.eachProperty schema props acc = Normal parameters ->
    (forall name p, In (name, p) acc -> exists p', In (name, p') parameters)
    /\ forall name def,
         In (name, def) props -> name <> "__proto__"%string ->
         exists p, In (name, p) parameters.
Proof.
  induction props as [| [k def] props IH]; simpl; intros acc parameters H.
  - injection H as <-. split; [eauto | intros ? ? []].
  - destruct (Generators.parameter schema k def) as [q |] eqn:E; simpl in H;
      [| discriminate].
    destruct (IH _ _ H) as [Hacc Hprops]. split.
    + intros name p Hin. unfold Obj.set in Hacc.
      destruct (String.eqb k "__proto__"); [eauto |].
      destruct (proj2 (Obj_put_key k q acc) _ _ Hin) as [p' Hp']. eauto.
    + intros name def' [[= <- <-] | Hin] Hname; [| eauto].
      unfold Obj.set in Hacc.
      destruct (String.eqb_spec k "__proto__") as [-> | _]; [congruence |].
      destruct (proj1 (Obj_put_key k q acc)) as [p' Hp']. eauto.
Qed.

Lemma eachTool_shape (toolList : list Host.ToolListItem.t) :
  forall acc tools,
    Generators.eachTool toolList acc = Normal tools ->
    exists fresh,
      tools = acc ++ fresh
      /\ Forall2 (fun raw tool =>
                    PTCTool.name tool = Host.ToolListItem.id raw
                    /\ PTCTool.description tool
                       = default EmptyString (Host.ToolListItem.description raw)
                    /\ Generators.toolParameters (Host.ToolListItem.parameters raw)
                       = Normal (PTCTool.parameters tool))
           toolList fresh.
Proof.
  induction toolList as [| raw rest IH]; simpl; intros acc tools H.
  - injection H as <-. exists []. rewrite app_nil_r. split; [reflexivity | constructor].
  - destruct (Generators.toolParameters (Host.ToolListItem.parameters raw))
      as [parameters |] eqn:E; simpl in H; [| discriminate].
    destruct (IH _ _ H) as (fresh & -> & Hfresh).
    eexists (_ :: fresh). rewrite <- app_assoc. split; [reflexivity |].
    constructor; [| exact Hfresh]. simpl. auto.
Qed.

(** C7. The parameter mapping of a raw tool is empty when its schema has no
    [properties]; every parameter in it comes from a property of that name
    and is marked required exactly when the name is in the schema's
    [required] list, with the type [string] when the property has none;
    every property but [__proto__] has its parameter.  The tools fetched
    are the raw tools in order, each with this mapping. *)
Theorem tool_normalization :
  (forall schema,
     get_opt schema "properties" = VUndefined ->
     Generators.toolParameters schema = Normal [])
  /\ (forall schema parameters name p,
        Generators.toolParameters schema = Normal parameters ->
        In (name, p) parameters ->
        (PTCParameter.required p = Some true <-> In name (required_names schema))
        /\ (PTCParameter.required p = Some false <-> ~ In name (required_names schema))
        /\ exists def,
             In (name, def) (entries (get_opt schema "properties"))
             /\ (get_opt def "type" = VUndefined ->
                 PTCParameter.type p = VString "string")
             /\ (nullish (get_opt def "type") = false ->
                 PTCParameter.type p = get_opt def "type"))
  /\ (forall schema parameters name def,
        Generators.toolParameters schema = Normal parameters ->
        In (name, def) (entries (get_opt schema "properties")) ->
        truthy (get_opt schema "properties") = true ->
        name <> "__proto__"%string ->
        exists p, In (name, p) parameters)
  /\ (forall client provider model directory tools,
        Generators.fetchAvailableTools client provider model directory = Normal tools ->
        exists response,
          Host.tool_list client
            {| Host.ToolQuery.provider := provider;
               Host.ToolQuery.model := model;
               Host.ToolQuery.directory := directory |} = Normal response
          /\ Forall2 (fun raw tool =>
                        PTCTool.name tool = Host.ToolListItem.id raw
                        /\ PTCTool.description tool
                           = default EmptyString (Host.ToolListItem.description raw)
                        /\ Generators.toolParameters (Host.ToolListItem.parameters raw)
                           = Normal (PTCTool.parameters tool))
               (default [] (Host.Listing.data response)) tools).
Proof.
  split; [| split; [| split]].
  - intros schema H. unfold Generators.toolParameters. now rewrite H.
  - intros schema parameters name p H Hin. unfold Generators.toolParameters in H.
    destruct (truthy (get_opt schema "properties")
              && typeof_object (get_opt schema "properties")).
    + destruct (eachProperty_sound _ _ _ _ H _ _ Hin) as [[] | (def & Hdef & Hp)].
      destruct (parameter_shape _ _ _ _ Hp) as (Hreq & Hopt & Htype).
      split; [exact Hreq |]. split; [exact Hopt |].
      exists def. split; [exact Hdef |]. rewrite Htype. unfold coalesce.
      split; [now intros -> | now intros ->].
    + injection H as <-. destruct Hin.
  - intros schema parameters name def H Hin Htruthy Hname.
    unfold Generators.toolParameters in H. rewrite Htruthy in H.
    destruct (typeof_object (get_opt schema "properties")) eqn:E; simpl in H.
    + exact (proj2 (eachProperty_complete _ _ _ _ H) _ _ Hin Hname).
    + destruct (get_opt schema "properties"); simpl in *; try discriminate;
        destruct Hin.
  - intros client provider model directory tools H.
    unfold Generators.fetchAvailableTools in H.
    destruct (Host.tool_list client _) as [response |]; simpl in H; [| discriminate].
    exists response. split; [reflexivity |].
    destruct (truthy (Host.Listing.error response)).
    + destruct (stringify (Host.Listing.error response)); discriminate.
    + destruct (eachTool_shape _ _ _ H) as (fresh & -> & Hfresh). exact Hfresh.
Qed.

Lemma tool_normalization_witness :
  In "filePath"%string (required_names Fixtures.read_schema)
  /\ ~ In "limit"%string (required_names Fixtures.read_schema)
  /\ exists parameters filePath limit,
       Generators.toolParameters Fixtures.read_schema = Normal parameters
       /\ parameters = [("filePath"%string, filePath); ("limit"%string, limit)]
       /\ PTCParameter.required filePath = Some true
       /\ PTCParameter.required limit = Some false
       /\ PTCParameter.type limit = VString "string".
Proof.
  split; [now left |].
  split; [intros [H | []]; discriminate H |].
  eexists _, _, _. split; [reflexivity |]. split; [reflexivity |].
  split; [| split].
  - apply (proj1 (proj2 tool_normalization) Fixtures.read_schema _ "filePath"%string _
             eq_refl ltac:(now left)).
    now left.
  - apply (proj1 (proj2 tool_normalization) Fixtures.read_schema _ "limit"%string _
             eq_refl ltac:(right; now left)).
    intros [H | []]; discriminate H.
  - reflexivity.
Defined.

(** C8. When the host's agent registry answers without an error, the agents
    listed are the raw agents whose mode is not [primary], in the
    registry's order, each reduced to its name, description and mode. *)
Theorem agent_catalog_excludes_primary :
  forall client response,
    Host.app_agents client = Normal response ->
    truthy (Host.Listing.error response) = false ->
    let registry := default [] (Host.Listing.data response) in
    exists agents,
      Generators.fetchAvailableAgents client = Normal agents
      /\ agents
         = map descriptor
             (List.filter (fun raw => negb (Generators.is_primary (Host.Agent.mode raw)))
                registry)
      /\ Forall (fun agent => PTCAgent.mode agent <> Host.primary) agents
      /\ (forall raw,
            In raw registry -> Host.Agent.mode raw <> Host.primary ->
            In {| PTCAgent.name := Host.Agent.name raw;
                  PTCAgent.description := Host.Agent.description raw;
                  PTCAgent.mode := Host.Agent.mode raw |} agents)
      /\ (forall agent,
            In agent agents ->
            exists raw,
              In raw registry
              /\ Host.Agent.mode raw <> Host.primary
              /\ PTCAgent.name agent = Host.Agent.name raw
              /\ PTCAgent.description agent = Host.Agent.description raw
              /\ PTCAgent.mode agent = Host.Agent.mode raw).
Proof.
  intros client response Hresponse Herror registry.
  unfold Generators.fetchAvailableAgents. rewrite Hresponse. simpl. rewrite Herror.
  fold registry. eexists. split; [reflexivity |]. split; [reflexivity |].
  assert (Hmode : forall m, negb (Generators.is_primary m) = true <-> m <> Host.primary)
    by (intros []; simpl; split; congruence).
  split; [| split].
  - apply List.Forall_forall. intros agent Hin.
    apply in_map_iff in Hin as (raw & <- & Hraw).
    apply filter_In in Hraw as [_ Hraw]. now apply Hmode.
  - intros raw Hin Hraw. apply (in_map descriptor).
    apply filter_In. split; [exact Hin | now apply Hmode].
  - intros agent Hin. apply in_map_iff in Hin as (raw & <- & Hraw).
    apply filter_In in Hraw as [Hin Hraw]. exists raw.
    split; [exact Hin |]. split; [now apply Hmode |]. simpl. auto.
Qed.

Lemma agent_catalog_excludes_primary_witness :
  truthy VNull = false
  /\ Generators.fetchAvailableAgents Fixtures.registry
     = Normal [ {| PTCAgent.name := "explore";
                   PTCAgent.description := Some "Explores the code"%string;
                   PTCAgent.mode := Host.subagent |} ].
Proof.
  split; [reflexivity |].
  destruct (agent_catalog_excludes_primary Fixtures.registry _ eq_refl eq_refl)
    as (agents & -> & -> & _).
  reflexivity.
Defined.

(** ** The signature listing *)

Lemma mapTypeToTS_cases (type : value) :
  match type with
  | VString s =>
      s = "string"%string \/ s = "number"%string \/ s = "integer"%string
      \/ s = "boolean"%string \/ s = "array"%string \/ s = "object"%string
      \/ Generators.mapTypeToTS type = "unknown"%string
  | _ => Generators.mapTypeToTS type = "unknown"%string
  end.
Proof.
  destruct type; try reflexivity. unfold Generators.mapTypeToTS.
  destruct (String.eqb_spec s "string"); [tauto |].
  destruct (String.eqb_spec s "number"); [tauto |].
  destruct (String.eqb_spec s "integer"); [tauto |]. simpl.
  destruct (String.eqb_spec s "boolean"); [tauto |].
  destruct (String.eqb_spec s "array"); [tauto |].
  destruct (String.eqb_spec s "object"); tauto.
Qed.

(** C9. With the one tool [read-file], whose one parameter [filePath] is a
    required string, the listing opens with the heading [// Available
    Tools], an empty line, the tool's description, and the line

      [async function read_file(args: { filePath: string }): Promise<string>]

    before the agents' heading.  Types are displayed by the table of
    [mapTypeToTS], and a parameter that is not required has [?] after its
    name. *)
Theorem read_file_signature :
  (forall description filePath agents skills,
     PTCParameter.type filePath = VString "string" ->
     PTCParameter.required filePath = Some true ->
     exists rest,
       Generators.signature_lines [read_file description filePath] agents skills
       = [ "// Available Tools"%string;
           EmptyString;
           ("// " ++ description)%string;
           "async function read_file(args: { filePath: string }): Promise<string>"%string;
           EmptyString;
           "// Available Agents (listing only - use 'task' tool for invocation)"%string;
           EmptyString ] ++ rest
       /\ Generators.generateFunctionSignatures [read_file description filePath]
            agents skills
          = String.concat Generators.LF
              ([ "// Available Tools"%string;
                 EmptyString;
                 ("// " ++ description)%string;
                 "async function read_file(args: { filePath: string }): Promise<string>"%string;
                 EmptyString;
                 "// Available Agents (listing only - use 'task' tool for invocation)"%string;
                 EmptyString ] ++ rest))
  /\ (Generators.mapTypeToTS (VString "string") = "string"%string
      /\ Generators.mapTypeToTS (VString "number") = "number"%string
      /\ Generators.mapTypeToTS (VString "integer") = "number"%string
      /\ Generators.mapTypeToTS (VString "boolean") = "boolean"%string
      /\ Generators.mapTypeToTS (VString "array") = "unknown[]"%string
      /\ Generators.mapTypeToTS (VString "object") = "Record<string, unknown>"%string)
  /\ (forall type,
        type <> VString "string" -> type <> VString "number" ->
        type <> VString "integer" -> type <> VString "boolean" ->
        type <> VString "array" -> type <> VString "object" ->
        Generators.mapTypeToTS type = "unknown"%string)
  /\ (forall name param,
        PTCParameter.required param = Some true ->
        Generators.param_signature (name, param)
        = (name ++ ": " ++ Generators.mapTypeToTS (PTCParameter.type param))%string)
  /\ (forall name param,
        PTCParameter.required param <> Some true ->
        Generators.param_signature (name, param)
        = (name ++ "?: " ++ Generators.mapTypeToTS (PTCParameter.type param))%string).
Proof.
  split; [| split; [| split; [| split]]].
  - intros description filePath agents skills Htype Hrequired.
    exists (concat (map Generators.agent_lines agents)
            ++ if (0 <? length skills)%nat
               then [ "// Available Skills (listing only - use 'skill' tool for invocation)"%string;
                      EmptyString ]
                    ++ concat (map Generators.skill_lines skills)
               else []).
    assert (Generators.signature_lines [read_file description filePath] agents skills
            = [ "// Available Tools"%string;
                EmptyString;
                ("// " ++ description)%string;
                "async function read_file(args: { filePath: string }): Promise<string>"%string;
                EmptyString;
                "// Available Agents (listing only - use 'task' tool for invocation)"%string;
                EmptyString ]
              ++ concat (map Generators.agent_lines agents)
              ++ if (0 <? length skills)%nat
                 then [ "// Available Skills (listing only - use 'skill' tool for invocation)"%string;
                        EmptyString ]
                      ++ concat (map Generators.skill_lines skills)
                 else []) as E.
    { unfold Generators.signature_lines.
      cbn [map concat app Generators.tool_lines read_file PTCTool.name
           PTCTool.description PTCTool.parameters Generators.param_signature].
      rewrite Htype, Hrequired.
      destruct (0 <? length skills)%nat; cbn; rewrite <- ?app_assoc;
        rewrite ?app_nil_r; reflexivity. }
    split; [exact E |].
    unfold Generators.generateFunctionSignatures. now rewrite E.
  - repeat split.
  - intros type H1 H2 H3 H4 H5 H6. pose proof (mapTypeToTS_cases type) as H.
    destruct type; try exact H.
    destruct H as [-> | [-> | [-> | [-> | [-> | [-> | H]]]]]];
      [now destruct H1 | now destruct H2 | now destruct H3 | now destruct H4
      | now destruct H5 | now destruct H6 | exact H].
  - intros name param H. unfold Generators.param_signature. rewrite H. reflexivity.
  - intros name param H. unfold Generators.param_signature.
    destruct (PTCParameter.required param) as [[] |];
      [now destruct H | reflexivity | reflexivity].
Qed.

Lemma read_file_signature_witness :
  PTCParameter.type Fixtures.required_string = VString "string"
  /\ PTCParameter.required Fixtures.required_string = Some true
  /\ exists rest,
       Generators.signature_lines [read_file "Read a file" Fixtures.required_string] [] []
       = [ "// Available Tools"%string;
           EmptyString;
           "// Read a file"%string;
           "async function read_file(args: { filePath: string }): Promise<string>"%string;
           EmptyString;
           "// Available Agents (listing only - use 'task' tool for invocation)"%string;
           EmptyString ] ++ rest.
Proof.
  split; [reflexivity |]. split; [reflexivity |].
  destruct (proj1 read_file_signature "Read a file"%string Fixtures.required_string
              [] [] eq_refl eq_refl) as (rest & E & _).
  exists rest. exact E.
Defined.

(** ** The scenarios of the specification, run *)

Example listing_of_read_file :
  Generators.generateFunctionSignatures
    [read_file "Read a file" Fixtures.required_string] [] []
  = ("// Available Tools" ++ Generators.LF
     ++ Generators.LF
     ++ "// Read a file" ++ Generators.LF
     ++ "async function read_file(args: { filePath: string }): Promise<string>"
     ++ Generators.LF
     ++ Generators.LF
     ++ "// Available Agents (listing only - use 'task' tool for invocation)"
     ++ Generators.LF)%string.
Proof. reflexivity. Qed.

Example return_two_succeeds :
  Runtime.execute Fixtures.plain (Runtime.Program Fixtures.return_two) Fixtures.session 0
  = Runtime.Returns
      {| PTCExecutionResult.success := true;
         PTCExecutionResult.result := Some (VNumber 2);
         PTCExecutionResult.error := None;
         PTCExecutionResult.logs := [];
         PTCExecutionResult.toolCalls := [] |}.
Proof. reflexivity. Qed.

Example failed_call_keeps_its_trace :
  Runtime.execute (Fixtures.reader Fixtures.failing None)
    (Runtime.Program Fixtures.log_then_read) Fixtures.session 1000
  = Runtime.Returns
      {| PTCExecutionResult.success := false;
         PTCExecutionResult.result := None;
         PTCExecutionResult.error := Some "Tool execute failed: 404"%string;
         PTCExecutionResult.logs := ["start"%string];
         PTCExecutionResult.toolCalls :=
           [ {| PTCToolCallRecord.tool := "read";
                PTCToolCallRecord.args := Fixtures.path;
                PTCToolCallRecord.result := None;
                PTCToolCallRecord.error := Some "Tool execute failed: 404"%string;
                PTCToolCallRecord.duration := 5 |} ] |}.
Proof. reflexivity. Qed.

Example timeout_keeps_the_logs :
  Runtime.execute (Fixtures.reader Fixtures.steady (Some 3))
    (Runtime.Program Fixtures.log_then_read) Fixtures.session 1000
  = Runtime.Returns
      {| PTCExecutionResult.success := false;
         PTCExecutionResult.result := None;
         PTCExecutionResult.error := Some "Execution timed out after 3ms"%string;
         PTCExecutionResult.logs := ["start"%string];
         PTCExecutionResult.toolCalls := [] |}.
Proof. reflexivity. Qed.

Example in_time_call_succeeds :
  Runtime.execute (Fixtures.reader Fixtures.steady (Some 6))
    (Runtime.Program Fixtures.log_then_read) Fixtures.session 1000
  = Runtime.Returns
      {| PTCExecutionResult.success := true;
         PTCExecutionResult.result := Some (VString "ok");
         PTCExecutionResult.error := None;
         PTCExecutionResult.logs := ["start"%string];
         PTCExecutionResult.toolCalls :=
           [ {| PTCToolCallRecord.tool := "read";
                PTCToolCallRecord.args := Fixtures.path;
                PTCToolCallRecord.result := Some "ok"%string;
                PTCToolCallRecord.error := None;
                PTCToolCallRecord.duration := 5 |} ] |}.
Proof. reflexivity. Qed.

Example tie_goes_to_the_timer :
  Runtime.execute (Fixtures.reader Fixtures.steady (Some 5))
    (Runtime.Program Fixtures.log_then_read) Fixtures.session 1000
  = Runtime.Returns
      {| PTCExecutionResult.success := false;
         PTCExecutionResult.result := None;
         PTCExecutionResult.error := Some "Execution timed out after 5ms"%string;
         PTCExecutionResult.logs := ["start"%string];
         PTCExecutionResult.toolCalls := [] |}.
Proof. reflexivity. Qed.

(** A tool named [__proto__] becomes the prototype of [tools], which
    keeps no own property, and [tools.__proto__] is its binding. *)
Example proto_tool_is_called :
  Runtime.execute Samples.proto_only
    (Runtime.Program
       (Runtime.AwaitTool "__proto__" Fixtures.path
          (Fixtures.rethrow (fun output => Runtime.Return (VString output)))))
    Fixtures.session 0
  = Runtime.Returns
      {| PTCExecutionResult.success := true;
         PTCExecutionResult.result := Some (VString "ok");
         PTCExecutionResult.error := None;
         PTCExecutionResult.logs := [];
         PTCExecutionResult.toolCalls :=
           [ {| PTCToolCallRecord.tool := "__proto__";
                PTCToolCallRecord.args := Fixtures.path;
                PTCToolCallRecord.result := Some "ok"%string;
                PTCToolCallRecord.error := None;
                PTCToolCallRecord.duration := 5 |} ] |}.
Proof. reflexivity. Qed.

Example proto_tool_is_no_own_property :
  exists toolFunctions,
    Runtime.toolFunctions Samples.proto_only Fixtures.session = Normal toolFunctions
    /\ size (Namespace.own toolFunctions) = 0%nat.
Proof. eexists. split; reflexivity. Qed.

Example missing_tool_is_not_a_function :
  Runtime.execute Fixtures.plain
    (Runtime.Program
       (Runtime.AwaitTool "read" Fixtures.path
          (Fixtures.rethrow (fun output => Runtime.Return (VString output)))))
    Fixtures.session 0
  = Runtime.Returns
      {| PTCExecutionResult.success := false;
         PTCExecutionResult.result := None;
         PTCExecutionResult.error := Some "tools.read is not a function"%string;
         PTCExecutionResult.logs := [];
         PTCExecutionResult.toolCalls := [] |}.
Proof. reflexivity. Qed.

(** [tools.toString] is the method of [Object.prototype]. *)
Example inherited_method_is_not_followed :
  Runtime.execute Fixtures.plain
    (Runtime.Program
       (Runtime.AwaitTool "toString" VUndefined (fun _ => Runtime.Return VNull)))
    Fixtures.session 0
  = Runtime.Unfollowed.
Proof. reflexivity. Qed.

Example request_of_execute_code :
  Generators.createToolFunction Fixtures.steady Fixtures.read
    (PtcTool.ptcContext Fixtures.steady Fixtures.turn "anthropic" "sonnet")
    Fixtures.path (boot 0)
  = Suspends
      {| now := 0; logs := []; callRecords := [];
         wire :=
           [ {| Host.Request.query_directory := None;
                Host.Request.body :=
                  {| Host.Body.sessionID := "ses_1";
                     Host.Body.messageID := "msg_1";
                     Host.Body.providerID := "anthropic";
                     Host.Body.modelID := None;
                     Host.Body.toolID := "read";
                     Host.Body.args := Fixtures.path;
                     Host.Body.agent := "build" |} |} ] |}
      5 (Fulfilled "ok"%string)
      {| now := 5; logs := [];
         callRecords :=
           [ {| PTCToolCallRecord.tool := "read";
                PTCToolCallRecord.args := Fixtures.path;
                PTCToolCallRecord.result := Some "ok"%string;
                PTCToolCallRecord.error := None;
                PTCToolCallRecord.duration := 5 |} ];
         wire :=
           [ {| Host.Request.query_directory := None;
                Host.Request.body :=
                  {| Host.Body.sessionID := "ses_1";
                     Host.Body.messageID := "msg_1";
                     Host.Body.providerID := "anthropic";
                     Host.Body.modelID := None;
                     Host.Body.toolID := "read";
                     Host.Body.args := Fixtures.path;
                     Host.Body.agent := "build" |} |} ] |}.
Proof. reflexivity. Qed.

(* ===================================================================== *)
(** * Further properties of the code *)
(* ===================================================================== *)

(** ** Names *)

Lemma sanitizeName_word_chars (name : string) :
  Forall (fun c => Runtime.word_char c = true)
    (list_ascii_of_string (Runtime.sanitizeName name)).
Proof.
  induction name as [| c rest IH]; simpl; constructor; [| exact IH].
  destruct (Runtime.word_char c) eqn:E; [exact E | reflexivity].
Qed.

Lemma sanitizeName_fixed (name : string) :
  Runtime.sanitizeName name = name
  <-> Forall (fun c => Runtime.word_char c = true) (list_ascii_of_string name).
Proof.
  induction name as [| c rest IH]; simpl.
  - split; [constructor | reflexivity].
  - split.
    + intros [= Hc Hrest]. constructor; [| now apply IH].
      destruct (Runtime.word_char c) eqn:E; [reflexivity |].
      subst c. discriminate E.
    + intros H. inversion H as [| ? ? Hc Hrest]; subst.
      rewrite Hc. f_equal. now apply IH.
Qed.

(** The name a capability is bound under has only characters of
    [[A-Za-z0-9_]]; a name is its own key exactly when it has no other
    character; and the listing derives the names it prints as the engine
    derives its keys. *)
Theorem sanitizeName_range_and_fixed_points :
  (forall name,
     Forall (fun c => Runtime.word_char c = true)
       (list_ascii_of_string (Runtime.sanitizeName name)))
  /\ (forall name,
        Runtime.sanitizeName name = name
        <-> Forall (fun c => Runtime.word_char c = true) (list_ascii_of_string name))
  /\ (forall name, Generators.sanitizeName name = Runtime.sanitizeName name).
Proof.
  split; [exact sanitizeName_word_chars |].
  split; [exact sanitizeName_fixed | exact sanitizeName_agree].
Qed.

Lemma sanitizeName_range_and_fixed_points_witness :
  Forall (fun c => Runtime.word_char c = true) (list_ascii_of_string "read_file")
  /\ Runtime.sanitizeName "read_file" = "read_file"%string.
Proof.
  assert (Forall (fun c => Runtime.word_char c = true)
            (list_ascii_of_string "read_file")) as H
    by (repeat constructor).
  split; [exact H |].
  exact (proj2 (proj1 (proj2 sanitizeName_range_and_fixed_points) "read_file"%string) H).
Defined.

Section NamespaceSize.
Context {A B : Type} (key : A -> string) (bound : A -> B).

Let filled (l : list A) : gmap string B :=
  foldl (fun m a => <[key a := bound a]> m) ∅ l.

Lemma filled_present (l : list A) (a : A) : In a l -> is_Some (filled l !! key a).
Proof.
  intros Hin. destruct (filled l !! key a) as [b |] eqn:E; [eauto |].
  apply (fill_absent key bound) in E.
  rewrite List.Forall_forall in E. now destruct (E a Hin).
Qed.

Lemma filled_size_le (l : list A) : (size (filled l) <= length l)%nat.
Proof.
  induction l as [| a l IH] using rev_ind; [unfold filled; simpl |].
  - rewrite map_size_empty. lia.
  - unfold filled in *. rewrite foldl_app, length_app. simpl.
    rewrite map_size_insert. destruct (_ !! key a); unfold id; lia.
Qed.

Lemma filled_size_NoDup (l : list A) :
  NoDup (map key l) -> size (filled l) = length l.
Proof.
  induction l as [| a l IH] using rev_ind; intros Hnodup.
  - unfold filled. simpl. apply map_size_empty.
  - rewrite map_app in Hnodup. simpl in Hnodup.
    apply NoDup_app in Hnodup as (Hl & Hfresh & _).
    unfold filled in *. rewrite foldl_app, length_app. simpl.
    rewrite map_size_insert_None; [rewrite IH by assumption; lia |].
    destruct (foldl _ ∅ l !! key a) as [b |] eqn:E; [| reflexivity].
    apply (fill_origin key bound) in E as (a' & Hin & Hkey & _).
    exfalso. apply (Hfresh (key a)); [| apply list_elem_of_In; now left].
    apply list_elem_of_In. rewrite <- Hkey. now apply in_map.
Qed.

Lemma filled_size_collision (before between after : list A) (a1 a2 : A) :
  key a1 = key a2 ->
  (size (filled (before ++ a1 :: between ++ a2 :: after))
   < length (before ++ a1 :: between ++ a2 :: after))%nat.
Proof.
  intros Hkey.
  replace (before ++ a1 :: between ++ a2 :: after)
    with ((before ++ a1 :: between) ++ [a2] ++ after)
    by (rewrite <- app_assoc; reflexivity).
  induction after as [| a after IH] using rev_ind.
  - rewrite app_nil_r. unfold filled. rewrite foldl_app, length_app. simpl.
    rewrite map_size_insert_Some.
    + pose proof (filled_size_le (before ++ a1 :: between)) as H.
      unfold filled in H. lia.
    + rewrite <- Hkey. apply filled_present. apply in_or_app. right. now left.
  - rewrite !app_assoc. unfold filled in *. rewrite foldl_app, length_app. simpl.
    rewrite map_size_insert. rewrite <- !app_assoc in *.
    destruct (_ !! key a); unfold id; lia.
Qed.

End NamespaceSize.

Lemma own_flat {F : Type} (o : Namespace.t F) :
  regular o -> Namespace.own o = delete "__proto__" (flat o).
Proof.
  unfold regular, flat. intros H.
  destruct (Namespace.proto o); [now rewrite delete_insert_id | now rewrite delete_id].
Qed.

Section NamespaceOwn.
Context {A B : Type} (key : A -> string) (bound : A -> B).

Let filled (l : list A) : gmap string B :=
  foldl (fun m a => <[key a := bound a]> m) ∅ l.

Lemma built_own (l : list A) (o : Namespace.t B) :
  Namespace.assign_each key bound l Namespace.empty = Normal o ->
  Namespace.own o = delete "__proto__" (filled l).
Proof.
  intros H.
  destruct (assign_each_flat key bound l Namespace.empty o (lookup_empty _) H)
    as [Hreg Hflat].
  rewrite (own_flat o Hreg), Hflat. reflexivity.
Qed.

Lemma built_own_size (l : list A) (o : Namespace.t B) :
  Namespace.assign_each key bound l Namespace.empty = Normal o ->
  (size (Namespace.own o) <= size (filled l))%nat
  /\ (Forall (fun a => key a <> "__proto__"%string) l ->
      size (Namespace.own o) = size (filled l))
  /\ (forall a, In a l -> key a = "__proto__"%string ->
      (size (Namespace.own o) < length l)%nat).
Proof.
  intros H. rewrite (built_own l o H). split; [| split].
  - rewrite map_size_delete. destruct (filled l !! "__proto__"); unfold id; lia.
  - intros Hl. apply map_size_delete_None. unfold filled.
    rewrite (fill_other key bound l ∅ "__proto__" Hl). apply lookup_empty.
  - intros a Hin Hkey.
    pose proof (filled_present key bound l a Hin) as Hsome. rewrite Hkey in Hsome.
    rewrite map_size_delete_Some by exact Hsome.
    pose proof (filled_size_le key bound l) as Hle.
    destruct l as [| a0 l0]; [destruct Hin |]. simpl length in *.
    unfold filled. lia.
Qed.

End NamespaceOwn.

(** The own properties of [tools] are the sanitized names of the tools at
    hand other than [__proto__], and every function the listing prints can
    be called; there are never more own properties than tools, as many
    when the sanitized names differ and none is [__proto__], and fewer as
    soon as two of them coincide or one is [__proto__]. *)
Theorem tools_namespace_keys :
  forall self context toolFunctions,
    Runtime.toolFunctions self context = Normal toolFunctions ->
    (forall key,
       is_Some (Namespace.own toolFunctions !! key)
       <-> key <> "__proto__"%string
           /\ exists tool,
                In tool (Runtime.tools self)
                /\ Runtime.sanitizeName (PTCTool.name tool) = key)
    /\ (forall tool,
          In tool (Runtime.tools self) ->
          exists f,
            Namespace.resolve "tools" toolFunctions
              (Generators.sanitizeName (PTCTool.name tool))
            = Namespace.Bound f)
    /\ (size (Namespace.own toolFunctions) <= length (Runtime.tools self))%nat
    /\ (NoDup (map (fun tool => Runtime.sanitizeName (PTCTool.name tool))
                (Runtime.tools self)) ->
        Forall (fun tool => Runtime.sanitizeName (PTCTool.name tool) <> "__proto__"%string)
          (Runtime.tools self) ->
        size (Namespace.own toolFunctions) = length (Runtime.tools self))
    /\ (forall before t1 between t2 after,
          Runtime.tools self = before ++ t1 :: between ++ t2 :: after ->
          Runtime.sanitizeName (PTCTool.name t1) = Runtime.sanitizeName (PTCTool.name t2) ->
          (size (Namespace.own toolFunctions) < length (Runtime.tools self))%nat)
    /\ (forall tool,
          In tool (Runtime.tools self) ->
          Runtime.sanitizeName (PTCTool.name tool) = "__proto__"%string ->
          (size (Namespace.own toolFunctions) < length (Runtime.tools self))%nat).
Proof.
  intros self context ns Hns. unfold Runtime.toolFunctions in Hns.
  set (key := fun t => Runtime.sanitizeName (PTCTool.name t)) in *.
  set (bound := fun t => Generators.createToolFunction (Runtime.client self) t context)
    in *.
  destruct (built_own_size key bound _ _ Hns) as (Hle & Hplain & Hproto).
  split; [| split; [| split; [| split; [| split]]]].
  - intros k. rewrite (built_own key bound _ _ Hns), lookup_delete_is_Some.
    split.
    + intros [Hne [f Hf]]. split; [congruence |].
      apply (fill_origin key bound) in Hf as (tool & Hin & Hkey & _). eauto.
    + intros [Hne (tool & Hin & <-)]. split; [congruence |].
      exact (filled_present key bound _ _ Hin).
  - intros tool Hin. rewrite sanitizeName_agree.
    destruct (built_present key bound _ _ _ Hns Hin) as [f Hf].
    exists f. now apply resolve_bound.
  - pose proof (filled_size_le key bound (Runtime.tools self)). lia.
  - intros Hnodup Hl. rewrite (Hplain Hl).
    now apply (filled_size_NoDup key bound).
  - intros before t1 between t2 after Hl Hkey.
    pose proof (filled_size_collision key bound before between after t1 t2 Hkey) as Hlt.
    rewrite <- Hl in Hlt. lia.
  - exact Hproto.
Qed.

Lemma tools_namespace_keys_witness :
  exists toolFunctions,
    Runtime.toolFunctions Fixtures.colliding Fixtures.session = Normal toolFunctions
    /\ In Fixtures.fileSlash (Runtime.tools Fixtures.colliding)
    /\ (exists f, Namespace.resolve "tools" toolFunctions "file_read" = Namespace.Bound f)
    /\ (size (Namespace.own toolFunctions) < 2)%nat.
Proof.
  eexists. split; [reflexivity |].
  split; [now left |]. split.
  - exact (proj1 (proj2 (tools_namespace_keys Fixtures.colliding Fixtures.session _
                           eq_refl))
             Fixtures.fileSlash ltac:(now left)).
  - exact (proj1 (proj2 (proj2 (proj2 (proj2
             (tools_namespace_keys Fixtures.colliding Fixtures.session _ eq_refl)))))
             [] Fixtures.fileSlash [] Fixtures.fileColon [] eq_refl eq_refl).
Defined.

(** ** The catalog, further *)

Lemma parameter_fails (schema : value) (name : string) (def : value) :
  (exists e, Generators.parameter schema name def = Abrupt e) <-> nullish def = true.
Proof.
  unfold Generators.parameter.
  destruct def; simpl; split; intros H; try discriminate; eauto;
    destruct H as [e H]; discriminate H.
Qed.

Lemma eachProperty_fails (schema : value) (props : list (string * value)) :
  forall acc,
    (exists e, Generators.eachProperty schema props acc = Abrupt e)
    <-> Exists (fun entry => nullish (snd entry) = true) props.
Proof.
  induction props as [| [k def] props IH]; intros acc; simpl.
  - split; [intros [e H]; discriminate H | intros H; inversion H].
  - destruct (Generators.parameter schema k def) as [p |] eqn:E; simpl.
    + rewrite IH. split; [intros H; now apply Exists_cons_tl |].
      intros H. inversion H as [? ? Hdef | ? ? Hrest]; subst; [| exact Hrest].
      simpl in Hdef. apply (parameter_fails schema k def) in Hdef as [e' He'].
      congruence.
    + split; [| eauto]. intros _. apply Exists_cons_hd. simpl.
      apply (parameter_fails schema k def). eauto.
Qed.

Lemma toolParameters_fails (schema : value) :
  (exists e, Generators.toolParameters schema = Abrupt e)
  <-> truthy (get_opt schema "properties") && typeof_object (get_opt schema "properties")
      = true
      /\ Exists (fun entry => nullish (snd entry) = true)
           (entries (get_opt schema "properties")).
Proof.
  unfold Generators.toolParameters.
  destruct (truthy (get_opt schema "properties")
            && typeof_object (get_opt schema "properties")).
  - rewrite eachProperty_fails. tauto.
  - split; [intros [e H]; discriminate H | intros [H _]; discriminate H].
Qed.

Lemma eachTool_fails (toolList : list Host.ToolListItem.t) :
  forall acc,
    (exists e, Generators.eachTool toolList acc = Abrupt e)
    <-> Exists (fun raw =>
                  exists e,
                    Generators.toolParameters (Host.ToolListItem.parameters raw) = Abrupt e)
          toolList.
Proof.
  induction toolList as [| raw rest IH]; intros acc; simpl.
  - split; [intros [e H]; discriminate H | intros H; inversion H].
  - destruct (Generators.toolParameters (Host.ToolListItem.parameters raw))
      as [parameters |] eqn:E; simpl.
    + rewrite IH. split; [intros H; now apply Exists_cons_tl |].
      intros H. inversion H as [? ? [e He] | ? ? Hrest]; subst;
        [congruence | exact Hrest].
    + split; [| eauto]. intros _. apply Exists_cons_hd. eauto.
Qed.

(** [fetchAvailableTools] fails in exactly three cases: the host's call is
    rejected, its answer carries an error, or some listed tool has a
    property whose definition is [null] or [undefined]; one such tool
    costs the whole catalog.  Without [data] the catalog is empty. *)
Theorem fetchAvailableTools_failure :
  forall client provider model directory,
    let query := {| Host.ToolQuery.provider := provider;
                    Host.ToolQuery.model := model;
                    Host.ToolQuery.directory := directory |} in
    ((exists e, Generators.fetchAvailableTools client provider model directory = Abrupt e)
     <-> (exists e, Host.tool_list client query = Abrupt e)
         \/ exists response,
              Host.tool_list client query = Normal response
              /\ (truthy (Host.Listing.error response) = true
                  \/ Exists
                       (fun raw =>
                          let properties :=
                            get_opt (Host.ToolListItem.parameters raw) "properties" in
                          truthy properties && typeof_object properties = true
                          /\ Exists (fun entry => nullish (snd entry) = true)
                               (entries properties))
                       (default [] (Host.Listing.data response))))
    /\ (forall response,
          Host.tool_list client query = Normal response ->
          truthy (Host.Listing.error response) = false ->
          Host.Listing.data response = None ->
          Generators.fetchAvailableTools client provider model directory = Normal []).
Proof.
  intros client provider model directory query.
  unfold Generators.fetchAvailableTools. fold query. split.
  - destruct (Host.tool_list client query) as [response | e0]; simpl.
    + destruct (truthy (Host.Listing.error response)) eqn:Herror.
      * split; [intros _; right; exists response; auto |]. intros _.
        destruct (stringify (Host.Listing.error response)); simpl; eauto.
      * rewrite eachTool_fails. split.
        -- intros H. right. exists response. split; [reflexivity |]. right.
           eapply Exists_impl; [exact H |]. intros raw Hraw.
           now apply toolParameters_fails.
        -- intros [[e H] | (response' & [= <-] & [H | H])]; try congruence.
           eapply Exists_impl; [exact H |]. intros raw Hraw.
           now apply toolParameters_fails.
    + split; [intros _; left; eauto | eauto].
  - intros response -> Herror Hdata. simpl. rewrite Herror, Hdata. reflexivity.
Qed.

Lemma fetchAvailableTools_failure_witness :
  exists e, Generators.fetchAvailableTools Samples.spoiled "anthropic" "sonnet" None
            = Abrupt e.
Proof.
  apply (proj1 (fetchAvailableTools_failure Samples.spoiled "anthropic" "sonnet" None)).
  right. eexists. split; [reflexivity |]. right. simpl.
  apply Exists_cons_tl. apply Exists_cons_hd. simpl.
  split; [reflexivity |]. apply Exists_cons_hd. reflexivity.
Defined.

(** [fetchAvailableAgents] fails exactly when the host's call is rejected
    or its answer carries an error; without [data] there are no agents.
    [fetchAvailableSkills] never fails and never finds a skill. *)
Theorem fetchAvailableAgents_failure :
  forall client,
    ((exists e, Generators.fetchAvailableAgents client = Abrupt e)
     <-> (exists e, Host.app_agents client = Abrupt e)
         \/ exists response,
              Host.app_agents client = Normal response
              /\ truthy (Host.Listing.error response) = true)
    /\ (forall response,
          Host.app_agents client = Normal response ->
          truthy (Host.Listing.error response) = false ->
          Host.Listing.data response = None ->
          Generators.fetchAvailableAgents client = Normal [])
    /\ Generators.fetchAvailableSkills client = Normal [].
Proof.
  intros client. unfold Generators.fetchAvailableAgents.
  split; [| split; [| reflexivity]].
  - destruct (Host.app_agents client) as [response | e0]; simpl.
    + destruct (truthy (Host.Listing.error response)) eqn:Herror.
      * split; [intros _; right; eauto |]. intros _.
        destruct (stringify (Host.Listing.error response)); simpl; eauto.
      * split; [intros [e H]; discriminate H |].
        intros [[e H] | (response' & [= <-] & H)]; congruence.
    + split; [intros _; left; eauto | eauto].
  - intros response -> Herror Hdata. simpl. rewrite Herror, Hdata. reflexivity.
Qed.

Lemma fetchAvailableAgents_failure_witness :
  truthy VNull = false
  /\ ~ exists e, Generators.fetchAvailableAgents Fixtures.registry = Abrupt e.
Proof.
  split; [reflexivity |]. intros H.
  apply (proj1 (fetchAvailableAgents_failure Fixtures.registry)) in H
    as [[e H] | (response & H & Herror)]; [discriminate H |].
  injection H as <-. discriminate Herror.
Defined.

Lemma Obj_put_known {A : Type} (k : string) (a : A) (o : list (string * A)) :
  In k (map fst o) -> map fst (Obj.put k a o) = map fst o.
Proof.
  induction o as [| [k0 a0] o IH]; simpl; [intros [] |].
  destruct (String.eqb_spec k0 k) as [-> | Hne]; simpl; [reflexivity |].
  intros [H | H]; [congruence | now rewrite IH].
Qed.

Lemma Obj_put_fresh {A : Type} (k : string) (a : A) (o : list (string * A)) :
  ~ In k (map fst o) -> Obj.put k a o = o ++ [(k, a)].
Proof.
  induction o as [| [k0 a0] o IH]; simpl; [reflexivity |].
  intros H. destruct (String.eqb_spec k0 k) as [-> | Hne]; [tauto |].
  rewrite IH by tauto. reflexivity.
Qed.

Lemma eachProperty_keys (schema : value) (props : list (string * value)) :
  forall acc parameters,
    Generators.eachProperty schema props acc = Normal parameters ->
    NoDup (map fst acc) -> ~ In "__proto__"%string (map fst acc) ->
    NoDup (map fst parameters) /\ ~ In "__proto__"%string (map fst parameters).
Proof.
  induction props as [| [k def] props IH]; simpl; intros acc parameters H Hnodup Hproto.
  - injection H as <-. auto.
  - destruct (Generators.parameter schema k def) as [p |]; simpl in H; [| discriminate].
    apply (IH _ _ H); unfold Obj.set;
      destruct (String.eqb_spec k "__proto__") as [-> | Hk]; try assumption.
    + destruct (in_dec string_dec k (map fst acc)) as [Hin | Hin].
      * now rewrite Obj_put_known.
      * rewrite Obj_put_fresh, map_app by assumption. simpl.
        apply NoDup_app. split; [assumption |]. split; [| apply NoDup_singleton].
        intros x Hx [-> | []]%list_elem_of_In. now apply list_elem_of_In in Hx.
    + destruct (in_dec string_dec k (map fst acc)) as [Hin | Hin].
      * now rewrite Obj_put_known.
      * rewrite Obj_put_fresh, map_app, in_app_iff by assumption. simpl.
        intros [? | [? | []]]; congruence.
Qed.

Lemma eachProperty_order (schema : value) (props : list (string * value)) :
  forall acc parameters,
    Generators.eachProperty schema props acc = Normal parameters ->
    NoDup (map fst props) ->
    (forall k, In k (map fst props) -> ~ In k (map fst acc)) ->
    map fst parameters
    = map fst acc
      ++ List.filter (fun k => negb (String.eqb k "__proto__")) (map fst props).
Proof.
  induction props as [| [k def] props IH]; simpl; intros acc parameters H Hnodup Hfresh.
  - injection H as <-. now rewrite app_nil_r.
  - destruct (Generators.parameter schema k def) as [p |]; simpl in H; [| discriminate].
    apply NoDup_cons in Hnodup as [Hk Hnodup].
    rewrite list_elem_of_In in Hk.
    unfold Obj.set in H. destruct (String.eqb k "__proto__"); simpl.
    + apply (IH _ _ H Hnodup). intros k' Hk'. apply Hfresh. now right.
    + rewrite Obj_put_fresh in H by (apply Hfresh; now left).
      rewrite (IH _ _ H Hnodup).
      * rewrite map_app, <- app_assoc. reflexivity.
      * intros k' Hk'. rewrite map_app, in_app_iff. simpl.
        intros [Hacc | [-> | []]]; [| tauto].
        apply (Hfresh k'); [now right | assumption].
Qed.

(** The parameter mapping of a tool never has a name twice and never the
    name [__proto__]; when the schema's properties have distinct names the
    parameters stand in the order of the properties, which is the order
    the listing prints them in. *)
Theorem parameters_follow_the_schema :
  forall schema parameters,
    Generators.toolParameters schema = Normal parameters ->
    NoDup (map fst parameters)
    /\ ~ In "__proto__"%string (map fst parameters)
    /\ (NoDup (map fst (entries (get_opt schema "properties"))) ->
        map fst parameters
        = List.filter (fun k => negb (String.eqb k "__proto__"))
            (map fst (entries (get_opt schema "properties")))).
Proof.
  intros schema parameters H. unfold Generators.toolParameters in H.
  destruct (truthy (get_opt schema "properties")
            && typeof_object (get_opt schema "properties")) eqn:E.
  - destruct (eachProperty_keys _ _ _ _ H) as [Hnodup Hproto];
      [constructor | intros [] |].
    split; [exact Hnodup |]. split; [exact Hproto |]. intros Hprops.
    apply (eachProperty_order _ _ _ _ H Hprops). intros k _ [].
  - injection H as <-. split; [constructor |]. split; [intros [] |]. intros _.
    destruct (get_opt schema "properties"); simpl in *; try reflexivity;
      discriminate E.
Qed.

Lemma parameters_follow_the_schema_witness :
  exists parameters,
    Generators.toolParameters Fixtures.read_schema = Normal parameters
    /\ map fst parameters = ["filePath"%string; "limit"%string].
Proof.
  eexists. split; [reflexivity |].
  rewrite (proj2 (proj2 (parameters_follow_the_schema Fixtures.read_schema _ eq_refl))).
  - reflexivity.
  - simpl. repeat constructor; rewrite ?list_elem_of_In; simpl; intuition discriminate.
Defined.

Lemma length_concat_map3 {A : Type} (f : A -> list string) (l : list A) :
  (forall a, length (f a) = 3%nat) -> length (concat (map f l)) = (3 * length l)%nat.
Proof.
  intros Hf. induction l as [| a l IH]; simpl; [reflexivity |].
  rewrite length_app, Hf, IH. lia.
Qed.


(** ** The logging function, further *)

Lemma log_parts_fails (args : list value) :
  forall e,
    Runtime.log_parts args = Abrupt e ->
    exists before arg after,
      args = before ++ arg :: after
      /\ forallb loggable before = true
      /\ stringify arg = Abrupt e.
Proof.
  induction args as [| arg rest IH]; intros e; cbn [Runtime.log_parts];
    [discriminate |].
  destruct (loggable arg) eqn:Harg.
  - destruct (log_part_shown arg Harg) as (part & -> & _). simpl.
    destruct (Runtime.log_parts rest) as [parts | e'] eqn:E; simpl; [discriminate |].
    intros [= <-]. destruct (IH e' eq_refl) as (before & bad & after & -> & Hb & Hbad).
    exists (arg :: before), bad, after. simpl. rewrite Harg, Hb. auto.
  - unfold loggable in Harg. destruct arg; try discriminate Harg;
      destruct (stringify _) as [part | e'] eqn:E; try discriminate Harg;
      simpl; intros [= <-]; eexists [], _, rest; simpl; auto.
Qed.

(** A call of the logging function raises exactly when one of its
    arguments other than strings is rejected by [JSON.stringify]; the
    error is the one of the first such argument, and the store is as it
    was. *)
Theorem log_fails_on_the_first_bad_argument :
  forall args w,
    ((exists e, Runtime.log args w = Abrupt e) <-> forallb loggable args = false)
    /\ (forall e,
          Runtime.log args w = Abrupt e ->
          exists before arg after,
            args = before ++ arg :: after
            /\ forallb loggable before = true
            /\ stringify arg = Abrupt e).
Proof.
  intros args w. split.
  - destruct (forallb loggable args) eqn:E.
    + rewrite (log_line args w E). split; [intros [e H]; discriminate H | discriminate].
    + split; [reflexivity |]. intros _. unfold Runtime.log.
      destruct (Runtime.log_parts args) as [parts | e] eqn:Eparts; simpl; [| eauto].
      exfalso. clear w. revert parts Eparts.
      induction args as [| arg rest IH]; [discriminate E |].
      cbn [forallb] in E. cbn [Runtime.log_parts]. intros parts.
      destruct (loggable arg) eqn:Harg.
      * destruct (log_part_shown arg Harg) as (part & -> & _). simpl.
        destruct (Runtime.log_parts rest) as [parts' |]; simpl; [| discriminate].
        intros _. now apply (IH E parts').
      * unfold loggable in Harg. destruct arg; try discriminate Harg;
          destruct (stringify _); try discriminate Harg; simpl; discriminate.
  - intros e H. unfold Runtime.log in H.
    destruct (Runtime.log_parts args) as [parts | e'] eqn:E; simpl in H;
      [discriminate |].
    injection H as <-. exact (log_parts_fails args e' E).
Qed.

Lemma log_fails_on_the_first_bad_argument_witness :
  exists before arg after,
    [VString "n ="; VBigInt 10; VNumber 1] = before ++ arg :: after
    /\ forallb loggable before = true
    /\ stringify arg = Abrupt (TypeError "Do not know how to serialize a BigInt").
Proof.
  exact (proj2 (log_fails_on_the_first_bad_argument
                  [VString "n ="; VBigInt 10; VNumber 1] (boot 0))
           (TypeError "Do not know how to serialize a BigInt") eq_refl).
Defined.

(** ** The default model *)

Lemma split_free (sep : ascii) (s : string) : free_of sep s -> split sep s = [s].
Proof.
  unfold free_of. induction s as [| c rest IH]; simpl; intros H; [reflexivity |].
  inversion H as [| ? ? Hc Hrest]; subst.
  destruct (Ascii.eqb_spec c sep) as [-> | _]; [congruence |].
  now rewrite IH.
Qed.

Lemma split_at (sep : ascii) (head rest : string) :
  free_of sep head ->
  split sep (head ++ String sep rest)%string = head :: split sep rest.
Proof.
  unfold free_of. induction head as [| c head IH]; simpl; intros H.
  - now rewrite Ascii.eqb_refl.
  - inversion H as [| ? ? Hc Hhead]; subst.
    destruct (Ascii.eqb_spec c sep) as [-> | _]; [congruence |].
    now rewrite IH.
Qed.

Lemma split_segments (sep : ascii) (s : string) :
  split sep s <> [] /\ Forall (free_of sep) (split sep s).
Proof.
  induction s as [| c rest [Hne Hfree]]; simpl.
  - split; [discriminate | repeat constructor].
  - destruct (Ascii.eqb_spec c sep) as [-> | Hc].
    + split; [discriminate |]. constructor; [constructor | exact Hfree].
    + destruct (split sep rest) as [| seg segs]; [congruence |].
      split; [discriminate |].
      inversion Hfree as [| ? ? Hseg Hsegs]; subst.
      constructor; [| exact Hsegs]. unfold free_of. simpl. now constructor.
Qed.

Lemma nonempty_true (s : string) : nonempty s = true <-> s <> EmptyString.
Proof.
  unfold nonempty. destruct (String.eqb_spec s EmptyString); simpl; split; congruence.
Qed.

Lemma model_of_config_Some (model : option string) (resolved : Generators.Model.t) :
  Generators.model_of_config model = Some resolved
  <-> exists text rest,
        model = Some text
        /\ split "/"%char text
           = Generators.Model.providerID resolved
             :: Generators.Model.modelID resolved :: rest
        /\ Generators.Model.providerID resolved <> EmptyString
        /\ Generators.Model.modelID resolved <> EmptyString.
Proof.
  unfold Generators.model_of_config. split.
  - destruct model as [text |]; [| discriminate].
    destruct (nonempty text); [| discriminate].
    destruct (split "/"%char text) as [| providerID [| modelID rest]] eqn:Hsplit;
      try discriminate.
    destruct (nonempty providerID) eqn:Hp; [| discriminate].
    destruct (nonempty modelID) eqn:Hm; [| discriminate].
    intros [= <-]. exists text, rest. simpl.
    split; [reflexivity |]. split; [exact Hsplit |].
    split; apply nonempty_true; assumption.
  - intros (text & rest & -> & Hsplit & Hp & Hm). rewrite Hsplit.
    apply nonempty_true in Hp, Hm. rewrite Hp, Hm.
    destruct text; [discriminate Hsplit |]. simpl. now destruct resolved.
Qed.

(** With a configured model [provider/model], the two parts are the
    resolved identifiers and the providers' table is not consulted; of a
    model with more slashes, as [openrouter/anthropic/claude], only the
    part between the first two is kept as the model. *)
Theorem resolveDefaultModel_configured :
  forall config directory response provider model,
    Host.config_get config directory = Normal response ->
    truthy (Host.ConfigResponse.error response) = false ->
    provider <> EmptyString -> free_of "/" provider ->
    model <> EmptyString -> free_of "/" model ->
    (Host.ConfigResponse.model response = Some (provider ++ slash ++ model)%string ->
     Generators.resolveDefaultModel config directory
     = Normal {| Generators.Model.providerID := provider;
                 Generators.Model.modelID := model |})
    /\ (forall tail,
          Host.ConfigResponse.model response
          = Some (provider ++ slash ++ model ++ slash ++ tail)%string ->
          Generators.resolveDefaultModel config directory
          = Normal {| Generators.Model.providerID := provider;
                      Generators.Model.modelID := model |}).
Proof.
  intros config directory response provider model Hget Herror Hp Hpfree Hm Hmfree.
  assert (forall text rest,
            Host.ConfigResponse.model response = Some text ->
            split "/"%char text = provider :: model :: rest ->
            Generators.resolveDefaultModel config directory
            = Normal {| Generators.Model.providerID := provider;
                        Generators.Model.modelID := model |}) as H.
  { intros text rest Htext Hsplit. unfold Generators.resolveDefaultModel.
    rewrite Hget. simpl. rewrite Herror.
    replace (Generators.model_of_config (Host.ConfigResponse.model response))
      with (Some {| Generators.Model.providerID := provider;
                    Generators.Model.modelID := model |}); [reflexivity |].
    symmetry. apply model_of_config_Some. exists text, rest. auto. }
  split.
  - intros Hmodel. apply (H _ [] Hmodel).
    change (split "/"%char (provider ++ String "/"%char model)%string
            = [provider; model]).
    rewrite split_at by assumption. now rewrite split_free.
  - intros tail Hmodel. apply (H _ (split "/"%char tail) Hmodel).
    change (split "/"%char
              (provider ++ String "/"%char (model ++ String "/"%char tail))%string
            = provider :: model :: split "/"%char tail).
    rewrite split_at by assumption. now rewrite split_at.
Qed.

Lemma resolveDefaultModel_configured_witness :
  Generators.resolveDefaultModel Samples.nested_model None
  = Normal {| Generators.Model.providerID := "openrouter";
              Generators.Model.modelID := "anthropic" |}.
Proof.
  apply (proj2 (resolveDefaultModel_configured Samples.nested_model None _
                  "openrouter"%string "anthropic"%string eq_refl eq_refl
                  ltac:(discriminate)
                  ltac:(repeat constructor; discriminate)
                  ltac:(discriminate)
                  ltac:(repeat constructor; discriminate))
           "claude"%string).
  reflexivity.
Defined.

(** Whenever a default model is resolved, the configuration was read
    without error, the provider is not empty, and the pair is either the
    first two parts of the configured model, both non-empty and free of
    slashes, or, failing that, the first entry of the providers' table of
    defaults, read without error. *)
Theorem resolveDefaultModel_sound :
  forall config directory resolved,
    Generators.resolveDefaultModel config directory = Normal resolved ->
    Generators.Model.providerID resolved <> EmptyString
    /\ exists response,
         Host.config_get config directory = Normal response
         /\ truthy (Host.ConfigResponse.error response) = false
         /\ ((exists text rest,
                Host.ConfigResponse.model response = Some text
                /\ split "/"%char text
                   = Generators.Model.providerID resolved
                     :: Generators.Model.modelID resolved :: rest
                /\ Generators.Model.modelID resolved <> EmptyString
                /\ free_of "/" (Generators.Model.providerID resolved)
                /\ free_of "/" (Generators.Model.modelID resolved))
             \/ (Generators.model_of_config (Host.ConfigResponse.model response) = None
                 /\ exists providers others,
                      Host.config_providers config directory = Normal providers
                      /\ truthy (Host.ProvidersResponse.error providers) = false
                      /\ Host.ProvidersResponse.defaults providers
                         = Some ((Generators.Model.providerID resolved,
                                  VString (Generators.Model.modelID resolved))
                                   :: others))).
Proof.
  intros config directory resolved. unfold Generators.resolveDefaultModel.
  destruct (Host.config_get config directory) as [response |]; simpl; [| discriminate].
  destruct (truthy (Host.ConfigResponse.error response)) eqn:Herror;
    [destruct (stringify _); discriminate |].
  destruct (Generators.model_of_config (Host.ConfigResponse.model response))
    as [found |] eqn:Hfound.
  - intros [= <-].
    apply model_of_config_Some in Hfound as (text & rest & Htext & Hsplit & Hp & Hm).
    split; [exact Hp |]. exists response. split; [reflexivity |].
    split; [exact Herror |]. left. exists text, rest.
    pose proof (proj2 (split_segments "/"%char text)) as Hfree.
    rewrite Hsplit in Hfree.
    inversion Hfree as [| ? ? Hpf Hrest]; subst.
    inversion Hrest as [| ? ? Hmf _]; subst. auto.
  - destruct (Host.config_providers config directory) as [providers |]; simpl;
      [| discriminate].
    destruct (truthy (Host.ProvidersResponse.error providers)) eqn:Herror';
      [destruct (stringify _); discriminate |].
    destruct (Host.ProvidersResponse.defaults providers) as [[| [p v] others] |] eqn:Hd;
      simpl; try discriminate.
    destruct v; try discriminate.
    destruct (nonempty p) eqn:Hp; [| discriminate]. intros [= <-]. simpl.
    split; [now apply nonempty_true |]. exists response.
    split; [reflexivity |]. split; [exact Herror |]. right.
    split; [exact Hfound |]. exists providers, others. auto.
Qed.

Lemma resolveDefaultModel_sound_witness :
  Generators.resolveDefaultModel Samples.defaulted None
  = Normal {| Generators.Model.providerID := "anthropic";
              Generators.Model.modelID := "sonnet" |}
  /\ "anthropic"%string <> EmptyString.
Proof.
  split; [reflexivity |].
  exact (proj1 (resolveDefaultModel_sound Samples.defaulted None
                  {| Generators.Model.providerID := "anthropic";
                     Generators.Model.modelID := "sonnet" |} eq_refl)).
Defined.

(** When the configuration is read without error but names no usable
    model, and the providers' table is read without error but its first
    default is missing, is not a string, or belongs to an empty provider
    name, no model is resolved: the error asks for [config.model] to be
    set. *)
Theorem resolveDefaultModel_unconfigured :
  forall config directory response providers,
    Host.config_get config directory = Normal response ->
    truthy (Host.ConfigResponse.error response) = false ->
    Generators.model_of_config (Host.ConfigResponse.model response) = None ->
    Host.config_providers config directory = Normal providers ->
    truthy (Host.ProvidersResponse.error providers) = false ->
    match default [] (Host.ProvidersResponse.defaults providers) with
    | (provider, VString _) :: _ => provider = EmptyString
    | _ => True
    end ->
    Generators.resolveDefaultModel config directory
    = Abrupt (ErrorObject
                "No default model configured. Set config.model in opencode.json.").
Proof.
  intros config directory response providers Hget Herror Hmodel Hproviders Herror' Hd.
  unfold Generators.resolveDefaultModel.
  rewrite Hget. simpl. rewrite Herror, Hmodel, Hproviders. simpl. rewrite Herror'.
  destruct (default [] (Host.ProvidersResponse.defaults providers))
    as [| [provider v] others]; [reflexivity |].
  destruct v; try reflexivity. subst provider. reflexivity.
Qed.

Lemma resolveDefaultModel_unconfigured_witness :
  Generators.resolveDefaultModel Samples.unconfigured None
  = Abrupt (ErrorObject
              "No default model configured. Set config.model in opencode.json.").
Proof.
  exact (resolveDefaultModel_unconfigured Samples.unconfigured None _ _
           eq_refl eq_refl eq_refl eq_refl eq_refl I).
Defined.

(** ** Stores along a run *)

Section Along.
Variable rt : Runtime.PTCRuntime.
Variable P : world -> Prop.
Hypothesis P_tick : forall ms w, P w -> P (tick ms w).
Hypothesis P_at_time : forall t w, now w <= t -> P w -> P (at_time t w).
Hypothesis P_log : forall args w w', Runtime.rt_log rt args w = Normal w' -> P w -> P w'.
Hypothesis P_tools : forall key f args w,
  Runtime.rt_tools rt !! key = Some f -> P w -> throughout P (f args w).
Hypothesis P_agents : forall key f prompt w,
  Runtime.rt_agents rt !! key = Some f -> P w -> throughout P (f prompt w).
Hypothesis P_skills : forall key f w,
  Runtime.rt_skills rt !! key = Some f -> P w -> throughout P (f w).

Lemma await_along {A : Type} (deadline : option Z) (p : promise A) k :
  throughout P p ->
  (forall s w, P w -> P (last_store (k s w))) ->
  P (last_store (Runtime.await deadline p k)).
Proof.
  intros Hp Hk. destruct p as [s w1 | asleep ms s awake | asleep]; simpl in *.
  - now apply Hk.
  - destruct Hp as [Hasleep Hawake]. destruct deadline as [d |]; [| now apply Hk].
    destruct (d <=? now asleep + Z.of_N ms)%Z; [| now apply Hk].
    simpl. apply P_at_time; [lia | assumption].
  - destruct deadline as [d |]; simpl; [| assumption].
    apply P_at_time; [lia | assumption].
Qed.

Lemma call_along {F A : Type} namespace (o : Namespace.t F) key deadline (w : world)
    (apply : F -> promise A) k :
  P w ->
  (forall f, o !! key = Some f -> throughout P (apply f)) ->
  (forall s w, P w -> P (last_store (k s w))) ->
  P (last_store (Runtime.call namespace o key deadline w apply k)).
Proof.
  intros Hw Hp Hk. unfold Runtime.call.
  destruct (Namespace.resolve namespace o key) as [f | | e] eqn:E.
  - apply await_along; [| exact Hk]. apply Hp. eapply resolve_Bound. exact E.
  - exact Hw.
  - now apply Hk.
Qed.

(** What every step keeps, the run keeps. *)
Lemma run_along deadline (fn : Runtime.script) :
  forall w, P w -> P (last_store (Runtime.run rt deadline fn w)).
Proof.
  induction fn as [v | e | args k IH | key args k IH | key prompt k IH | key k IH
                   | ms k IH | ms k IH | |]; intros w Hw; cbn [Runtime.run];
    try assumption.
  - destruct (Runtime.rt_log rt args w) as [w' |] eqn:E; [| now apply IH].
    apply IH. eapply P_log; eassumption.
  - apply call_along;
      [exact Hw | intros f Hf; eapply P_tools; eassumption | intros; now apply IH].
  - apply call_along;
      [exact Hw | intros f Hf; eapply P_agents; eassumption | intros; now apply IH].
  - apply call_along;
      [exact Hw | intros f Hf; eapply P_skills; eassumption | intros; now apply IH].
  - apply await_along; [simpl; split; [exact Hw | now apply P_tick] |].
    intros; now apply IH.
  - apply IH. now apply P_tick.
  - apply await_along; [exact Hw | intros; assumption].
Qed.

End Along.

Lemma createToolFunction_record client tool context args w :
  match Generators.createToolFunction client tool context args w with
  | Suspends asleep ms s awake =>
      asleep = send (owed_request context tool args) w
      /\ exists r,
           awake = push_record r (tick ms asleep)
           /\ PTCToolCallRecord.tool r = PTCTool.name tool
           /\ PTCToolCallRecord.args r = args
           /\ PTCToolCallRecord.duration r = Z.of_N ms
           /\ match s with
              | Fulfilled output =>
                  PTCToolCallRecord.result r = Some output
                  /\ PTCToolCallRecord.error r = None
              | Rejected e =>
                  PTCToolCallRecord.result r = None
                  /\ match PTCToolCallRecord.error r with
                     | Some message => describe e = Normal message
                     | None => exists original, describe original = Abrupt e
                     end
              end
  | Stalls asleep => asleep = send (owed_request context tool args) w
  | Immediate _ _ => False
  end.
Proof.
  unfold Generators.createToolFunction. fold (owed_request context tool args).
  destruct (Host.tool_execute client (wire w) (owed_request context tool args))
    as [ms response | ms e |]; [| | reflexivity].
  - split; [reflexivity |].
    destruct (truthy (Host.Response.error response)).
    + destruct (stringify (Host.Response.error response)) as [text | e]; simpl.
      * eexists. split; [reflexivity |]. simpl. repeat split; lia.
      * destruct (describe e) as [message | e'] eqn:E; simpl;
          eexists; (split; [reflexivity |]); simpl; repeat split; try lia; eauto.
    + eexists. split; [reflexivity |]. simpl. repeat split; lia.
  - split; [reflexivity |]. simpl.
    destruct (describe e) as [message | e'] eqn:E; simpl;
      eexists; (split; [reflexivity |]); simpl; repeat split; try lia; eauto.
Qed.

(** When a call of a tool binding has settled, its record tells what the
    caller saw: the tool's own name and the arguments; after a result,
    that result and no error; after an error, no result, and for error
    the message of the very error raised, or none when the error raised
    is the failure to convert another one to a string. *)
Theorem tool_record_tells_the_outcome :
  forall client tool context args w asleep ms s awake,
    Generators.createToolFunction client tool context args w
    = Suspends asleep ms s awake ->
    exists r,
      callRecords awake = callRecords w ++ [r]
      /\ PTCToolCallRecord.tool r = PTCTool.name tool
      /\ PTCToolCallRecord.args r = args
      /\ match s with
         | Fulfilled output =>
             PTCToolCallRecord.result r = Some output
             /\ PTCToolCallRecord.error r = None
         | Rejected e =>
             PTCToolCallRecord.result r = None
             /\ match PTCToolCallRecord.error r with
                | Some message => describe e = Normal message
                | None => exists original, describe original = Abrupt e
                end
         end.
Proof.
  intros client tool context args w asleep ms s awake H.
  pose proof (createToolFunction_record client tool context args w) as R.
  rewrite H in R. destruct R as (-> & r & -> & Htool & Hargs & _ & Hs).
  exists r. simpl. auto.
Qed.

Lemma tool_record_tells_the_outcome_witness :
  exists r,
    [r] = [ {| PTCToolCallRecord.tool := "read";
               PTCToolCallRecord.args := Fixtures.path;
               PTCToolCallRecord.result := None;
               PTCToolCallRecord.error := Some "Tool execute failed: 404"%string;
               PTCToolCallRecord.duration := 5 |} ]
    /\ PTCToolCallRecord.result r = None
    /\ describe (ErrorObject "Tool execute failed: 404")
       = Normal "Tool execute failed: 404"%string.
Proof.
  destruct (tool_record_tells_the_outcome Fixtures.failing Fixtures.read
              Fixtures.session Fixtures.path (boot 0) _ _ _ _ eq_refl)
    as (r & Hcalls & _ & _ & Hresult & Herror).
  exists r. simpl in Hcalls. injection Hcalls as <-. auto.
Defined.

Lemma grows_refl (w : world) : grows w w.
Proof. repeat split; reflexivity. Qed.

Lemma grows_trans (w1 w2 w3 : world) : grows w1 w2 -> grows w2 w3 -> grows w1 w3.
Proof.
  intros (? & ? & ?) (? & ? & ?). repeat split; etransitivity; eassumption.
Qed.

Lemma grows_push_record (w : world) r : grows w (push_record r w).
Proof. repeat split; simpl; try reflexivity. now apply prefix_app_r. Qed.

Lemma grows_push_log (w : world) text : grows w (push_log text w).
Proof. repeat split; simpl; try reflexivity. now apply prefix_app_r. Qed.

Lemma grows_send (w : world) q : grows w (send q w).
Proof. repeat split; simpl; try reflexivity. now apply prefix_app_r. Qed.

Lemma grows_tick (w w' : world) ms : grows w w' -> grows w (tick ms w').
Proof. intros H. exact H. Qed.

Lemma grows_at_time (w w' : world) t : grows w w' -> grows w (at_time t w').
Proof. intros H. exact H. Qed.

Lemma runtime_of_grows self context rt :
  Runtime.runtime_of self context = Normal rt ->
  (forall key f args w, Runtime.rt_tools rt !! key = Some f -> grows_through w (f args w))
  /\ (forall key f prompt w,
        Runtime.rt_agents rt !! key = Some f -> grows_through w (f prompt w))
  /\ (forall key f w, Runtime.rt_skills rt !! key = Some f -> grows_through w (f w))
  /\ (forall args w w', Runtime.rt_log rt args w = Normal w' -> grows w w').
Proof.
  intros Hrt. destruct (runtime_of_built _ _ _ Hrt) as (Hts & Has & Hss & Hlog).
  split; [| split; [| split]].
  - intros key f args w H.
    apply (built_origin _ _ _ _ _ _ Hts) in H as (tool & _ & _ & ->).
    pose proof (createToolFunction_record (Runtime.client self) tool context args w) as R.
    destruct (Generators.createToolFunction _ _ _ _ _) as [| asleep ms s awake | asleep];
      simpl; [destruct R | | subst; apply grows_send].
    destruct R as (-> & r & -> & _). split; [apply grows_send |].
    repeat split; simpl; try reflexivity. now apply prefix_app_r.
  - intros key f prompt w H.
    apply (built_origin _ _ _ _ _ _ Has) in H as (agent & _ & _ & ->).
    destruct (createAgentFunction_shape (Runtime.client self) agent context prompt w)
      as (err & r & -> & _). apply grows_push_record.
  - intros key f w H.
    apply (built_origin _ _ _ _ _ _ Hss) in H as (skill & _ & _ & ->).
    destruct (createSkillFunction_shape (Runtime.client self) skill context w)
      as (err & r & -> & _). apply grows_push_record.
  - intros args w w' H. rewrite Hlog in H. pose proof (log_shape args w) as L.
    rewrite H in L. destruct L as (text & ->). apply grows_push_log.
Qed.

Lemma throughout_grows {A : Type} (w0 w : world) (p : promise A) :
  grows w0 w -> grows_through w p -> throughout (grows w0) p.
Proof.
  intros H0 Hp. destruct p; simpl in *.
  - eapply grows_trans; eassumption.
  - destruct Hp. split; [eapply grows_trans; eassumption |].
    eapply grows_trans; [| eassumption]. eapply grows_trans; eassumption.
  - eapply grows_trans; eassumption.
Qed.

Section Grows.
Variable rt : Runtime.PTCRuntime.
Hypothesis tools_grow : forall key f args w,
  Runtime.rt_tools rt !! key = Some f -> grows_through w (f args w).
Hypothesis agents_grow : forall key f prompt w,
  Runtime.rt_agents rt !! key = Some f -> grows_through w (f prompt w).
Hypothesis skills_grow : forall key f w,
  Runtime.rt_skills rt !! key = Some f -> grows_through w (f w).
Hypothesis log_grows : forall args w w',
  Runtime.rt_log rt args w = Normal w' -> grows w w'.

(** A run only adds to the arrays. *)
Lemma run_grows deadline (fn : Runtime.script) (w : world) :
  grows w (last_store (Runtime.run rt deadline fn w)).
Proof.
  apply (run_along rt (grows w)).
  - intros ms w1 H. exact H.
  - intros t w1 _ H. exact H.
  - intros args w1 w' E H. eapply grows_trans; [exact H | eapply log_grows; exact E].
  - intros key f args w1 E H.
    eapply throughout_grows; [exact H | eapply tools_grow; exact E].
  - intros key f prompt w1 E H.
    eapply throughout_grows; [exact H | eapply agents_grow; exact E].
  - intros key f w1 E H.
    eapply throughout_grows; [exact H | eapply skills_grow; exact E].
  - apply grows_refl.
Qed.

Lemma await_cut_short {A : Type} (d : Z) (w : world) (p : promise A) ka kf :
  grows_through w p ->
  (forall s w1, grows w1 (last_store (kf s w1))) ->
  (forall s w1, grows (last_store (ka s w1)) (last_store (kf s w1))) ->
  grows (last_store (Runtime.await (Some d) p ka)) (last_store (Runtime.await None p kf)).
Proof.
  intros Hp Hfree Hk. destruct p as [s w1 | asleep ms s awake | asleep]; simpl in *.
  - apply Hk.
  - destruct (d <=? now asleep + Z.of_N ms)%Z; [| apply Hk]. simpl.
    destruct Hp as [_ Hawake].
    apply (grows_trans _ awake); [exact Hawake | apply Hfree].
  - exact (grows_refl asleep).
Qed.

Lemma call_cut_short {F A : Type} namespace (o : Namespace.t F) key (d : Z) (w : world)
    (apply : F -> promise A) ka kf :
  (forall f, o !! key = Some f -> grows_through w (apply f)) ->
  (forall s w1, grows w1 (last_store (kf s w1))) ->
  (forall s w1, grows (last_store (ka s w1)) (last_store (kf s w1))) ->
  grows (last_store (Runtime.call namespace o key (Some d) w apply ka))
        (last_store (Runtime.call namespace o key None w apply kf)).
Proof.
  intros Hp Hfree Hk. unfold Runtime.call.
  destruct (Namespace.resolve namespace o key) as [f | | e] eqn:E.
  - apply (await_cut_short d w); [| exact Hfree | exact Hk].
    apply Hp. eapply resolve_Bound. exact E.
  - apply grows_refl.
  - apply Hk.
Qed.

(** What a run has gathered when its timer fires is the beginning of what
    the same run gathers when left to itself. *)
Lemma armed_before_free (d : Z) (fn : Runtime.script) :
  forall w,
    grows (last_store (Runtime.run rt (Some d) fn w))
          (last_store (Runtime.run rt None fn w)).
Proof.
  induction fn as [v | e | args k IH | key args k IH | key prompt k IH | key k IH
                   | ms k IH | ms k IH | |]; intros w; cbn [Runtime.run];
    try exact (grows_refl w).
  - destruct (Runtime.rt_log rt args w); apply IH.
  - apply call_cut_short;
      [intros f Hf; eapply tools_grow; exact Hf | intros; apply run_grows
      | intros; apply IH].
  - apply call_cut_short;
      [intros f Hf; eapply agents_grow; exact Hf | intros; apply run_grows
      | intros; apply IH].
  - apply call_cut_short;
      [intros f Hf; eapply skills_grow; exact Hf | intros; apply run_grows
      | intros; apply IH].
  - apply (await_cut_short d w);
      [simpl; split; [apply grows_refl | exact (grows_refl w)]
      | intros; apply run_grows | intros; apply IH].
  - apply IH.
Qed.

End Grows.

Lemma execute_built self code context clock r :
  Runtime.execute self code context clock = Runtime.Returns r ->
  exists rt, Runtime.runtime_of self context = Normal rt.
Proof.
  unfold Runtime.execute.
  destruct (Runtime.runtime_of self context) as [rt | e]; [eauto | discriminate].
Qed.

Lemma execute_store self code context clock rt r :
  Runtime.runtime_of self context = Normal rt ->
  Runtime.execute self code context clock = Runtime.Returns r ->
  let w := last_store (Runtime.executeWithTimeout self code rt (boot clock)) in
  PTCExecutionResult.logs r = logs w /\ PTCExecutionResult.toolCalls r = callRecords w.
Proof.
  unfold Runtime.execute. intros ->.
  destruct (Runtime.executeWithTimeout _ _ _ _) as [[v | err] w | w | w | w | w];
    try discriminate.
  - intros [= <-]. split; reflexivity.
  - destruct (describe err); [| discriminate]. intros [= <-]. split; reflexivity.
Qed.

Lemma executeWithTimeout_store self fn rt w :
  last_store (Runtime.executeWithTimeout self (Runtime.Program fn) rt w)
  = last_store
      (Runtime.run rt
         (Some (now w + Z.of_N (setTimeout_delay
                                  (Runtime.Options.timeout (Runtime.options self)))))
         fn w).
Proof.
  unfold Runtime.executeWithTimeout. now destruct (Runtime.run rt _ fn w).
Qed.

(** Whatever result [execute] returns, with or without a timeout in
    between, its logs and its call records are the first logs and the
    first records, in order, of those the same code produces when no
    timer cuts it short. *)
Theorem result_is_a_prefix_of_the_free_run :
  forall self fn context clock runtime r,
    Runtime.runtime_of self context = Normal runtime ->
    Runtime.execute self (Runtime.Program fn) context clock = Runtime.Returns r ->
    let alone := last_store (Runtime.run runtime None fn (boot clock)) in
    PTCExecutionResult.logs r `prefix_of` logs alone
    /\ PTCExecutionResult.toolCalls r `prefix_of` callRecords alone.
Proof.
  intros self fn context clock runtime r Hruntime H alone.
  destruct (execute_store _ _ _ _ _ _ Hruntime H) as [-> ->].
  rewrite executeWithTimeout_store.
  destruct (runtime_of_grows _ _ _ Hruntime) as (Ht & Ha & Hs & Hl).
  destruct (armed_before_free runtime Ht Ha Hs Hl
              (now (boot clock)
               + Z.of_N (setTimeout_delay (Runtime.Options.timeout (Runtime.options self))))
              fn (boot clock)) as (Hlogs & Hcalls & _).
  split; assumption.
Qed.

Lemma result_is_a_prefix_of_the_free_run_witness :
  exists runtime,
    Runtime.runtime_of (Fixtures.reader Fixtures.steady (Some 3)) Fixtures.session
    = Normal runtime
    /\ ["start"%string]
         `prefix_of` logs (last_store
                             (Runtime.run runtime None Fixtures.log_then_read
                                (boot 1000)))
    /\ length (callRecords
                 (last_store
                    (Runtime.run runtime None Fixtures.log_then_read (boot 1000))))
       = 1%nat.
Proof.
  eexists. split; [reflexivity |]. split; [| reflexivity].
  exact (proj1 (result_is_a_prefix_of_the_free_run
                  (Fixtures.reader Fixtures.steady (Some 3)) Fixtures.log_then_read
                  Fixtures.session 1000 _ _ eq_refl eq_refl)).
Defined.

Lemma Forall_snoc_record {A : Type} (Q : A -> Prop) (l : list A) (a : A) :
  Forall Q l -> Q a -> Forall Q (l ++ [a]).
Proof. intros Hl Ha. apply Forall_app. split; [exact Hl | now constructor]. Qed.

(** Every record of every result was written by a binding of the executor:
    it names a tool at hand by its original name, or an agent or a skill
    at hand after [agent:] or [skill:] and then carries an error; it never
    has both a result and an error; and its duration is not negative. *)
Theorem records_are_well_formed :
  forall self code context clock r,
    Runtime.execute self code context clock = Runtime.Returns r ->
    Forall (recorded_by self) (PTCExecutionResult.toolCalls r).
Proof.
  intros self code context clock r H.
  destruct (execute_built _ _ _ _ _ H) as [rt Hrt].
  destruct (execute_store _ _ _ _ _ _ Hrt H) as [_ ->].
  destruct (runtime_of_built _ _ _ Hrt) as (Hts & Has & Hss & Hlog).
  destruct code as [message | fn]; [constructor |].
  rewrite executeWithTimeout_store.
  apply (run_along rt (fun w => Forall (recorded_by self) (callRecords w))).
  - auto.
  - auto.
  - intros args w w' E Hw. pose proof (log_shape args w) as L.
    rewrite Hlog in E. rewrite E in L. destruct L as (text & ->). exact Hw.
  - intros key f args w E Hw.
    apply (built_origin _ _ _ _ _ _ Hts) in E as (tool & Hin & _ & ->).
    pose proof (createToolFunction_record (Runtime.client self) tool context args w) as R.
    destruct (Generators.createToolFunction _ _ _ _ _) as [| asleep ms s awake | asleep];
      simpl; [destruct R | | now subst].
    destruct R as (-> & r0 & -> & Htool & _ & Hduration & Hs).
    split; [exact Hw |]. simpl. apply Forall_snoc_record; [exact Hw |].
    split; [| split; [rewrite Hduration; lia | left; eauto]].
    destruct s as [output | e]; [right; tauto | left; tauto].
  - intros key f prompt w E Hw.
    apply (built_origin _ _ _ _ _ _ Has) in E as (agent & Hin & _ & ->).
    destruct (createAgentFunction_shape (Runtime.client self) agent context prompt w)
      as (err & r0 & -> & Htool & _ & Herror & Hresult & Hduration).
    simpl. apply Forall_snoc_record; [exact Hw |].
    split; [now left |]. split; [lia |]. right. left. eauto.
  - intros key f w E Hw.
    apply (built_origin _ _ _ _ _ _ Hss) in E as (skill & Hin & _ & ->).
    destruct (createSkillFunction_shape (Runtime.client self) skill context w)
      as (err & r0 & -> & Htool & _ & Herror & Hresult & Hduration).
    simpl. apply Forall_snoc_record; [exact Hw |].
    split; [now left |]. split; [lia |]. right. right. eauto.
  - constructor.
Qed.

Lemma records_are_well_formed_witness :
  Forall (recorded_by (Fixtures.reader Fixtures.failing None))
    [ {| PTCToolCallRecord.tool := "read";
         PTCToolCallRecord.args := Fixtures.path;
         PTCToolCallRecord.result := None;
         PTCToolCallRecord.error := Some "Tool execute failed: 404"%string;
         PTCToolCallRecord.duration := 5 |} ].
Proof.
  exact (records_are_well_formed (Fixtures.reader Fixtures.failing None)
           (Runtime.Program Fixtures.log_then_read) Fixtures.session 1000 _ eq_refl).
Defined.

(** ** The ceiling on calls *)

Lemma single_tool_runtime client tool context options :
  exists rt,
    Runtime.runtime_of (Runtime.createExecutor client [tool] [] [] options) context
    = Normal rt
    /\ Runtime.rt_tools rt !! Runtime.sanitizeName (PTCTool.name tool)
       = Some (Generators.createToolFunction client tool context).
Proof.
  set (self := Runtime.createExecutor client [tool] [] [] options).
  destruct (Runtime.toolFunctions self context) as [ts | e] eqn:Hts.
  - exists {| Runtime.rt_tools := ts;
              Runtime.rt_agents := Namespace.empty;
              Runtime.rt_skills := Namespace.empty;
              Runtime.rt_log := Runtime.log;
              Runtime.rt_context := context |}.
    split; [unfold Runtime.runtime_of; rewrite Hts; reflexivity |].
    simpl. unfold Runtime.toolFunctions in Hts.
    exact (built_last (fun t => Runtime.sanitizeName (PTCTool.name t))
             (fun t => Generators.createToolFunction client t context)
             [] [] tool ts Hts ltac:(constructor)).
  - exfalso. unfold Runtime.toolFunctions in Hts. simpl in Hts.
    unfold Namespace.assign in Hts. simpl in Hts.
    rewrite lookup_empty in Hts.
    destruct (String.eqb _ "__proto__"); discriminate Hts.
Qed.

Lemma call_times_run rt client tool context args ms response :
  Runtime.rt_tools rt !! Runtime.sanitizeName (PTCTool.name tool)
  = Some (Generators.createToolFunction client tool context) ->
  (forall sent q, Host.tool_execute client sent q = Host.Fulfils ms response) ->
  truthy (Host.Response.error response) = false ->
  forall d n w,
    now w + Z.of_nat n * Z.of_N ms < d ->
    exists w',
      Runtime.run rt (Some d)
        (call_times n (Runtime.sanitizeName (PTCTool.name tool)) args) w
      = Runtime.Settled (Fulfilled VUndefined) w'
      /\ length (callRecords w') = (length (callRecords w) + n)%nat
      /\ logs w' = logs w.
Proof.
  intros Hbound Hhost Herror d n.
  induction n as [| n IH]; intros w Hd; cbn [call_times Runtime.run].
  - exists w. split; [reflexivity |]. split; [lia | reflexivity].
  - unfold Runtime.call. rewrite (resolve_bound "tools" _ _ _ Hbound).
    unfold Generators.createToolFunction at 1. rewrite Hhost. simpl.
    rewrite Herror. simpl.
    replace (d <=? now w + Z.of_N ms)%Z with false by (symmetry; apply Z.leb_gt; lia).
    match goal with
    | |- exists w', Runtime.run _ _ _ ?w1 = _ /\ _ =>
        destruct (IH w1) as (w' & Hrun & Hlen & Hlogs); [simpl; lia |]
    end.
    exists w'. split; [exact Hrun |]. rewrite Hlen, Hlogs. simpl.
    rewrite length_app. simpl. split; [lia | reflexivity].
Qed.

(** The ceiling [maxToolCalls] is not enforced: with a host that answers
    every call after [ms] milliseconds, code that calls a tool [n] times
    in a row and is through before the timer's delay has passed succeeds
    with [n] records, whatever the ceiling. *)
Theorem ceiling_is_not_enforced :
  forall client tool context ceiling T args ms response n clock,
    (forall sent q, Host.tool_execute client sent q = Host.Fulfils ms response) ->
    truthy (Host.Response.error response) = false ->
    Z.of_nat n * Z.of_N ms < Z.of_N (setTimeout_delay T) ->
    exists r,
      Runtime.execute
        (Runtime.createExecutor client [tool] [] []
           (Some {| PTCExecutorOptions.timeout := Some T;
                    PTCExecutorOptions.maxToolCalls := ceiling |}))
        (Runtime.Program (call_times n (Runtime.sanitizeName (PTCTool.name tool)) args))
        context clock
      = Runtime.Returns r
      /\ PTCExecutionResult.success r = true
      /\ length (PTCExecutionResult.toolCalls r) = n.
Proof.
  intros client tool context ceiling T args ms response n clock Hhost Herror HT.
  destruct (single_tool_runtime client tool context
              (Some {| PTCExecutorOptions.timeout := Some T;
                       PTCExecutorOptions.maxToolCalls := ceiling |}))
    as (rt & Hrt & Hbound).
  destruct (call_times_run rt client tool context args ms response Hbound
              Hhost Herror (clock + Z.of_N (setTimeout_delay T)) n (boot clock))
    as (w' & Hrun & Hlen & _); [simpl; lia |].
  unfold Runtime.execute, Runtime.executeWithTimeout. rewrite Hrt.
  change (now (boot clock)) with clock.
  change (Runtime.Options.timeout (Runtime.options _)) with T.
  rewrite Hrun. eexists. split; [reflexivity |]. simpl. split; [reflexivity |].
  rewrite Hlen. reflexivity.
Qed.

Lemma ceiling_is_not_enforced_witness :
  exists r,
    Runtime.execute
      (Runtime.createExecutor Fixtures.steady [Fixtures.read] [] []
         (Some {| PTCExecutorOptions.timeout := Some 100;
                  PTCExecutorOptions.maxToolCalls := Some 2 |}))
      (Runtime.Program (call_times 7 "read" Fixtures.path)) Fixtures.session 0
    = Runtime.Returns r
    /\ PTCExecutionResult.success r = true
    /\ length (PTCExecutionResult.toolCalls r) = 7%nat.
Proof.
  exact (ceiling_is_not_enforced Fixtures.steady Fixtures.read Fixtures.session (Some 2)
           100 Fixtures.path 5%N _ 7%nat 0 (fun _ _ => eq_refl) eq_refl
           ltac:(vm_compute; reflexivity)).
Defined.

(** ** Code that never awaits the host *)

Lemma host_free_run self context rt (fn : Runtime.script) :
  Runtime.runtime_of self context = Normal rt ->
  host_free fn ->
  forall d w,
    Runtime.run rt (Some d) fn w = Runtime.run rt None fn w
    /\ timer_fired (Runtime.run rt None fn w) = false
    /\ wire (last_store (Runtime.run rt None fn w)) = wire w
    /\ now (last_store (Runtime.run rt None fn w)) = now w.
Proof.
  intros Hrt. destruct (runtime_of_built _ _ _ Hrt) as (_ & Has & Hss & Hlog).
  induction 1 as [v | e | args k _ IH | key prompt k _ IH | key k _ IH |];
    intros d w; cbn [Runtime.run]; auto.
  - rewrite Hlog. pose proof (log_shape args w) as L.
    destruct (Runtime.log args w) as [w' |]; [| apply IH].
    destruct L as (text & ->). apply (IH None d (push_log text w)).
  - unfold Runtime.call.
    destruct (Namespace.resolve "agents" (Runtime.rt_agents rt) key) as [f | | e] eqn:E;
      [| simpl; auto | apply IH].
    apply resolve_Bound in E.
    apply (built_origin _ _ _ _ _ _ Has) in E as (agent & _ & _ & ->).
    destruct (createAgentFunction_shape (Runtime.client self) agent context prompt w)
      as (err & r & -> & _).
    simpl. apply (IH _ d (push_record r w)).
  - unfold Runtime.call.
    destruct (Namespace.resolve "skills" (Runtime.rt_skills rt) key) as [f | | e] eqn:E;
      [| simpl; auto | apply IH].
    apply resolve_Bound in E.
    apply (built_origin _ _ _ _ _ _ Hss) in E as (skill & _ & _ & ->).
    destruct (createSkillFunction_shape (Runtime.client self) skill context w)
      as (err & r & -> & _).
    simpl. apply (IH _ d (push_record r w)).
Qed.

(** Code that never awaits the host is never cut short:
    under any timeout it runs as without one, sends the host nothing and
    takes no time, so the result of [execute] does not depend on the
    options. *)
Theorem host_free_code_ignores_the_timeout :
  forall fn,
    host_free fn ->
    (forall self context runtime d w,
       Runtime.runtime_of self context = Normal runtime ->
       Runtime.run runtime (Some d) fn w = Runtime.run runtime None fn w
       /\ wire (last_store (Runtime.run runtime None fn w)) = wire w
       /\ now (last_store (Runtime.run runtime None fn w)) = now w)
    /\ (forall client tools agents skills options options' context clock,
          Runtime.execute (Runtime.createExecutor client tools agents skills options)
            (Runtime.Program fn) context clock
          = Runtime.execute (Runtime.createExecutor client tools agents skills options')
              (Runtime.Program fn) context clock).
Proof.
  intros fn Hfn. split.
  - intros self context rt d w Hrt.
    destruct (host_free_run self context rt fn Hrt Hfn d w) as (? & _ & ? & ?). auto.
  - intros client tools agents skills options options' context clock.
    set (self := Runtime.createExecutor client tools agents skills options).
    set (self' := Runtime.createExecutor client tools agents skills options').
    unfold Runtime.execute, Runtime.executeWithTimeout.
    change (Runtime.runtime_of self' context) with (Runtime.runtime_of self context).
    destruct (Runtime.runtime_of self context) as [rt | e] eqn:Hrt; [| reflexivity].
    destruct (host_free_run self context rt fn Hrt Hfn
                (now (boot clock)
                 + Z.of_N (setTimeout_delay (Runtime.Options.timeout (Runtime.options self))))
                (boot clock)) as (-> & Htimer & _).
    destruct (host_free_run self context rt fn Hrt Hfn
                (now (boot clock)
                 + Z.of_N (setTimeout_delay
                             (Runtime.Options.timeout (Runtime.options self'))))
                (boot clock)) as (-> & _).
    destruct (Runtime.run rt None fn (boot clock)); try reflexivity.
    discriminate Htimer.
Qed.

Lemma host_free_code_ignores_the_timeout_witness :
  host_free (logging [[VString "a"]; [VNumber 1]] (Runtime.Return VNull))
  /\ Runtime.execute (Runtime.createExecutor Fixtures.steady [Fixtures.read] [] [] None)
       (Runtime.Program (logging [[VString "a"]; [VNumber 1]] (Runtime.Return VNull)))
       Fixtures.session 0
     = Runtime.execute (Fixtures.reader Fixtures.steady (Some (-1)))
         (Runtime.Program (logging [[VString "a"]; [VNumber 1]] (Runtime.Return VNull)))
         Fixtures.session 0.
Proof.
  assert (host_free (logging [[VString "a"]; [VNumber 1]] (Runtime.Return VNull))) as H.
  { simpl. constructor. intros [e |]; [constructor |].
    constructor. intros [e |]; constructor. }
  split; [exact H |].
  exact (proj2 (host_free_code_ignores_the_timeout _ H) Fixtures.steady [Fixtures.read]
           [] [] None
           (Some {| PTCExecutorOptions.timeout := Some (-1);
                    PTCExecutorOptions.maxToolCalls := None |})
           Fixtures.session 0).
Defined.

(** ** Placeholders under [try] and [catch] *)

(** For an agent at hand, [await agents[key](prompt)] under the agent's
    key leaves one record with an error and no result, under any timeout.
    When the code catches the error and returns [v], the run succeeds with
    [v]; when it lets the error go, the run fails with the message that
    points to the [task] tool, which is not the message on the record. *)
Theorem placeholder_call_in_a_run :
  forall self context runtime agent prompt clock,
    Runtime.runtime_of self context = Normal runtime ->
    In agent (Runtime.agents self) ->
    let key := Runtime.sanitizeName (PTCAgent.name agent) in
    (forall v,
       exists record,
         Runtime.execute self
           (Runtime.Program (Runtime.AwaitAgent key prompt (fun _ => Runtime.Return v)))
           context clock
         = Runtime.Returns
             {| PTCExecutionResult.success := true;
                PTCExecutionResult.result := Some v;
                PTCExecutionResult.error := None;
                PTCExecutionResult.logs := [];
                PTCExecutionResult.toolCalls := [record] |}
         /\ PTCToolCallRecord.error record
            = Some "Agent calls are not yet supported in direct execution mode"%string
         /\ PTCToolCallRecord.result record = None)
    /\ exists record,
         Runtime.execute self
           (Runtime.Program
              (Runtime.AwaitAgent key prompt
                 (fun s => match s with
                           | Fulfilled output => Runtime.Return (VString output)
                           | Rejected e => Runtime.Throw e
                           end)))
           context clock
         = Runtime.Returns
             {| PTCExecutionResult.success := false;
                PTCExecutionResult.result := None;
                PTCExecutionResult.error :=
                  Some "Agent calls are not yet supported. Use the 'task' tool directly for agent invocation."%string;
                PTCExecutionResult.logs := [];
                PTCExecutionResult.toolCalls := [record] |}
         /\ PTCToolCallRecord.error record
            = Some "Agent calls are not yet supported in direct execution mode"%string.
Proof.
  intros self context rt agent prompt clock Hrt Hin key.
  destruct (runtime_of_built _ _ _ Hrt) as (_ & Has & _ & _).
  destruct (built_present _ _ _ _ _ Has Hin) as [f Hf].
  pose proof Hf as Horigin.
  apply (built_origin _ _ _ _ _ _ Has) in Horigin as (agent' & _ & _ & ->).
  apply (resolve_bound "agents") in Hf. fold key in Hf.
  split; [intros v |];
    unfold Runtime.execute, Runtime.executeWithTimeout; rewrite Hrt;
    cbn [Runtime.run]; unfold Runtime.call; rewrite Hf; simpl;
    eexists; (split; [reflexivity |]); simpl; auto.
Qed.

Lemma placeholder_call_in_a_run_witness :
  In Fixtures.reviewDot (Runtime.agents Fixtures.colliding)
  /\ exists record,
       Runtime.execute Fixtures.colliding
         (Runtime.Program
            (Runtime.AwaitAgent "code_review" (VString "look")
               (fun _ => Runtime.Return VNull)))
         Fixtures.session 0
       = Runtime.Returns
           {| PTCExecutionResult.success := true;
              PTCExecutionResult.result := Some VNull;
              PTCExecutionResult.error := None;
              PTCExecutionResult.logs := [];
              PTCExecutionResult.toolCalls := [record] |}.
Proof.
  split; [right; now left |].
  destruct (proj1 (placeholder_call_in_a_run Fixtures.colliding Fixtures.session _
                     Fixtures.reviewDot (VString "look") 0 eq_refl
                     ltac:(right; now left))
              VNull) as (record & H & _).
  exists record. exact H.
Defined.

(** ** The report *)

Lemma call_line_fails (call : PTCToolCallRecord.t) :
  (exists e, PtcTool.call_line call = Abrupt e)
  <-> exists e, stringify (PTCToolCallRecord.args call) = Abrupt e.
Proof.
  unfold PtcTool.call_line.
  destruct (stringify (PTCToolCallRecord.args call)) as [args | e]; simpl;
    split; intros [e' H]; try discriminate H; eauto.
Qed.

Lemma call_lines_shape (calls : list PTCToolCallRecord.t) :
  forall output lines,
    PtcTool.call_lines calls output = Normal lines ->
    exists trace,
      lines = output ++ map Some trace
      /\ Forall2 (fun call line => PtcTool.call_line call = Normal line) calls trace.
Proof.
  induction calls as [| call rest IH]; simpl; intros output lines H.
  - injection H as <-. exists []. rewrite app_nil_r. split; [reflexivity | constructor].
  - destruct (PtcTool.call_line call) as [line |] eqn:E; simpl in H; [| discriminate].
    destruct (IH _ _ H) as (trace & -> & Htrace).
    exists (line :: trace). rewrite <- app_assoc. split; [reflexivity |].
    now constructor.
Qed.

Lemma call_lines_fails (calls : list PTCToolCallRecord.t) :
  forall output,
    (exists e, PtcTool.call_lines calls output = Abrupt e)
    <-> Exists (fun call => exists e, stringify (PTCToolCallRecord.args call) = Abrupt e)
          calls.
Proof.
  induction calls as [| call rest IH]; simpl; intros output.
  - split; [intros [e H]; discriminate H | intros H; inversion H].
  - destruct (PtcTool.call_line call) as [line |] eqn:E; simpl.
    + rewrite IH. split; [intros H; now apply Exists_cons_tl |].
      intros H. inversion H as [? ? Hcall | ? ? Hrest]; subst; [| exact Hrest].
      apply call_line_fails in Hcall as [e He]. congruence.
    + split; [| eauto]. intros _. apply Exists_cons_hd.
      apply call_line_fails. eauto.
Qed.

(** The report has, in this order: the logs under their heading, when
    there are logs; one line for each call record, in order, under their
    heading, when there are records; and last the heading [=== Result ===]
    or [=== Error ===], as [success] says, with one entry after it, which
    for a failed result is its error message. *)
Theorem report_sections :
  forall result lines,
    PtcTool.report_lines result = Normal lines ->
    exists trace last,
      lines
      = match PTCExecutionResult.logs result with
        | [] => []
        | _ :: _ =>
            Some "=== Logs ==="%string
              :: map Some (PTCExecutionResult.logs result) ++ [Some EmptyString]
        end
        ++ match PTCExecutionResult.toolCalls result with
           | [] => []
           | _ => Some "=== Tool Calls ==="%string :: map Some trace ++ [Some EmptyString]
           end
        ++ [ Some (if PTCExecutionResult.success result
                   then "=== Result ===" else "=== Error ===")%string;
             last ]
      /\ Forall2 (fun call line => PtcTool.call_line call = Normal line)
           (PTCExecutionResult.toolCalls result) trace
      /\ (PTCExecutionResult.success result = false ->
          last = Some (default "Unknown error"%string (PTCExecutionResult.error result)))
      /\ (PTCExecutionResult.success result = true ->
          PTCExecutionResult.result result = None
          \/ PTCExecutionResult.result result = Some VUndefined ->
          last = Some "(no return value)"%string).
Proof.
  intros result lines H. unfold PtcTool.report_lines in H.
  destruct result as [success value error logs calls].
  cbn [PTCExecutionResult.logs PTCExecutionResult.toolCalls PTCExecutionResult.success
       PTCExecutionResult.result PTCExecutionResult.error] in *.
  cbv zeta in H.
  set (head := if (0 <? length logs)%nat then _ else _) in H.
  assert (head = match logs with
                 | [] => []
                 | _ => Some "=== Logs ==="%string :: map Some logs ++ [Some EmptyString]
                 end) as Hhead by (subst head; now destruct logs).
  rewrite <- Hhead. clear Hhead. clearbody head.
  assert (forall output,
            match (if success
                   then
                     do shown <- match value with
                                 | None | Some VUndefined =>
                                     Normal (Some "(no return value)"%string)
                                 | Some v => stringify_gap "  " "" v
                                 end;
                     Normal (output ++ [Some "=== Result ==="%string; shown])
                   else
                     Normal (output ++ [Some "=== Error ==="%string;
                                        Some (default "Unknown error"%string error)]))
            with
            | Normal lines =>
                exists last,
                  lines = output ++ [Some (if success then "=== Result ==="
                                           else "=== Error ===")%string; last]
                  /\ (success = false -> last = Some (default "Unknown error"%string error))
                  /\ (success = true -> value = None \/ value = Some VUndefined ->
                      last = Some "(no return value)"%string)
            | Abrupt _ => True
            end) as Hlast.
  { intros output. destruct success.
    - destruct (match value with
                | None | Some VUndefined => Normal (Some "(no return value)"%string)
                | Some v => stringify_gap "  " "" v
                end) as [shown |] eqn:E; cbn [bind]; [| exact I].
      exists shown. split; [reflexivity |]. split; [discriminate |].
      intros _ [-> | ->]; now injection E as <-.
    - eexists. split; [reflexivity |]. split; [reflexivity | discriminate]. }
  destruct calls as [| call calls]; cbn [length Nat.ltb Nat.leb bind] in H.
  - specialize (Hlast head). rewrite H in Hlast.
    destruct Hlast as (last & -> & Hfalse & Htrue).
    exists [], last. split; [reflexivity |]. split; [constructor | auto].
  - destruct (PtcTool.call_lines (call :: calls) (head ++ [Some "=== Tool Calls ==="%string]))
      as [traced |] eqn:E; cbn [bind] in H; [| discriminate].
    apply call_lines_shape in E as (trace & -> & Htrace).
    specialize (Hlast (((head ++ [Some "=== Tool Calls ==="%string]) ++ map Some trace)
                         ++ [Some EmptyString])).
    rewrite H in Hlast. destruct Hlast as (last & -> & Hfalse & Htrue).
    exists trace, last. split; [| split; [exact Htrace | auto]].
    rewrite <- !app_assoc. simpl. rewrite <- ?app_assoc. reflexivity.
Qed.

Lemma report_sections_witness :
  exists last,
    PtcTool.report_lines
      {| PTCExecutionResult.success := false;
         PTCExecutionResult.result := None;
         PTCExecutionResult.error := Some "Execution timed out after 3ms"%string;
         PTCExecutionResult.logs := ["start"%string];
         PTCExecutionResult.toolCalls := [] |}
    = Normal [ Some "=== Logs ==="%string; Some "start"%string; Some EmptyString;
               Some "=== Error ==="%string; last ]
    /\ last = Some "Execution timed out after 3ms"%string.
Proof.
  destruct (report_sections
              {| PTCExecutionResult.success := false;
                 PTCExecutionResult.result := None;
                 PTCExecutionResult.error := Some "Execution timed out after 3ms"%string;
                 PTCExecutionResult.logs := ["start"%string];
                 PTCExecutionResult.toolCalls := [] |} _ eq_refl)
    as (trace & last & Hlines & _ & Hlast & _).
  exists last. split; [| exact (Hlast eq_refl)].
  simpl in Hlines. rewrite <- Hlines. reflexivity.
Defined.

(** The report cannot be written exactly when [JSON.stringify] rejects the
    arguments of some call record or, for a successful result, the value
    returned; then the caller of [ptc_execute] gets that error and nothing
    of the result. *)
Theorem report_failure :
  forall result,
    (exists e, PtcTool.report result = Abrupt e)
    <-> Exists (fun call => exists e, stringify (PTCToolCallRecord.args call) = Abrupt e)
          (PTCExecutionResult.toolCalls result)
        \/ (PTCExecutionResult.success result = true
            /\ exists v e,
                 PTCExecutionResult.result result = Some v
                 /\ stringify_gap "  " EmptyString v = Abrupt e).
Proof.
  intros result. unfold PtcTool.report, PtcTool.report_lines.
  destruct result as [success value error logs calls].
  cbn [PTCExecutionResult.logs PTCExecutionResult.toolCalls PTCExecutionResult.success
       PTCExecutionResult.result PTCExecutionResult.error].
  cbv zeta.
  set (head := if (0 <? length logs)%nat then _ else _). clearbody head.
  set (shown := match value with
                | None | Some VUndefined => Normal (Some "(no return value)"%string)
                | Some v => stringify_gap "  " "" v
                end).
  assert ((exists e, shown = Abrupt e)
          <-> exists v e, value = Some v /\ stringify_gap "  " EmptyString v = Abrupt e)
    as Hshown.
  { subst shown. destruct value as [v |].
    - destruct v; cbv beta iota;
        [ split; [intros [e H]; discriminate H |];
          intros (v' & e & [= <-] & H); discriminate H
        | split; [intros [e H]; eexists _, e; split; [reflexivity | exact H]
                 | intros (v' & e & [= <-] & H); exists e; exact H] .. ].
    - split; [intros [e H]; discriminate H | intros (v' & e & H & _); discriminate H]. }
  assert (forall output,
            (exists e,
               (do output <-
                  (if success
                   then do shown <- shown;
                        Normal (output ++ [Some "=== Result ==="%string; shown])
                   else Normal (output ++ [Some "=== Error ==="%string;
                                           Some (default "Unknown error"%string error)]));
                Normal (join newline output)) = Abrupt e)
            <-> success = true
                /\ exists v e,
                     value = Some v /\ stringify_gap "  " EmptyString v = Abrupt e)
    as Hlast.
  { intros output. rewrite <- Hshown. destruct success; cbn [bind].
    - destruct shown as [text | e0]; cbn [bind].
      + split; [intros [e H]; discriminate H | intros (_ & e & H); discriminate H].
      + split; [eauto | eauto].
    - split; [intros [e H]; discriminate H | intros (H & _); discriminate H]. }
  destruct calls as [| call calls]; cbn [length Nat.ltb Nat.leb bind].
  - rewrite Hlast. split; [auto |]. intros [H | H]; [inversion H | exact H].
  - pose proof (call_lines_fails (call :: calls)
                  (head ++ [Some "=== Tool Calls ==="%string])) as Hcalls.
    destruct (PtcTool.call_lines (call :: calls) _) as [traced | e0]; cbn [bind].
    + rewrite Hlast. split; [auto |]. intros [H | H]; [| exact H].
      apply Hcalls in H as [e H]. discriminate H.
    + split; [intros _; left; apply Hcalls; eauto | eauto].
Qed.

Lemma report_failure_witness :
  exists e,
    PtcTool.report
      {| PTCExecutionResult.success := true;
         PTCExecutionResult.result := Some (VArray [VNumber 1; VBigInt 2]);
         PTCExecutionResult.error := None;
         PTCExecutionResult.logs := [];
         PTCExecutionResult.toolCalls := [] |}
    = Abrupt e.
Proof.
  apply (proj2 (report_failure _)). right. split; [reflexivity |].
  eexists _, _. split; reflexivity.
Defined.

(** ** Parameters, further *)

(** Every parameter of a tool's mapping has a type that is neither
    [undefined] nor [null], a [required] mark that is a boolean, and for
    [enum] an array or nothing. *)
Theorem parameters_are_well_formed :
  forall schema parameters name p,
    Generators.toolParameters schema = Normal parameters ->
    In (name, p) parameters ->
    nullish (PTCParameter.type p) = false
    /\ (exists b, PTCParameter.required p = Some b)
    /\ (PTCParameter.enum p = VUndefined \/ isArray (PTCParameter.enum p) = true).
Proof.
  intros schema parameters name p H Hin. unfold Generators.toolParameters in H.
  destruct (truthy (get_opt schema "properties")
            && typeof_object (get_opt schema "properties"));
    [| injection H as <-; destruct Hin].
  destruct (eachProperty_sound _ _ _ _ H _ _ Hin) as [[] | (def & _ & Hp)].
  unfold Generators.parameter in Hp.
  destruct (get def "type") as [type |]; simpl in Hp; [| discriminate].
  destruct (get def "description") as [description |]; simpl in Hp; [| discriminate].
  destruct (get def "enum") as [enum |]; simpl in Hp; [| discriminate].
  destruct (get def "items") as [items |]; simpl in Hp; [| discriminate].
  destruct (get def "properties") as [properties |]; simpl in Hp; [| discriminate].
  injection Hp as <-. simpl. split; [| split; [eauto |]].
  - unfold coalesce. destruct (nullish type) eqn:E; [reflexivity | exact E].
  - destruct (isArray enum) eqn:E; [right; exact E | now left].
Qed.

Lemma parameters_are_well_formed_witness :
  exists parameters limit,
    Generators.toolParameters Fixtures.read_schema = Normal parameters
    /\ In ("limit"%string, limit) parameters
    /\ nullish (PTCParameter.type limit) = false.
Proof.
  eexists _, _. split; [reflexivity |]. split; [right; now left |].
  exact (proj1 (parameters_are_well_formed Fixtures.read_schema _ "limit"%string _
                  eq_refl ltac:(right; now left))).
Defined.
